(** * Pablo card game: the match engine of [backend/main.go]

    A shallow embedding of the server-side match state ([Game], [Player],
    [Card]) and of the operations the websocket handler dispatches to
    ([StartGame], [DrawCard], [DiscardDrawnCard], [SwapCard],
    [UseSpecialCardFromDiscard], [SkipSpecialCard], [CallPablo], [EndTurn],
    [StackCard], [EndRound], [getGameStateForPlayer]), followed by the
    properties of the design document checked against them.

    Conventions of the embedding
    - a Go [map[string]T] is a [gmap string T]; a slice is a [list];
      a Go [int] is a [Z] (no length or index of a match comes near 2^63);
    - every method runs under the match mutex, so one call is one atomic
      state transformer [Game -> ... * Game];
    - [for id := range g.Players] visits the keys in an order Go leaves
      unspecified: a function that ranges over the map for its *order* takes
      that order as an explicit argument [ord]; [rangeOrder] admits every
      order of the keys, [rotationOf] the orders the runtime produces for
      a map as small as this one;
    - a run-time panic (nil dereference, index out of range) is [None];
    - [*Player] values are reached only through [g.Players], one pointer per
      key, so a write through the pointer is an update of the map entry. *)

From stdpp Require Import gmap strings list fin_maps.
From Stdlib Require Import ZArith Lia.

Open Scope string_scope.
Open Scope list_scope.
Open Scope Z_scope.

(* ===================================================================== *)
(** ** Data model *)
(* ===================================================================== *)

Record Card := mkCard {
  Suit : string;   (* "hearts", "diamonds", "clubs", "spades" *)
  Rank : string;   (* "A", "2", ..., "10", "J", "Q", "K" *)
  FaceUp : bool
}.

(** The zero value [Card{}], what [make([]Card, 4)] fills a hand with. *)
Definition zeroCard : Card := mkCard "" "" false.

Definition setFaceUp (c : Card) (b : bool) : Card :=
  mkCard (Suit c) (Rank c) b.

Record Player := mkPlayer {
  ID : string;
  Name : string;
  Cards : list Card;
  Conn : bool;     (* [Conn != nil] *)
  Ready : bool;
  Score : Z
}.

Definition setCards (p : Player) (cs : list Card) : Player :=
  mkPlayer (ID p) (Name p) cs (Conn p) (Ready p) (Score p).

Definition setScore (p : Player) (s : Z) : Player :=
  mkPlayer (ID p) (Name p) (Cards p) (Conn p) (Ready p) s.

(** [DrawnCards] is a [map[string]*Card]; the only write to it stores the
    address of a fresh copy, never nil, so an entry is a card. *)
Record Game := mkGame {
  GameID : string;
  Players : gmap string Player;
  Deck : list Card;
  DiscardPile : list Card;
  DrawnCards : gmap string Card;
  HasDrawnThisTurn : gmap string bool;
  PendingSpecialCard : string;
  CurrentPlayer : string;
  Status : string;
  PabloCalled : bool;
  PabloCaller : string;
  StackableCardIndex : Z;
  StackedSpecialCardPlayers : list string
}.

Definition setPlayers (g : Game) (x : gmap string Player) : Game :=
  mkGame (GameID g) x (Deck g) (DiscardPile g) (DrawnCards g)
    (HasDrawnThisTurn g) (PendingSpecialCard g) (CurrentPlayer g) (Status g)
    (PabloCalled g) (PabloCaller g) (StackableCardIndex g)
    (StackedSpecialCardPlayers g).

Definition setDeck (g : Game) (x : list Card) : Game :=
  mkGame (GameID g) (Players g) x (DiscardPile g) (DrawnCards g)
    (HasDrawnThisTurn g) (PendingSpecialCard g) (CurrentPlayer g) (Status g)
    (PabloCalled g) (PabloCaller g) (StackableCardIndex g)
    (StackedSpecialCardPlayers g).

Definition setDiscardPile (g : Game) (x : list Card) : Game :=
  mkGame (GameID g) (Players g) (Deck g) x (DrawnCards g)
    (HasDrawnThisTurn g) (PendingSpecialCard g) (CurrentPlayer g) (Status g)
    (PabloCalled g) (PabloCaller g) (StackableCardIndex g)
    (StackedSpecialCardPlayers g).

Definition setDrawnCards (g : Game) (x : gmap string Card) : Game :=
  mkGame (GameID g) (Players g) (Deck g) (DiscardPile g) x
    (HasDrawnThisTurn g) (PendingSpecialCard g) (CurrentPlayer g) (Status g)
    (PabloCalled g) (PabloCaller g) (StackableCardIndex g)
    (StackedSpecialCardPlayers g).

Definition setHasDrawnThisTurn (g : Game) (x : gmap string bool) : Game :=
  mkGame (GameID g) (Players g) (Deck g) (DiscardPile g) (DrawnCards g)
    x (PendingSpecialCard g) (CurrentPlayer g) (Status g)
    (PabloCalled g) (PabloCaller g) (StackableCardIndex g)
    (StackedSpecialCardPlayers g).

Definition setPendingSpecialCard (g : Game) (x : string) : Game :=
  mkGame (GameID g) (Players g) (Deck g) (DiscardPile g) (DrawnCards g)
    (HasDrawnThisTurn g) x (CurrentPlayer g) (Status g)
    (PabloCalled g) (PabloCaller g) (StackableCardIndex g)
    (StackedSpecialCardPlayers g).

Definition setCurrentPlayer (g : Game) (x : string) : Game :=
  mkGame (GameID g) (Players g) (Deck g) (DiscardPile g) (DrawnCards g)
    (HasDrawnThisTurn g) (PendingSpecialCard g) x (Status g)
    (PabloCalled g) (PabloCaller g) (StackableCardIndex g)
    (StackedSpecialCardPlayers g).

Definition setStatus (g : Game) (x : string) : Game :=
  mkGame (GameID g) (Players g) (Deck g) (DiscardPile g) (DrawnCards g)
    (HasDrawnThisTurn g) (PendingSpecialCard g) (CurrentPlayer g) x
    (PabloCalled g) (PabloCaller g) (StackableCardIndex g)
    (StackedSpecialCardPlayers g).

Definition setPablo (g : Game) (called : bool) (caller : string) : Game :=
  mkGame (GameID g) (Players g) (Deck g) (DiscardPile g) (DrawnCards g)
    (HasDrawnThisTurn g) (PendingSpecialCard g) (CurrentPlayer g) (Status g)
    called caller (StackableCardIndex g)
    (StackedSpecialCardPlayers g).

Definition setStackableCardIndex (g : Game) (x : Z) : Game :=
  mkGame (GameID g) (Players g) (Deck g) (DiscardPile g) (DrawnCards g)
    (HasDrawnThisTurn g) (PendingSpecialCard g) (CurrentPlayer g) (Status g)
    (PabloCalled g) (PabloCaller g) x
    (StackedSpecialCardPlayers g).

Definition setStackedSpecialCardPlayers (g : Game) (x : list string) : Game :=
  mkGame (GameID g) (Players g) (Deck g) (DiscardPile g) (DrawnCards g)
    (HasDrawnThisTurn g) (PendingSpecialCard g) (CurrentPlayer g) (Status g)
    (PabloCalled g) (PabloCaller g) (StackableCardIndex g) x.

(** [len(s)] as a Go [int]. *)
Definition len {A} (l : list A) : Z := Z.of_nat (length l).

(** [card.Rank == "7" || card.Rank == "8" || card.Rank == "9"]. *)
Definition isSpecialRank (r : string) : bool :=
  String.eqb r "7" || String.eqb r "8" || String.eqb r "9".

(** A slot holds a card when its rank is set: the test [EndRound] and
    [StackCard] apply ([card.Rank != ""]). *)
Definition hasRank (c : Card) : bool := negb (String.eqb (Rank c) "").

(* ===================================================================== *)
(** ** Deck construction and match set-up *)
(* ===================================================================== *)

Definition suits : list string := ["hearts"; "diamonds"; "clubs"; "spades"].
Definition ranks : list string :=
  ["A"; "2"; "3"; "4"; "5"; "6"; "7"; "8"; "9"; "10"; "J"; "Q"; "K"].

Definition createDeck : list Card :=
  flat_map (fun suit => map (fun rank => mkCard suit rank false) ranks) suits.

(** [NewGame]: [shuffled] is what [shuffleDeck] leaves in [game.Deck], some
    permutation of [createDeck ()]. *)
Definition NewGame (id : string) (shuffled : list Card) : Game :=
  mkGame id ∅ shuffled [] ∅ ∅ "" "" "waiting" false "" (-1) [].

Definition AddPlayer (g : Game) (id name : string) (conn : bool) : bool * Game :=
  if Z.of_nat (size (Players g)) >=? 6 then (false, g)
  else (true,
        setPlayers g
          (<[id := mkPlayer id name (replicate 4 zeroCard) conn false 0]>
             (Players g))).

(** The inner loop of [StartGame] for one player: four slots, each filled
    from the front of the deck while the deck lasts. *)
Fixpoint dealSlots (n : nat) (deck : list Card) : list Card * list Card :=
  match n with
  | O => ([], deck)
  | S n' =>
      match deck with
      | [] => let '(cs, d) := dealSlots n' deck in (zeroCard :: cs, d)
      | c :: rest => let '(cs, d) := dealSlots n' rest in (c :: cs, d)
      end
  end.

Definition dealTo (g : Game) (playerID : string) : Game :=
  match Players g !! playerID with
  | None => g
  | Some p =>
      let '(cs, d) := dealSlots 4 (Deck g) in
      setDeck (setPlayers g (<[playerID := setCards p cs]> (Players g))) d
  end.

(** [StartGame]: [dealOrd] is the order of the dealing loop's range over
    [g.Players], [firstOrd] the order of the second range that picks the
    first player. *)
Definition StartGame (g : Game) (dealOrd firstOrd : list string) : Game :=
  if Z.of_nat (size (Players g)) <? 2 then g
  else
    let g1 := setStatus g "playing" in
    let g2 := foldl dealTo g1 dealOrd in
    setCurrentPlayer g2 (match firstOrd with id :: _ => id | [] => "" end).

(* ===================================================================== *)
(** ** Round termination and scoring *)
(* ===================================================================== *)

Definition getCardValue (card : Card) : Z :=
  if String.eqb (Rank card) "K"
     && (String.eqb (Suit card) "hearts" || String.eqb (Suit card) "diamonds")
  then -1
  else if String.eqb (Rank card) "J" || String.eqb (Rank card) "Q" then 10
  else if String.eqb (Rank card) "K" then 10
  else if String.eqb (Rank card) "A" then 1
  else if String.eqb (Rank card) "2" then 2
  else if String.eqb (Rank card) "3" then 3
  else if String.eqb (Rank card) "4" then 4
  else if String.eqb (Rank card) "5" then 5
  else if String.eqb (Rank card) "6" then 6
  else if String.eqb (Rank card) "7" then 7
  else if String.eqb (Rank card) "8" then 8
  else if String.eqb (Rank card) "9" then 9
  else if String.eqb (Rank card) "10" then 10
  else 0.

(** The scoring loop of [EndRound] over one hand. *)
Definition handScore (cs : list Card) : Z :=
  foldl (fun score card =>
           if hasRank card then score + getCardValue card else score) 0 cs.

(** What the two loops of [EndRound] do to one player: every card turned
    face up, then the score recomputed. Both loops touch each player once
    and independently of the others, so the range order is immaterial. *)
Definition revealAndScore (p : Player) : Player :=
  let cs := map (fun c => setFaceUp c true) (Cards p) in
  setScore (setCards p cs) (handScore cs).

Definition EndRound (g : Game) : Game :=
  setPlayers (setPablo (setStatus g "ended") false "")
    (revealAndScore <$> Players g).

(* ===================================================================== *)
(** ** Turn engine *)
(* ===================================================================== *)

Definition DrawCard (g : Game) (playerID : string) : bool * Game :=
  if negb (String.eqb (CurrentPlayer g) playerID) then (false, g)
  else
    match Deck g with
    | [] =>
        (false, if String.eqb (Status g) "playing" then EndRound g else g)
    | card :: rest =>
        if default false (HasDrawnThisTurn g !! playerID) then (false, g)
        else
          (true,
           setHasDrawnThisTurn
             (setDrawnCards (setDeck g rest)
                (<[playerID := setFaceUp card true]> (DrawnCards g)))
             (<[playerID := true]> (HasDrawnThisTurn g)))
    end.

(** The bookkeeping shared by [DiscardDrawnCard] and [SwapCard] once the
    card [card] (already face up) goes on the pile: it becomes the stackable
    top and arms or clears the pending special rank. *)
Definition placeOnDiscard (g : Game) (playerID : string) (card : Card) : Game :=
  let pile := DiscardPile g ++ [card] in
  let g1 := setDiscardPile g pile in
  let g2 := setDrawnCards g1 (delete playerID (DrawnCards g1)) in
  let g3 := setStackableCardIndex g2 (len pile - 1) in
  if isSpecialRank (Rank card) then setPendingSpecialCard g3 (Rank card)
  else setPendingSpecialCard g3 "".

Definition DiscardDrawnCard (g : Game) (playerID : string) : bool * Game :=
  if negb (String.eqb (CurrentPlayer g) playerID) then (false, g)
  else
    match DrawnCards g !! playerID with
    | None => (false, g)
    | Some drawnCard => (true, placeOnDiscard g playerID (setFaceUp drawnCard true))
    end.

(** [SwapCard]: [g.Players[playerID]] is dereferenced without an existence
    check, a panic when the id is not seated. *)
Definition SwapCard (g : Game) (playerID : string) (cardIndex : Z)
  : option (bool * Game) :=
  if negb (String.eqb (CurrentPlayer g) playerID) then Some (false, g)
  else
    match DrawnCards g !! playerID with
    | None => Some (false, g)
    | Some drawnCard =>
        match Players g !! playerID with
        | None => None
        | Some p =>
            if (cardIndex <? 0) || (cardIndex >=? len (Cards p))
            then Some (false, g)
            else
              match Cards p !! Z.to_nat cardIndex with
              | None => None
              | Some oldCard =>
                  let p' := setCards p
                              (<[Z.to_nat cardIndex := setFaceUp drawnCard false]>
                                 (Cards p)) in
                  let g1 := setPlayers g (<[playerID := p']> (Players g)) in
                  Some (true, placeOnDiscard g1 playerID (setFaceUp oldCard true))
              end
        end
    end.

Definition CallPablo (g : Game) (playerID : string) : Game :=
  if negb (String.eqb (Status g) "playing") || PabloCalled g then g
  else setPablo g true playerID.

(** The search loop of [EndTurn]: index of the first occurrence. *)
Fixpoint indexOf (id : string) (l : list string) : option nat :=
  match l with
  | [] => None
  | x :: r => if String.eqb x id then Some O else S <$> indexOf id r
  end.

(** The top of the discard pile, [g.DiscardPile[len(g.DiscardPile)-1]]. *)
Definition discardTop (pile : list Card) : option Card := last pile.

(** [EndTurn]: [playerIDs] is the slice the function collects by ranging
    over [g.Players], in whatever order that range yields the keys. *)
Definition EndTurn (g : Game) (playerID : string) (playerIDs : list string) : Game :=
  if negb (String.eqb (CurrentPlayer g) playerID) then g
  else if bool_decide (is_Some (DrawnCards g !! playerID)) then g
  else if match discardTop (DiscardPile g) with
          | Some topCard =>
              isSpecialRank (Rank topCard)
              && negb (String.eqb (PendingSpecialCard g) "")
          | None => false
          end then g
  else
    match indexOf playerID playerIDs with
    | None => g
    | Some currentIdx =>
        let nextIdx := ((currentIdx + 1) `mod` length playerIDs)%nat in
        let next := default "" (playerIDs !! nextIdx) in
        let g1 := setDrawnCards g (delete playerID (DrawnCards g)) in
        let g2 := setHasDrawnThisTurn g1 (delete playerID (HasDrawnThisTurn g1)) in
        if PabloCalled g2 && String.eqb next (PabloCaller g2) then EndRound g2
        else
          let g3 := setCurrentPlayer g2 next in
          setHasDrawnThisTurn g3 (delete next (HasDrawnThisTurn g3))
    end.

(* ===================================================================== *)
(** ** Special cards (7, 8, 9) and the queue of deferred rights *)
(* ===================================================================== *)

(** A value of the decoded JSON object [params]. A JSON number arrives as a
    [float64] and the code only ever uses [int(f)]: [JNumber] carries that
    integer. [JOther] stands for every other dynamic type (among them a Go
    [int], which the assertion [.(float64)] rejects). *)
Inductive JSONValue :=
| JNumber (n : Z)
| JString (s : string)
| JOther.

(** Messages the special-card handler writes besides the state broadcast:
    one [Event] per [Conn.WriteJSON], with the player whose connection it
    is written to. *)
Inductive Event :=
| CardRevealed (recipient : string) (ofPlayer : option string)
    (index : Z) (card : Card)
| SwapEvent (recipient : string)
    (player1ID : string) (card1Index : Z) (card1 : Card)
    (player2ID : string) (card2Index : Z) (card2 : Card).

(** [sendToPlayer]: delivered only to a seated player with a connection. *)
Definition sendToPlayer (g : Game) (playerID : string) (e : Event) : list Event :=
  match Players g !! playerID with
  | Some p => if Conn p then [e] else []
  | None => []
  end.

(** [broadcastSwapEventWithCards]: the loop over [g.Players] writes the
    message once to every seated player with a connection. Each write goes
    to a different connection; they are listed in the key order of the
    map, the order of the range being of no consequence to any one
    connection. *)
Definition broadcastSwapEventWithCards (g : Game)
    (player1ID : string) (card1Index : Z) (card1 : Card)
    (player2ID : string) (card2Index : Z) (card2 : Card) : list Event :=
  (fun kv : string * Player =>
     SwapEvent kv.1 player1ID card1Index card1 player2ID card2Index card2)
  <$> filter (fun kv : string * Player => Conn kv.2 = true)
        (map_to_list (Players g)).

(** [p.Cards[idx] = c] through the pointer stored under [id]. *)
Definition writeCard (id : string) (idx : nat) (c : Card)
    (m : gmap string Player) : gmap string Player :=
  alter (fun p => setCards p (<[idx := c]> (Cards p))) id m.

(** The [switch cardRank] of [UseSpecialCardFromDiscard]: the new players
    map and the messages sent, or [None] when an index expression panics. *)
Definition specialEffect (g : Game) (playerID cardRank : string)
    (params : gmap string JSONValue) : option (Game * list Event) :=
  if String.eqb cardRank "7" then
    match params !! "targetIndex" with
    | Some (JNumber idx) =>
        if (idx >=? 0) && (idx <? 4) then
          match Players g !! playerID with
          | None => None
          | Some p =>
              match Cards p !! Z.to_nat idx with
              | None => None
              | Some card =>
                  Some (g, sendToPlayer g playerID
                             (CardRevealed playerID None idx card))
              end
          end
        else Some (g, [])
    | _ => Some (g, [])
    end
  else if String.eqb cardRank "8" then
    match params !! "targetPlayerID" with
    | Some (JString targetPlayerID) =>
        match params !! "targetIndex" with
        | Some (JNumber idx) =>
            match Players g !! targetPlayerID with
            | Some targetPlayer =>
                if (idx >=? 0) && (idx <? 4) then
                  match Cards targetPlayer !! Z.to_nat idx with
                  | None => None
                  | Some card =>
                      Some (g, sendToPlayer g playerID
                                 (CardRevealed playerID (Some targetPlayerID)
                                    idx card))
                  end
                else Some (g, [])
            | None => Some (g, [])
            end
        | _ => Some (g, [])
        end
    | _ => Some (g, [])
    end
  else if String.eqb cardRank "9" then
    match params !! "player1ID", params !! "card1Index",
          params !! "player2ID", params !! "card2Index" with
    | Some (JString player1ID), Some (JNumber idx1),
      Some (JString player2ID), Some (JNumber idx2) =>
        match Players g !! player1ID with
        | Some p1 =>
            if (idx1 >=? 0) && (idx1 <? len (Cards p1)) then
              match Players g !! player2ID with
              | Some p2 =>
                  if (idx2 >=? 0) && (idx2 <? len (Cards p2)) then
                    match Cards p1 !! Z.to_nat idx1, Cards p2 !! Z.to_nat idx2 with
                    | Some card1Before, Some card2Before =>
                        Some (setPlayers g
                                (writeCard player2ID (Z.to_nat idx2) card1Before
                                   (writeCard player1ID (Z.to_nat idx1) card2Before
                                      (Players g))),
                              broadcastSwapEventWithCards g
                                player1ID idx1 card1Before
                                player2ID idx2 card2Before)
                    | _, _ => None
                    end
                  else Some (g, [])
              | None => Some (g, [])
              end
            else Some (g, [])
        | None => Some (g, [])
        end
    | _, _, _, _ => Some (g, [])
    end
  else Some (g, []).

(** The tail of [UseSpecialCardFromDiscard]: the pending rank is cleared,
    then the head of the queue, if any, is removed and, when that id is
    seated, made current with the rank [cardRank] pending again. *)
Definition advanceQueueAfterUse (g : Game) (cardRank : string) : Game :=
  let g1 := setPendingSpecialCard g "" in
  match StackedSpecialCardPlayers g1 with
  | [] => g1
  | stackedPlayerID :: rest =>
      let g2 := setStackedSpecialCardPlayers g1 rest in
      if bool_decide (is_Some (Players g2 !! stackedPlayerID))
      then setPendingSpecialCard (setCurrentPlayer g2 stackedPlayerID) cardRank
      else g2
  end.

Definition UseSpecialCardFromDiscard (g : Game) (playerID cardRank : string)
    (params : gmap string JSONValue) : option (bool * Game * list Event) :=
  if negb (String.eqb (CurrentPlayer g) playerID) then Some (false, g, [])
  else
    match discardTop (DiscardPile g) with
    | None => Some (false, g, [])
    | Some topCard =>
        if negb (String.eqb (Rank topCard) cardRank) then Some (false, g, [])
        else if negb (String.eqb (PendingSpecialCard g) cardRank)
        then Some (false, g, [])
        else
          match specialEffect g playerID cardRank params with
          | None => None
          | Some (g1, evs) => Some (true, advanceQueueAfterUse g1 cardRank, evs)
          end
    end.

Definition SkipSpecialCard (g : Game) (playerID : string) : Game :=
  if negb (String.eqb (CurrentPlayer g) playerID) then g
  else
    let g1 := setPendingSpecialCard g "" in
    match StackedSpecialCardPlayers g1 with
    | [] => g1
    | stackedPlayerID :: rest =>
        let g2 := setStackedSpecialCardPlayers g1 rest in
        if bool_decide (is_Some (Players g2 !! stackedPlayerID)) then
          let g3 := setCurrentPlayer g2 stackedPlayerID in
          match discardTop (DiscardPile g3) with
          | Some topCard =>
              if isSpecialRank (Rank topCard)
              then setPendingSpecialCard g3 (Rank topCard)
              else g3
          | None => g3
          end
        else g2
    end.

(* ===================================================================== *)
(** ** Stacking *)
(* ===================================================================== *)

(** [StackCard] returns [(success, message)]; the two broadcasts it makes
    (state and stack attempt) read the state without changing it. *)
Definition StackCard (g : Game) (playerID : string) (cardIndex : Z)
  : (bool * string) * Game :=
  match discardTop (DiscardPile g) with
  | None => ((false, "No card in discard pile to stack on."), g)
  | Some topCard =>
      let topCardIndex := len (DiscardPile g) - 1 in
      if StackableCardIndex g =? -1 then
        ((false, "Cannot stack on this card. Cards placed via stacking cannot be stacked on."), g)
      else if negb (StackableCardIndex g =? topCardIndex) then
        ((false, "Cannot stack on this card. Only the most recent card placed via end turn can be stacked on."), g)
      else
        match Players g !! playerID with
        | None => ((false, "Player not found."), g)
        | Some player =>
            if (cardIndex <? 0) || (cardIndex >=? len (Cards player)) then
              ((false, "Invalid card index."), g)
            else
              let cardToStack := default zeroCard (Cards player !! Z.to_nat cardIndex) in
              if String.eqb (Rank cardToStack) "" then
                ((false, "Invalid card. Card has no rank."), g)
              else if String.eqb (Rank topCard) "" then
                ((false, "Invalid discard pile card. Card has no rank."), g)
              else if negb (String.eqb (Rank cardToStack) (Rank topCard)) then
                ((false, "Card rank does not match. Penalty card added."),
                 match Deck g with
                 | [] => g
                 | penaltyCard :: rest =>
                     setPlayers (setDeck g rest)
                       (<[playerID :=
                            setCards player
                              (Cards player ++ [setFaceUp penaltyCard false])]>
                          (Players g))
                 end)
              else
                let g1 := setDiscardPile g
                            (DiscardPile g ++ [setFaceUp cardToStack true]) in
                let isStackingOnSpecialCard := isSpecialRank (Rank topCard) in
                let g2 := setPlayers g1
                            (<[playerID :=
                                 setCards player
                                   (delete (Z.to_nat cardIndex) (Cards player))]>
                               (Players g1)) in
                let g3 :=
                  if isStackingOnSpecialCard then
                    if existsb (fun queuedID => String.eqb queuedID playerID)
                         (StackedSpecialCardPlayers g2)
                    then g2
                    else setStackedSpecialCardPlayers g2
                           (StackedSpecialCardPlayers g2 ++ [playerID])
                  else g2 in
                ((true, ""), setStackableCardIndex g3 (-1))
        end
  end.

(* ===================================================================== *)
(** ** Per-viewer projection *)
(* ===================================================================== *)

Record PlayerView := mkPlayerView {
  pvID : string;
  pvName : string;
  pvCards : list Card;
  pvScore : Z
}.

Record GameView := mkGameView {
  vGameID : string;
  vPlayers : gmap string PlayerView;
  vCurrentPlayer : string;
  vStatus : string;
  vPabloCalled : bool;
  vDeckSize : Z;
  vDiscardTop : option Card;
  vDrawnCards : gmap string Card;
  vPendingSpecialCard : string;
  vStackingEnabled : bool
}.

(** One iteration of the inner loop of [getGameStateForPlayer]: what is
    appended to [cards] for the card [card] of player [id]. *)
Definition projectCard (g : Game) (viewerID id : string) (card : Card)
  : list Card :=
  if negb (String.eqb (Rank card) "") || negb (String.eqb (Suit card) "") then
    if String.eqb id viewerID || FaceUp card || String.eqb (Status g) "ended"
    then [mkCard (Suit card) (Rank card)
            (FaceUp card || String.eqb (Status g) "ended")]
    else [mkCard "" "" false]
  else [].

Definition projectPlayer (g : Game) (viewerID id : string) (player : Player)
  : PlayerView :=
  mkPlayerView (ID player) (Name player)
    (flat_map (projectCard g viewerID id) (Cards player))
    (Score player).

Definition getDiscardTop (discardPile : list Card) : option Card :=
  last discardPile.

Definition getGameStateForPlayer (g : Game) (viewerID : string) : GameView :=
  mkGameView (GameID g)
    (map_imap (fun id player => Some (projectPlayer g viewerID id player))
       (Players g))
    (CurrentPlayer g) (Status g) (PabloCalled g) (len (Deck g))
    (getDiscardTop (DiscardPile g))
    (match DrawnCards g !! viewerID with
     | Some drawnCard => {[ viewerID := drawnCard ]}
     | None => ∅
     end)
    (PendingSpecialCard g)
    (match DiscardPile g with
     | [] => false
     | _ => StackableCardIndex g =? len (DiscardPile g) - 1
     end).

(* ===================================================================== *)
(** ** Runs of a match *)
(* ===================================================================== *)

(** The messages of [handleWebSocket] that act on a started match, with
    the arguments the handler extracts from the payload. [OpEndTurn] and
    [OpStartGame] also carry the key orders their ranges over [g.Players]
    happen to produce. *)
Inductive Op :=
| OpDrawCard (playerID : string)
| OpDiscardDrawnCard (playerID : string)
| OpSwapCard (playerID : string) (cardIndex : Z)
| OpUseSpecialCard (playerID cardRank : string) (params : gmap string JSONValue)
| OpSkipSpecialCard (playerID : string)
| OpCallPablo (playerID : string)
| OpEndTurn (playerID : string) (playerIDs : list string)
| OpStackCard (playerID : string) (cardIndex : Z)
| OpStartGame (dealOrd firstOrd : list string).

(** One handled message. A call that panics does so before its first
    write to the match, which is therefore left as it was. *)
Definition applyOp (g : Game) (o : Op) : Game :=
  match o with
  | OpDrawCard p => (DrawCard g p).2
  | OpDiscardDrawnCard p => (DiscardDrawnCard g p).2
  | OpSwapCard p i =>
      match SwapCard g p i with Some r => r.2 | None => g end
  | OpUseSpecialCard p r params =>
      match UseSpecialCardFromDiscard g p r params with
      | Some r => r.1.2
      | None => g
      end
  | OpSkipSpecialCard p => SkipSpecialCard g p
  | OpCallPablo p => CallPablo g p
  | OpEndTurn p ord => EndTurn g p ord
  | OpStackCard p i => (StackCard g p i).2
  | OpStartGame o1 o2 => StartGame g o1 o2
  end.

Definition runOps (g : Game) (ops : list Op) : Game := foldl applyOp g ops.

(** [ord] is an order in which a range over the map [m] can yield its
    keys as far as the language goes: each key once, in any order. *)
Definition rangeOrder {V} (m : gmap string V) (ord : list string) : Prop :=
  ord ≡ₚ (map_to_list m).*1.

(** The ids of the [join] messages, in the order they were handled. *)
Definition seatingOf (joins : list (string * string * bool)) : list string :=
  (fun j => j.1.1) <$> joins.

(** The successor of a seat in the words of the design document: the next
    entry of the insertion-ordered [seating] list, wrapping around. It is
    the specification side of the comparison with [EndTurn], which reads
    its successor off the slice it collects from the map. *)
Definition nextSeat (seating : list string) (p : string) : option string :=
  match indexOf p seating with
  | Some i => seating !! ((i + 1) `mod` length seating)%nat
  | None => None
  end.

(** The orders in which the Go runtime makes [for id := range g.Players]
    yield the keys of a match. [AddPlayer] admits at most six players and
    nothing ever deletes a key, so the map fits the single bucket (eight
    slots) of the runtime's hash table, with the keys in its slots in the
    order of their first insertion; a range walks the slots of that
    bucket from a random offset and wraps around. The order is the join
    order, rotated. This is a fact about the runtime, not about the
    language, and theorems that rely on it carry it as a hypothesis. *)
Definition rotationOf (seating ord : list string) : Prop :=
  ∃ k, ord = rotate k seating.

(** Joining: the [join] messages handled in sequence, each with its
    player id, its name and whether a connection is attached. *)
Definition joinAll (g : Game) (joins : list (string * string * bool)) : Game :=
  foldl (fun g j => (AddPlayer g j.1.1 j.1.2 j.2).2) g joins.

(** The number of hand slots of a player that hold a card. *)
Definition countNonEmpty (cs : list Card) : nat :=
  length (filter (fun c => hasRank c = true) cs).

(** Sum over all players of their non-empty hand slots. *)
Definition handTotal (m : gmap string Player) : nat :=
  map_fold (fun _ p acc => (countNonEmpty (Cards p) + acc)%nat) 0%nat m.

(** The quantity of the conservation property as the design document
    writes it: one unit for "a drawn card is pending". *)
Definition cardTotal (g : Game) : nat :=
  (length (Deck g) + length (DiscardPile g) + handTotal (Players g)
   + (if bool_decide (DrawnCards g = ∅) then 0 else 1))%nat.

(** The same with every pending drawn card counted ([DrawnCards] has one
    entry per player holding one). *)
Definition cardTotalAll (g : Game) : nat :=
  (length (Deck g) + length (DiscardPile g) + handTotal (Players g)
   + size (DrawnCards g))%nat.

(** A match as the handler obtains it: a fresh game over some shuffle of
    the 52 cards, some joins, then a start that took effect. *)
Definition started (g : Game) : Prop :=
  ∃ id shuffled joins dealOrd firstOrd,
    shuffled ≡ₚ createDeck ∧
    (2 ≤ size (Players (joinAll (NewGame id shuffled) joins)))%nat ∧
    rangeOrder (Players (joinAll (NewGame id shuffled) joins)) dealOrd ∧
    rangeOrder (Players (joinAll (NewGame id shuffled) joins)) firstOrd ∧
    g = StartGame (joinAll (NewGame id shuffled) joins) dealOrd firstOrd.

Definition isStartGame (o : Op) : bool :=
  match o with OpStartGame _ _ => true | _ => false end.

(** The message [o], handled in state [g], is a draw that succeeds while
    the drawing player still holds an earlier drawn card. *)
Definition redraws (g : Game) (o : Op) : bool :=
  match o with
  | OpDrawCard p =>
      (DrawCard g p).1 && bool_decide (is_Some (DrawnCards g !! p))
  | _ => false
  end.

(** A run without a second [startGame] and without such a draw. *)
Fixpoint plainRun (g : Game) (ops : list Op) : bool :=
  match ops with
  | [] => true
  | o :: rest =>
      negb (isStartGame o) && negb (redraws g o) && plainRun (applyOp g o) rest
  end.

(** Every card of the deck, of the hands and among the drawn cards is a
    real card. *)
Definition realCard (c : Card) : Prop := hasRank c = true.

Definition realCards (g : Game) : Prop :=
  Forall realCard (Deck g)
  ∧ map_Forall (fun _ p => Forall realCard (Cards p)) (Players g)
  ∧ map_Forall (fun _ c => realCard c) (DrawnCards g).

#[global] Instance Card_eq_dec : EqDecision Card.
Proof. solve_decision. Defined.

#[global] Instance JSONValue_eq_dec : EqDecision JSONValue.
Proof. solve_decision. Defined.


(* ===================================================================== *)
(** ** Concrete matches used as test inputs *)
(* ===================================================================== *)

(** A shuffle that puts the cards [front] on top of the deck, the others
    following in the order of [createDeck]. *)
Definition shuffleWithFront (front : list Card) : list Card :=
  front ++ filter (fun c => c ∉ front) createDeck.

Definition twoJoins : list (string * string * bool) :=
  [("p1", "Alice", true); ("p2", "Bob", true)].

(** Two players on the unshuffled deck. *)
Definition demoStart : Game :=
  StartGame (joinAll (NewGame "g" createDeck) twoJoins) ["p1"; "p2"] ["p1"].

(** [p1] is dealt a 7 in slot 0; the first cards drawn are the 7 of
    hearts, the 9 of hearts, the 10 of hearts. *)
Definition sevensDeck : list Card :=
  shuffleWithFront
    [mkCard "diamonds" "7" false; mkCard "hearts" "A" false;
     mkCard "hearts" "2" false; mkCard "hearts" "3" false;
     mkCard "hearts" "4" false; mkCard "hearts" "5" false;
     mkCard "hearts" "6" false; mkCard "hearts" "8" false;
     mkCard "hearts" "7" false; mkCard "hearts" "9" false;
     mkCard "hearts" "10" false].

Definition sevensStart : Game :=
  StartGame (joinAll (NewGame "g" sevensDeck) twoJoins) ["p1"; "p2"] ["p1"].

(** [p1] discards a 7, uses it and ends the turn; then stacks the 7 from
    slot 0 onto it, which queues a deferred right for [p1]; [p2] draws and
    skips, which hands the turn back to [p1] while [p2] still holds the
    drawn card. *)
Definition deferredRightRun : list Op :=
  [OpDrawCard "p1"; OpDiscardDrawnCard "p1"; OpUseSpecialCard "p1" "7" ∅;
   OpEndTurn "p1" ["p1"; "p2"]; OpStackCard "p1" 0; OpDrawCard "p2";
   OpSkipSpecialCard "p2"].

(** ... after which [p1] draws as well: two drawn cards are pending. *)
Definition twoDrawnRun : list Op := deferredRightRun ++ [OpDrawCard "p1"].

(** ... or [p1] skips and ends the turn, and [p2] draws a second time. *)
Definition redrawRun : list Op :=
  deferredRightRun
  ++ [OpSkipSpecialCard "p1"; OpEndTurn "p1" ["p1"; "p2"]; OpDrawCard "p2"].

(** Two states hold the same cards in the same places: deck, discard pile
    and every player's hand. *)
Definition sameCards (g g' : Game) : Prop :=
  Deck g' = Deck g ∧ DiscardPile g' = DiscardPile g
  ∧ ∀ id, Cards <$> (Players g' !! id) = Cards <$> (Players g !! id).

(** Operations that move no card when no Pablo lap is open. *)
Definition movesNoCard (o : Op) : bool :=
  match o with
  | OpEndTurn _ _ | OpSkipSpecialCard _ | OpCallPablo _ => true
  | _ => false
  end.

(** [p1] calls Pablo and plays a turn (the 9 drawn and discarded is
    skipped), [p2] plays the last turn: the round ends. *)
Definition pabloRun : list Op :=
  [OpCallPablo "p1"; OpDrawCard "p1"; OpDiscardDrawnCard "p1";
   OpSkipSpecialCard "p1"; OpEndTurn "p1" ["p1"; "p2"];
   OpDrawCard "p2"; OpDiscardDrawnCard "p2"; OpEndTurn "p2" ["p1"; "p2"]].

Definition endedDemo : Game := runOps demoStart pabloRun.

(** One full turn of player [p] in a two-player match: draw, discard,
    skip (a no-op unless the discarded card was a 7, 8 or 9), end turn. *)
Definition plainTurn (p : string) : list Op :=
  [OpDrawCard p; OpDiscardDrawnCard p; OpSkipSpecialCard p;
   OpEndTurn p ["p1"; "p2"]].

(** Forty-four plain turns: the deck of [demoStart] is drawn to the last
    card, the king of spades ending on top of the pile. *)
Definition drainRun : list Op :=
  concat (replicate 22 (plainTurn "p1" ++ plainTurn "p2")).

Definition drainedDemo : Game := runOps demoStart drainRun.

(** [p1] is dealt two 2s and two 3s; the other 2s and 3s are the first
    four cards drawn. *)
Definition pairsDeck : list Card :=
  shuffleWithFront
    [mkCard "hearts" "2" false; mkCard "diamonds" "2" false;
     mkCard "hearts" "3" false; mkCard "diamonds" "3" false;
     mkCard "hearts" "A" false; mkCard "hearts" "4" false;
     mkCard "hearts" "5" false; mkCard "hearts" "6" false;
     mkCard "clubs" "2" false; mkCard "spades" "2" false;
     mkCard "clubs" "3" false; mkCard "spades" "3" false].

Definition pairsStart : Game :=
  StartGame (joinAll (NewGame "g" pairsDeck) twoJoins) ["p1"; "p2"] ["p1"].

(** Each discard is matched by [p1] from slot 0; the last of these four
    stacks is [lastPairStack]. *)
Definition threeStacksRun : list Op :=
  [OpDrawCard "p1"; OpDiscardDrawnCard "p1"; OpStackCard "p1" 0;
   OpEndTurn "p1" ["p1"; "p2"];
   OpDrawCard "p2"; OpDiscardDrawnCard "p2"; OpStackCard "p1" 0;
   OpEndTurn "p2" ["p1"; "p2"];
   OpDrawCard "p1"; OpDiscardDrawnCard "p1"; OpStackCard "p1" 0;
   OpEndTurn "p1" ["p1"; "p2"];
   OpDrawCard "p2"; OpDiscardDrawnCard "p2"].

Definition oneCardLeft : Game := runOps pairsStart threeStacksRun.

(** The hand of a player, [nil] for an id that is not seated. *)
Definition handOf (g : Game) (id : string) : list Card :=
  default [] (Cards <$> (Players g !! id)).

(** In [sevensStart], [p1] discards the 7 of hearts: the 7 of diamonds in
    slot 0 of [p1] can be stacked on it. *)
Definition sevenOnTop : Game :=
  runOps sevensStart [OpDrawCard "p1"; OpDiscardDrawnCard "p1"].

(** Three players, joined in the order [p1], [p2], [p3]. *)
Definition threeJoins : list (string * string * bool) :=
  [("p1", "Alice", true); ("p2", "Bob", true); ("p3", "Carol", true)].

(** The three of them seated, the match is started. *)
Definition threeStartOps : list Op :=
  [OpStartGame ["p1"; "p2"; "p3"] ["p1"; "p2"; "p3"]].

(** The target index of a use of 7 or 8 is missing, not a number, or
    outside the grid. *)
Definition targetIndexBad (params : gmap string JSONValue) : bool :=
  match params !! "targetIndex" with
  | Some (JNumber idx) => (idx <? 0) || (idx >=? 4)
  | _ => true
  end.

(** The target player of a use of 8 is missing or not a string. *)
Definition targetPlayerBad (params : gmap string JSONValue) : bool :=
  match params !! "targetPlayerID" with
  | Some (JString _) => false
  | _ => true
  end.

Definition malformedTarget (cardRank : string)
    (params : gmap string JSONValue) : bool :=
  targetIndexBad params || (String.eqb cardRank "8" && targetPlayerBad params).

(** A slot the projection keeps: rank or suit set. *)
Definition shownSlot (c : Card) : bool :=
  negb (String.eqb (Rank c) "") || negb (String.eqb (Suit c) "").

(** What a viewer may not learn: the rank and suit of a face-down card in
    another player's hand. [maskCard] overwrites them with a fixed value. *)
Definition maskCard (c : Card) : Card :=
  if shownSlot c && negb (FaceUp c) then mkCard "hidden" "hidden" false else c.

(** The state with every card hidden from [viewerID] masked. Two states
    with the same image differ, at most, in what [viewerID] may not learn. *)
Definition hideOthers (viewerID : string) (g : Game) : Game :=
  setPlayers g
    (map_imap (fun id p =>
                 Some (if String.eqb id viewerID then p
                       else setCards p (map maskCard (Cards p))))
       (Players g)).

(** [demoStart] with another card in slot 0 of [p2]. *)
Definition demoStartOtherCard : Game :=
  setPlayers demoStart
    (writeCard "p2" 0 (mkCard "spades" "K" false) (Players demoStart)).

(** [p1] and [p2] are each dealt a 7 in slot 0 and the first card drawn
    is the 7 of hearts. *)
Definition rivalSevensDeck : list Card :=
  shuffleWithFront
    [mkCard "diamonds" "7" false; mkCard "hearts" "A" false;
     mkCard "hearts" "2" false; mkCard "hearts" "3" false;
     mkCard "clubs" "7" false; mkCard "hearts" "5" false;
     mkCard "hearts" "6" false; mkCard "hearts" "8" false;
     mkCard "hearts" "7" false].

(** The match is started, [p1] draws the 7 of hearts and discards it,
    and [p2] stacks the 7 of slot 0 onto it: the 7 is pending for [p1],
    and [p2] is queued for a deferred right. *)
Definition rivalQueuedOps : list Op :=
  [OpStartGame ["p1"; "p2"] ["p1"; "p2"]; OpDrawCard "p1";
   OpDiscardDrawnCard "p1"; OpStackCard "p2" 0].

Definition rivalQueued : Game :=
  runOps (joinAll (NewGame "g" rivalSevensDeck) twoJoins) rivalQueuedOps.

(** In [sevenOnTop], [p1] stacks the 7 of slot 0 onto the discarded 7:
    the 7 is still pending for [p1], whose hand is down to three slots. *)
Definition shortHand : Game := runOps sevenOnTop [OpStackCard "p1" 0].

(** What the projection puts in place of a card the viewer may see
    ([reveal]) and of a face-down card of another player ([conceal]). *)
Definition reveal (ended : bool) (c : Card) : Card :=
  mkCard (Suit c) (Rank c) (FaceUp c || ended).

Definition conceal (c : Card) : Card :=
  if FaceUp c then c else zeroCard.

(** The cards shown to [viewerID] for player [id], [None] when [id] is not
    seated. *)
Definition viewedHand (g : Game) (viewerID id : string) : option (list Card) :=
  pvCards <$> (vPlayers (getGameStateForPlayer g viewerID) !! id).

(* ===================================================================== *)
(** ** The give-back obligation *)
(* ===================================================================== *)

Module GiveBack.

(** Modelled from the spec: the [PendingGive] record, [StackOpponentCard]
    and [HandleGiveCard], which [backend/main_test.go] and the front end
    call but [backend/main.go] does not define. The definitions below
    follow sections 3, 4.4 and 7 of the design document: a hand is a list
    of slots in which stacking leaves the empty marker, a successful
    stack from an opponent's slot records the obligation, and while it
    is recorded every action of the obliged player other than giving a
    card is rejected with the match unchanged. *)
Record PendingGive := mkPendingGive {
  ActorID : string;
  TargetPlayerID : string;
  TargetIndex : Z
}.

(** Modelled from the spec: the match state of section 3, the state of
    [backend/main.go] extended with the [pendingGive] field. *)
Record Match := mkMatch {
  game : Game;
  pendingGive : option PendingGive
}.

(** Modelled from the spec: the client actions of section 6. *)
Inductive Action :=
| ActDraw
| ActDiscardDrawn
| ActSwapDrawn (slot : Z)
| ActUseSpecialCard (cardRank : string) (params : gmap string JSONValue)
| ActSkipSpecialCard
| ActCallPablo
| ActEndTurn
| ActStackOwn (slot : Z)
| ActStackOpponent (targetPlayerID : string) (slot : Z)
| ActGiveCard (sourceSlot : Z).

Definition isGiveCard (a : Action) : bool :=
  match a with ActGiveCard _ => true | _ => false end.

(** Modelled from the spec: [pendingGive.actorID == playerID]. *)
Definition obliged (m : Match) (playerID : string) : bool :=
  match pendingGive m with
  | Some pg => String.eqb (ActorID pg) playerID
  | None => false
  end.

(** Modelled from the spec: some player holds no card at all, the
    zero-card trigger of section 4.5. *)
Definition someoneOut (g : Game) : bool :=
  bool_decide (map_Exists (fun _ p => countNonEmpty (Cards p) = 0%nat)
                 (Players g)).

(** Modelled from the spec: [stackOpponent(actorID, targetPlayerID, slot)]
    of section 4.4. Success moves the target's card face up onto the
    pile, leaves the empty marker in its slot, queues the actor when the
    card stacked onto was a 7, 8 or 9, clears the stackable index, records
    the obligation when the target is another player, and ends the round
    when a player is left without cards. A rank mismatch costs the actor
    a penalty card from the deck. Anything else is a rejection. *)
Definition stackOpponent (m : Match) (actorID targetPlayerID : string)
    (slot : Z) : bool * Match :=
  let g := game m in
  match discardTop (DiscardPile g), Players g !! actorID,
        Players g !! targetPlayerID with
  | Some topCard, Some actor, Some target =>
      if negb (StackableCardIndex g =? len (DiscardPile g) - 1) then (false, m)
      else if (slot <? 0) || (slot >=? len (Cards target)) then (false, m)
      else
        let source := default zeroCard (Cards target !! Z.to_nat slot) in
        if negb (hasRank source) then (false, m)
        else if negb (String.eqb (Rank source) (Rank topCard)) then
          (false,
           match Deck g with
           | [] => m
           | penaltyCard :: rest =>
               mkMatch
                 (setPlayers (setDeck g rest)
                    (<[actorID :=
                         setCards actor
                           (Cards actor ++ [setFaceUp penaltyCard false])]>
                       (Players g)))
                 (pendingGive m)
           end)
        else
          let g1 := setDiscardPile g
                      (DiscardPile g ++ [setFaceUp source true]) in
          let g2 := setPlayers g1
                      (writeCard targetPlayerID (Z.to_nat slot) zeroCard
                         (Players g1)) in
          let g3 :=
            if isSpecialRank (Rank topCard)
               && negb (bool_decide (actorID ∈ StackedSpecialCardPlayers g2))
            then setStackedSpecialCardPlayers g2
                   (StackedSpecialCardPlayers g2 ++ [actorID])
            else g2 in
          let g4 := setStackableCardIndex g3 (-1) in
          let g5 := if someoneOut g4 then EndRound g4 else g4 in
          (true,
           mkMatch g5
             (if String.eqb targetPlayerID actorID then pendingGive m
              else Some (mkPendingGive actorID targetPlayerID slot)))
  | _, _, _ => (false, m)
  end.

(** Modelled from the spec: [giveCard(actorID, sourceSlot)] of section
    4.4, legal only for the obliged player and for a slot of that
    player's hand that holds a card. *)
Definition giveCard (m : Match) (actorID : string) (sourceSlot : Z)
  : bool * Match :=
  let g := game m in
  match pendingGive m with
  | None => (false, m)
  | Some pg =>
      if negb (String.eqb (ActorID pg) actorID) then (false, m)
      else
        match Players g !! actorID, Players g !! TargetPlayerID pg with
        | Some actor, Some target =>
            if (sourceSlot <? 0) || (sourceSlot >=? len (Cards actor))
            then (false, m)
            else
              let card := default zeroCard
                            (Cards actor !! Z.to_nat sourceSlot) in
              if negb (hasRank card) then (false, m)
              else
                (true,
                 mkMatch
                   (setPlayers g
                      (writeCard (TargetPlayerID pg)
                         (Z.to_nat (TargetIndex pg)) (setFaceUp card false)
                         (writeCard actorID (Z.to_nat sourceSlot) zeroCard
                            (Players g))))
                   None)
        | _, _ => (false, m)
        end
  end.

Section Gate.
(** What the other actions do when they are not held back by the
    obligation; the gate below does not depend on it. *)
Variable perform : Game → string → Action → bool * Game.

(** Modelled from the spec: one action of [playerID]. *)
Definition handle (m : Match) (playerID : string) (a : Action)
  : bool * Match :=
  match a with
  | ActGiveCard sourceSlot => giveCard m playerID sourceSlot
  | ActStackOpponent targetPlayerID slot =>
      if obliged m playerID then (false, m)
      else stackOpponent m playerID targetPlayerID slot
  | _ =>
      if obliged m playerID then (false, m)
      else
        let r := perform (game m) playerID a in
        (r.1, mkMatch r.2 (pendingGive m))
  end.
End Gate.

(** The other actions as [backend/main.go] has them, with the key orders
    of [EndTurn] fixed to the two-player order. *)
Definition performFromSource (g : Game) (playerID : string) (a : Action)
  : bool * Game :=
  match a with
  | ActDraw => DrawCard g playerID
  | ActDiscardDrawn => DiscardDrawnCard g playerID
  | ActSwapDrawn slot =>
      default (false, g) (SwapCard g playerID slot)
  | ActUseSpecialCard r params =>
      default (false, g)
        (fst <$> UseSpecialCardFromDiscard g playerID r params)
  | ActSkipSpecialCard => (true, SkipSpecialCard g playerID)
  | ActCallPablo => (true, CallPablo g playerID)
  | ActEndTurn => (true, EndTurn g playerID ["p1"; "p2"])
  | ActStackOwn slot => ((StackCard g playerID slot).1.1, (StackCard g playerID slot).2)
  | _ => (false, g)
  end.

(** [p2] stacks the 7 in slot 0 of [p1] onto the discarded 7. *)
Definition beforeStack : Match := mkMatch sevenOnTop None.
Definition afterStack : Match := (stackOpponent beforeStack "p2" "p1" 0).2.

End GiveBack.

(* ===================================================================== *)
(** ** Further functions of [backend/main.go] *)
(* ===================================================================== *)

(** [getNumericRank]: the numeric value of a rank, [-1] for the face
    cards and for any other string. *)
Definition getNumericRank (rank : string) : Z :=
  if String.eqb rank "A" then 1
  else if String.eqb rank "2" then 2
  else if String.eqb rank "3" then 3
  else if String.eqb rank "4" then 4
  else if String.eqb rank "5" then 5
  else if String.eqb rank "6" then 6
  else if String.eqb rank "7" then 7
  else if String.eqb rank "8" then 8
  else if String.eqb rank "9" then 9
  else if String.eqb rank "10" then 10
  else -1.

(** [GameManager]: the registry [games], a map from game id to the game
    stored under it. *)
Record GameManager := mkGameManager {
  games : gmap string Game
}.

(** [GetOrCreateGame]: the game stored under [gameID], or a new one
    (whose deck [shuffleDeck] leaves as [shuffled]) stored and returned. *)
Definition GetOrCreateGame (gm : GameManager) (gameID : string)
    (shuffled : list Card) : Game * GameManager :=
  match games gm !! gameID with
  | Some game => (game, gm)
  | None =>
      let game := NewGame gameID shuffled in
      (game, mkGameManager (<[gameID := game]> (games gm)))
  end.

(** The three bookkeeping facts every operation keeps: the stackable
    index is unset or points at the top of the pile; a pending special
    rank is 7, 8 or 9 and is the rank on top of the pile; no player is
    queued twice for a deferred right, and every queued player is seated. *)
Definition stackableTidy (g : Game) : Prop :=
  StackableCardIndex g = -1
  ∨ StackableCardIndex g = len (DiscardPile g) - 1.

Definition pendingTidy (g : Game) : Prop :=
  PendingSpecialCard g ≠ "" →
  isSpecialRank (PendingSpecialCard g) = true
  ∧ Rank <$> discardTop (DiscardPile g) = Some (PendingSpecialCard g).

Definition queueTidy (g : Game) : Prop :=
  NoDup (StackedSpecialCardPlayers g)
  ∧ Forall (fun q => is_Some (Players g !! q)) (StackedSpecialCardPlayers g).

(** The key orders an operation carries are orders in which a range over
    the players of [g] can yield the keys. *)
Definition ordersValid (g : Game) (o : Op) : Prop :=
  match o with
  | OpEndTurn _ playerIDs => rangeOrder (Players g) playerIDs
  | OpStartGame dealOrd firstOrd =>
      rangeOrder (Players g) dealOrd ∧ rangeOrder (Players g) firstOrd
  | _ => True
  end.

Fixpoint validRun (g : Game) (ops : list Op) : Prop :=
  match ops with
  | [] => True
  | o :: rest => ordersValid g o ∧ validRun (applyOp g o) rest
  end.

(** The same ids are seated in [g] and [g']. *)
Definition sameSeats (g g' : Game) : Prop :=
  ∀ id, is_Some (Players g' !! id) ↔ is_Some (Players g !! id).

(** The message of the one rejection of [StackCard] that changes the
    match. *)
Definition penaltyMessage : string :=
  "Card rank does not match. Penalty card added.".

(** [p1] draws the 9 of hearts of [demoStart] and discards it. *)
Definition nineOnTop : Game :=
  runOps demoStart [OpDrawCard "p1"; OpDiscardDrawnCard "p1"].

(** The parameters of a swap of slot [i1] of [p1] with slot [i2] of [p2]. *)
Definition swapParams (p1 : string) (i1 : Z) (p2 : string) (i2 : Z)
  : gmap string JSONValue :=
  <["player1ID" := JString p1]>
    (<["card1Index" := JNumber i1]>
       (<["player2ID" := JString p2]> {["card2Index" := JNumber i2]})).

(** The card in slot [j] of the hand of [id], if any. *)
Definition slotOf (g : Game) (id : string) (j : nat) : option Card :=
  handOf g id !! j.
(* ===================================================================== *)
(** ** Basic facts *)
(* ===================================================================== *)

Section HandTotal.
Implicit Types (m : gmap string Player) (p : Player).

Lemma countNonEmpty_real (cs : list Card) :
  Forall realCard cs → countNonEmpty cs = length cs.
Proof.
  unfold countNonEmpty. induction 1 as [|c cs Hc _ IH]; [done|].
  rewrite filter_cons_True by done. simpl. by rewrite IH.
Qed.

Lemma countNonEmpty_app (cs ds : list Card) :
  countNonEmpty (cs ++ ds) = (countNonEmpty cs + countNonEmpty ds)%nat.
Proof. unfold countNonEmpty. by rewrite filter_app, length_app. Qed.

Lemma handTotal_empty : handTotal ∅ = 0%nat.
Proof. apply map_fold_empty. Qed.

Lemma handTotal_insert_None m id p :
  m !! id = None →
  handTotal (<[id := p]> m) = (countNonEmpty (Cards p) + handTotal m)%nat.
Proof.
  intros Hid. unfold handTotal.
  rewrite map_fold_insert_L; [done| intros; lia | done].
Qed.

Lemma handTotal_delete m id p :
  m !! id = Some p →
  handTotal m = (countNonEmpty (Cards p) + handTotal (delete id m))%nat.
Proof.
  intros Hid. unfold handTotal.
  rewrite (map_fold_delete_L _ _ id p m); [done| intros; lia | done].
Qed.

(** Replacing the hand of a seated player moves the total by the
    difference of the two hands. *)
Lemma handTotal_insert m id p p' :
  m !! id = Some p →
  (handTotal (<[id := p']> m) + countNonEmpty (Cards p)
   = handTotal m + countNonEmpty (Cards p'))%nat.
Proof.
  intros Hid. rewrite (handTotal_delete m id p Hid).
  rewrite <- (insert_delete_eq m id p').
  rewrite handTotal_insert_None by apply lookup_delete_eq. lia.
Qed.

Lemma handTotal_fmap m (f : Player → Player) :
  (∀ p, countNonEmpty (Cards (f p)) = countNonEmpty (Cards p)) →
  handTotal (f <$> m) = handTotal m.
Proof.
  intros Hf. induction m as [|id p m Hid IH] using map_ind.
  - by rewrite fmap_empty.
  - rewrite fmap_insert.
    rewrite !handTotal_insert_None by (by rewrite ?lookup_fmap, ?Hid).
    by rewrite Hf, IH.
Qed.

Lemma handTotal_const m (n : nat) :
  map_Forall (fun _ p => countNonEmpty (Cards p) = n) m →
  handTotal m = (n * size m)%nat.
Proof.
  induction m as [|id p m Hid IH] using map_ind; intros Hall.
  - rewrite handTotal_empty, map_size_empty. lia.
  - rewrite handTotal_insert_None, map_size_insert_None by done.
    apply map_Forall_insert in Hall as [Hp Hm]; [|done].
    rewrite IH by done. lia.
Qed.
End HandTotal.

Section RealCards.
Lemma real_map_setFaceUp cs b :
  Forall realCard cs → Forall realCard (map (fun c => setFaceUp c b) cs).
Proof. induction 1; simpl; constructor; auto. Qed.

Lemma countNonEmpty_map_setFaceUp cs b :
  countNonEmpty (map (fun c => setFaceUp c b) cs) = countNonEmpty cs.
Proof.
  unfold countNonEmpty. induction cs as [|c cs IH]; [done|]. simpl.
  destruct (decide (hasRank c = true)) as [Hc|Hc].
  - rewrite !filter_cons_True by done. simpl. by rewrite IH.
  - rewrite !filter_cons_False by done. done.
Qed.

Lemma countNonEmpty_revealAndScore p :
  countNonEmpty (Cards (revealAndScore p)) = countNonEmpty (Cards p).
Proof. apply countNonEmpty_map_setFaceUp. Qed.

Lemma map_Forall_alter_real (m : gmap string Player) id (f : Player → Player) :
  (∀ p, Forall realCard (Cards p) → Forall realCard (Cards (f p))) →
  map_Forall (fun _ p => Forall realCard (Cards p)) m →
  map_Forall (fun _ p => Forall realCard (Cards p)) (alter f id m).
Proof.
  intros Hf Hm j q. rewrite lookup_alter. case_decide; subst.
  - destruct (m !! j) as [p|] eqn:Hj; simpl; [|done].
    intros [= <-]. apply Hf. by apply (Hm j).
  - apply Hm.
Qed.

Lemma realCards_EndRound g : realCards g → realCards (EndRound g).
Proof.
  intros (Hd & Hp & Hc). repeat split; simpl; [done| |done].
  intros j q. rewrite lookup_fmap.
  destruct (Players g !! j) as [p|] eqn:Hj; simpl; [|done].
  intros [= <-]. simpl. apply real_map_setFaceUp. by apply (Hp j).
Qed.

Lemma cardTotalAll_EndRound g : cardTotalAll (EndRound g) = cardTotalAll g.
Proof.
  unfold cardTotalAll. simpl.
  by rewrite (handTotal_fmap _ _ countNonEmpty_revealAndScore).
Qed.
End RealCards.

(* ===================================================================== *)
(** ** Conservation of cards, operation by operation *)
(* ===================================================================== *)

Section Conservation.

Lemma DrawCard_conserves g p :
  realCards g → redraws g (OpDrawCard p) = false →
  realCards (DrawCard g p).2
  ∧ cardTotalAll (DrawCard g p).2 = cardTotalAll g.
Proof.
  intros Hreal Hre. unfold redraws in Hre. unfold DrawCard in *.
  destruct (negb (String.eqb (CurrentPlayer g) p)); [done|].
  destruct (Deck g) as [|card rest] eqn:Hdeck.
  { simpl. destruct (String.eqb (Status g) "playing"); [|done].
    split; [by apply realCards_EndRound | apply cardTotalAll_EndRound]. }
  destruct (default false (HasDrawnThisTurn g !! p)); [done|].
  simpl in *. destruct Hreal as (Hd & Hp & Hc). rewrite Hdeck in Hd.
  apply Forall_cons in Hd as [Hcard Hrest].
  apply bool_decide_eq_false in Hre.
  assert (DrawnCards g !! p = None) as Hnone.
  { destruct (DrawnCards g !! p); [by destruct Hre|done]. }
  split.
  - repeat split; simpl; [done|done|].
    apply map_Forall_insert_2; [done|done].
  - unfold cardTotalAll. simpl. rewrite Hdeck. simpl.
    rewrite map_size_insert_None by done. lia.
Qed.

Lemma placeOnDiscard_real g p card :
  realCards g → realCards (placeOnDiscard g p card).
Proof.
  intros (Hd & Hp & Hc). unfold placeOnDiscard.
  destruct (isSpecialRank (Rank card)); repeat split; simpl; try done;
    by apply map_Forall_delete.
Qed.

Lemma placeOnDiscard_total g p card :
  is_Some (DrawnCards g !! p) →
  cardTotalAll (placeOnDiscard g p card) = cardTotalAll g.
Proof.
  intros Hsome. unfold placeOnDiscard, cardTotalAll.
  pose proof (map_size_delete_Some p (DrawnCards g) Hsome) as Hsz.
  assert (size (DrawnCards g) ≠ 0%nat) by (by eapply map_size_ne_0_lookup_2).
  destruct (isSpecialRank (Rank card)); simpl; rewrite length_app; simpl; lia.
Qed.

Lemma DiscardDrawnCard_conserves g p :
  realCards g →
  realCards (DiscardDrawnCard g p).2
  ∧ cardTotalAll (DiscardDrawnCard g p).2 = cardTotalAll g.
Proof.
  intros Hreal. unfold DiscardDrawnCard.
  destruct (negb (String.eqb (CurrentPlayer g) p)); [done|].
  destruct (DrawnCards g !! p) as [c|] eqn:Hc; [|done]. simpl. split.
  - by apply placeOnDiscard_real.
  - apply placeOnDiscard_total. by rewrite Hc.
Qed.

Lemma SwapCard_conserves g p i r :
  realCards g → SwapCard g p i = Some r →
  realCards r.2 ∧ cardTotalAll r.2 = cardTotalAll g.
Proof.
  intros Hreal. unfold SwapCard.
  destruct (negb (String.eqb (CurrentPlayer g) p)); [by intros [= <-]|].
  destruct (DrawnCards g !! p) as [drawn|] eqn:Hdrawn; [|by intros [= <-]].
  destruct (Players g !! p) as [pl|] eqn:Hpl; [|done].
  destruct ((i <? 0) || (i >=? len (Cards pl))); [by intros [= <-]|].
  destruct (Cards pl !! Z.to_nat i) as [old|] eqn:Hold; [|done].
  intros [= <-]. simpl.
  destruct Hreal as (Hd & Hp & Hc).
  pose proof (Hp p pl Hpl) as Hhand. simpl in Hhand.
  pose proof (Hc p drawn Hdrawn) as Hdr. simpl in Hdr.
  set (g1 := setPlayers g _). split.
  - apply placeOnDiscard_real. repeat split; simpl; [done| |done].
    apply map_Forall_insert_2; [|done]. simpl.
    by apply Forall_insert.
  - rewrite placeOnDiscard_total by (simpl; by rewrite Hdrawn).
    unfold cardTotalAll. simpl.
    pose proof (handTotal_insert (Players g) p pl
      (setCards pl (<[Z.to_nat i:=setFaceUp drawn false]> (Cards pl))) Hpl) as H.
    simpl in H.
    rewrite (countNonEmpty_real (Cards pl)) in H by done.
    rewrite countNonEmpty_real in H by (by apply Forall_insert).
    rewrite length_insert in H. lia.
Qed.

Lemma CallPablo_conserves g p :
  realCards g →
  realCards (CallPablo g p) ∧ cardTotalAll (CallPablo g p) = cardTotalAll g.
Proof.
  intros Hreal. unfold CallPablo.
  by destruct (negb (String.eqb (Status g) "playing") || PabloCalled g).
Qed.

Lemma EndTurn_conserves g p ord :
  realCards g →
  realCards (EndTurn g p ord) ∧ cardTotalAll (EndTurn g p ord) = cardTotalAll g.
Proof.
  intros Hreal. unfold EndTurn.
  destruct (negb (String.eqb (CurrentPlayer g) p)); [done|].
  case_bool_decide as Hdrawn; [done|].
  destruct (match discardTop (DiscardPile g) with Some _ => _ | None => _ end);
    [done|].
  destruct (indexOf p ord) as [idx|]; [|done].
  assert (DrawnCards g !! p = None) as Hnone.
  { destruct (DrawnCards g !! p); [by destruct Hdrawn|done]. }
  assert (delete p (DrawnCards g) = DrawnCards g) as Hdel by (by apply delete_id).
  simpl. rewrite Hdel.
  destruct (PabloCalled g && String.eqb _ (PabloCaller g)).
  - split; [apply realCards_EndRound | rewrite cardTotalAll_EndRound];
      by destruct g.
  - by destruct g.
Qed.
End Conservation.

Section ConservationSpecial.

Lemma writeCard_conserves (m : gmap string Player) id idx c :
  map_Forall (fun _ p => Forall realCard (Cards p)) m → realCard c →
  map_Forall (fun _ p => Forall realCard (Cards p)) (writeCard id idx c m)
  ∧ handTotal (writeCard id idx c m) = handTotal m.
Proof.
  intros Hm Hc. split.
  - apply map_Forall_alter_real; [|done].
    intros p Hp. simpl. by apply Forall_insert.
  - unfold writeCard. destruct (m !! id) as [p|] eqn:Hid.
    + set (f := fun p => setCards p (<[idx:=c]> (Cards p))).
      assert (alter f id m = <[id := f p]> m) as ->.
      { apply map_eq. intros j. rewrite lookup_alter, lookup_insert.
        repeat case_decide; subst; try congruence; by rewrite ?Hid. }
      pose proof (handTotal_insert m id p (f p) Hid) as H.
      pose proof (Hm id p Hid) as Hp. simpl in Hp.
      rewrite (countNonEmpty_real (Cards p)) in H by done.
      rewrite countNonEmpty_real in H by (by apply Forall_insert).
      simpl in H. rewrite length_insert in H. lia.
    + f_equal. apply map_eq. intros j. rewrite lookup_alter.
      case_decide; subst; by rewrite ?Hid.
Qed.

(** The effect of a special card changes nothing but the hands, and the
    hands only by exchanging two cards. *)
Lemma specialEffect_conserves g p r params g1 evs :
  realCards g → specialEffect g p r params = Some (g1, evs) →
  realCards g1 ∧ cardTotalAll g1 = cardTotalAll g.
Proof.
  intros Hreal. unfold specialEffect.
  repeat case_match; intros; simplify_eq; try done.
  destruct Hreal as (Hd & Hp & Hc).
  match goal with
  | H1 : Players g !! ?a = Some ?pa, H2 : Players g !! ?b = Some ?pb,
    H3 : Cards ?pa !! _ = Some ?ca, H4 : Cards ?pb !! _ = Some ?cb |- _ =>
      assert (realCard ca) by
        (eapply Forall_lookup_1; [apply (Hp _ _ H1)|apply H3]);
      assert (realCard cb) by
        (eapply Forall_lookup_1; [apply (Hp _ _ H2)|apply H4])
  end.
  match goal with
  | |- context [writeCard ?b ?ib ?cb (writeCard ?a ?ia ?ca _)] =>
      destruct (writeCard_conserves (Players g) a ia ca Hp) as [Hm1 Ht1];
        [done|];
      destruct (writeCard_conserves _ b ib cb Hm1) as [Hm2 Ht2]; [done|]
  end.
  split; [repeat split; simpl; [done|exact Hm2|done]|].
  unfold cardTotalAll. simpl. by rewrite Ht2, Ht1.
Qed.

Lemma advanceQueueAfterUse_conserves g r :
  realCards g →
  realCards (advanceQueueAfterUse g r)
  ∧ cardTotalAll (advanceQueueAfterUse g r) = cardTotalAll g.
Proof.
  intros Hreal. unfold advanceQueueAfterUse. simpl.
  destruct (StackedSpecialCardPlayers g); [done|].
  by case_bool_decide.
Qed.

Lemma UseSpecialCard_conserves g p r params res :
  realCards g → UseSpecialCardFromDiscard g p r params = Some res →
  realCards res.1.2 ∧ cardTotalAll res.1.2 = cardTotalAll g.
Proof.
  intros Hreal. unfold UseSpecialCardFromDiscard.
  destruct (negb (String.eqb (CurrentPlayer g) p)); [by intros [= <-]|].
  destruct (discardTop (DiscardPile g)) as [top|]; [|by intros [= <-]].
  destruct (negb (String.eqb (Rank top) r)); [by intros [= <-]|].
  destruct (negb (String.eqb (PendingSpecialCard g) r)); [by intros [= <-]|].
  destruct (specialEffect g p r params) as [[g1 evs]|] eqn:Heff; [|done].
  intros [= <-]. simpl.
  destruct (specialEffect_conserves _ _ _ _ _ _ Hreal Heff) as [Hr1 Ht1].
  destruct (advanceQueueAfterUse_conserves g1 r Hr1) as [Hr2 Ht2].
  split; [done|congruence].
Qed.

Lemma SkipSpecialCard_conserves g p :
  realCards g →
  realCards (SkipSpecialCard g p)
  ∧ cardTotalAll (SkipSpecialCard g p) = cardTotalAll g.
Proof.
  intros Hreal. unfold SkipSpecialCard.
  destruct (negb (String.eqb (CurrentPlayer g) p)); [done|]. simpl.
  destruct (StackedSpecialCardPlayers g); [done|].
  case_bool_decide; [|done]. simpl.
  destruct (discardTop (DiscardPile g)) as [top|]; [|done].
  by destruct (isSpecialRank (Rank top)).
Qed.

Lemma StackCard_conserves g p i :
  realCards g →
  realCards (StackCard g p i).2
  ∧ cardTotalAll (StackCard g p i).2 = cardTotalAll g.
Proof.
  intros Hreal. unfold StackCard.
  destruct (discardTop (DiscardPile g)) as [top|]; [|done].
  destruct (StackableCardIndex g =? -1); [done|].
  destruct (negb (StackableCardIndex g =? len (DiscardPile g) - 1)); [done|].
  destruct (Players g !! p) as [pl|] eqn:Hpl; [|done].
  destruct ((i <? 0) || (i >=? len (Cards pl))) eqn:Hrange; [done|].
  apply orb_false_iff in Hrange as [Hlo Hhi].
  assert (is_Some (Cards pl !! Z.to_nat i)) as [c Hc].
  { apply lookup_lt_is_Some. unfold len in Hhi. lia. }
  rewrite Hc. simpl.
  destruct (String.eqb (Rank c) ""); [done|].
  destruct (String.eqb (Rank top) ""); [done|].
  destruct Hreal as (Hd & Hp & Hdr).
  pose proof (Hp p pl Hpl) as Hhand. simpl in Hhand.
  destruct (negb (String.eqb (Rank c) (Rank top))).
  - (* penalty *)
    simpl. destruct (Deck g) as [|pen rest] eqn:Hdeck.
    { split; [by repeat split; rewrite ?Hdeck|done]. }
    apply Forall_cons in Hd as [Hpen Hrest].
    split.
    + repeat split; simpl; [done| |done].
      apply map_Forall_insert_2; [|done]. simpl.
      apply Forall_app. split; [done|]. by constructor.
    + unfold cardTotalAll. simpl. rewrite Hdeck. simpl.
      pose proof (handTotal_insert (Players g) p pl
        (setCards pl (Cards pl ++ [setFaceUp pen false])) Hpl) as H.
      simpl in H. rewrite countNonEmpty_app in H.
      rewrite (countNonEmpty_real [_]) in H by (by constructor).
      simpl in H. lia.
  - (* success *)
    assert (realCards (setPlayers
               (setDiscardPile g (DiscardPile g ++ [setFaceUp c true]))
               (<[p := setCards pl (delete (Z.to_nat i) (Cards pl))]>
                  (Players g)))) as Hreal2.
    { repeat split; simpl; [done| |done].
      apply map_Forall_insert_2; [|done]. simpl. by apply Forall_delete. }
    assert (cardTotalAll (setPlayers
               (setDiscardPile g (DiscardPile g ++ [setFaceUp c true]))
               (<[p := setCards pl (delete (Z.to_nat i) (Cards pl))]>
                  (Players g))) = cardTotalAll g) as Htot2.
    { unfold cardTotalAll. simpl. rewrite length_app. simpl.
      pose proof (handTotal_insert (Players g) p pl
        (setCards pl (delete (Z.to_nat i) (Cards pl))) Hpl) as H.
      simpl in H.
      rewrite (countNonEmpty_real (Cards pl)) in H by done.
      rewrite countNonEmpty_real in H by (by apply Forall_delete).
      rewrite length_delete in H by (by rewrite Hc).
      apply lookup_lt_Some in Hc. lia. }
    simpl. destruct (isSpecialRank (Rank top)); [|done].
    by destruct (existsb _ _).
Qed.
End ConservationSpecial.

(* ===================================================================== *)
(** ** The state right after the start *)
(* ===================================================================== *)

Section Start.

Lemma rangeOrder_NoDup {V} (m : gmap string V) ord :
  rangeOrder m ord → NoDup ord.
Proof. intros ->. apply NoDup_fst_map_to_list. Qed.

Lemma rangeOrder_elem {V} (m : gmap string V) ord id :
  rangeOrder m ord → id ∈ ord ↔ is_Some (m !! id).
Proof.
  intros ->. rewrite list_elem_of_fmap. split.
  - intros ([j v] & -> & Hin). apply elem_of_map_to_list in Hin. by exists v.
  - intros [v Hv]. exists (id, v). split; [done|].
    by apply elem_of_map_to_list.
Qed.

Lemma rangeOrder_length {V} (m : gmap string V) ord :
  rangeOrder m ord → length ord = size m.
Proof. intros ->. by rewrite length_fmap, length_map_to_list. Qed.

Lemma joinAll_fields joins g :
  (size (Players g) ≤ 6)%nat →
  Deck (joinAll g joins) = Deck g
  ∧ DiscardPile (joinAll g joins) = DiscardPile g
  ∧ DrawnCards (joinAll g joins) = DrawnCards g
  ∧ (size (Players (joinAll g joins)) ≤ 6)%nat.
Proof.
  revert g. induction joins as [|[[id name] conn] joins IH]; intros g Hsz;
    [done|].
  unfold joinAll. simpl. fold (joinAll (AddPlayer g id name conn).2 joins).
  unfold AddPlayer.
  destruct (Z.of_nat (size (Players g)) >=? 6) eqn:Hfull; simpl.
  - by apply IH.
  - destruct (IH (setPlayers g
      (<[id:=mkPlayer id name (replicate 4 zeroCard) conn false 0]> (Players g))))
      as (H1 & H2 & H3 & H4); [|done].
    simpl. rewrite map_size_insert.
    destruct (Players g !! id); simpl; lia.
Qed.

Lemma dealSlots_enough n deck :
  (n ≤ length deck)%nat → dealSlots n deck = (take n deck, drop n deck).
Proof.
  revert deck. induction n as [|n IH]; intros deck Hn; [done|].
  destruct deck as [|c rest]; simpl in *; [lia|].
  rewrite IH by lia. done.
Qed.

Lemma dealTo_fold ord : ∀ g,
  NoDup ord →
  (∀ id, id ∈ ord → is_Some (Players g !! id)) →
  (4 * length ord ≤ length (Deck g))%nat →
  Forall realCard (Deck g) →
  Deck (foldl dealTo g ord) = drop (4 * length ord) (Deck g)
  ∧ DiscardPile (foldl dealTo g ord) = DiscardPile g
  ∧ DrawnCards (foldl dealTo g ord) = DrawnCards g
  ∧ Status (foldl dealTo g ord) = Status g
  ∧ size (Players (foldl dealTo g ord)) = size (Players g)
  ∧ (∀ id, id ∈ ord → ∃ p, Players (foldl dealTo g ord) !! id = Some p
                         ∧ length (Cards p) = 4%nat
                         ∧ Forall realCard (Cards p))
  ∧ (∀ id, id ∉ ord → Players (foldl dealTo g ord) !! id = Players g !! id).
Proof.
  induction ord as [|a ord IH]; intros g Hnd Hin Hlen Hreal.
  { simpl. rewrite drop_0. repeat split; try done.
    intros id Hid. by apply elem_of_nil in Hid. }
  apply NoDup_cons in Hnd as [Ha Hnd]. simpl in Hlen.
  destruct (Hin a) as [pa Hpa]; [left|].
  simpl.
  assert (dealTo g a
          = setDeck (setPlayers g
                       (<[a := setCards pa (take 4 (Deck g))]> (Players g)))
              (drop 4 (Deck g))) as ->.
  { unfold dealTo. rewrite Hpa, dealSlots_enough by lia. done. }
  set (g1 := setDeck _ _).
  destruct (IH g1) as (H1 & H2 & H3 & H4 & H5 & H6 & H7).
  - done.
  - intros id Hid. subst g1. simpl. rewrite lookup_insert.
    case_decide; [by eexists|]. apply Hin. by right.
  - subst g1. simpl. rewrite length_drop. lia.
  - subst g1. simpl. by apply Forall_drop.
  - rewrite H1, H2, H3, H4, H5. subst g1. simpl.
    rewrite drop_drop. repeat split.
    + f_equal. lia.
    + apply map_size_insert_Some. by rewrite Hpa.
    + intros id [->|Hid]%elem_of_cons; [|by apply H6].
      rewrite H7 by done. simpl. rewrite lookup_insert_eq.
      eexists. split; [done|]. simpl. split.
      * rewrite length_take. lia.
      * by apply Forall_take.
    + intros id Hid%not_elem_of_cons. destruct Hid as [Hne Hid].
      rewrite H7 by done. simpl. by rewrite lookup_insert_ne.
Qed.

Lemma createDeck_real : Forall realCard createDeck.
Proof. apply Forall_forall. intros c Hc. by repeat (apply elem_of_cons in Hc as [->|Hc]; [done|]); apply elem_of_nil in Hc. Qed.

Lemma createDeck_length : length createDeck = 52%nat.
Proof. done. Qed.

(** Right after the start no card is on the pile or drawn, every hand
    holds four real cards and the 52 cards are all accounted for. *)
Lemma started_conserved g :
  started g → realCards g ∧ cardTotalAll g = 52%nat.
Proof.
  intros (id & sh & joins & o1 & o2 & Hperm & Hsz & Ho1 & Ho2 & ->).
  set (g0 := joinAll (NewGame id sh) joins) in *.
  destruct (joinAll_fields joins (NewGame id sh)) as (Hdeck & Hpile & Hdrawn & Hsz6).
  { simpl. rewrite map_size_empty. lia. }
  fold g0 in Hdeck, Hpile, Hdrawn, Hsz6. simpl in Hdeck, Hpile, Hdrawn.
  assert (Forall realCard sh) as Hsh.
  { eapply Permutation_Forall; [symmetry; exact Hperm|apply createDeck_real]. }
  assert (length sh = 52%nat) as Hlen.
  { by rewrite Hperm. }
  unfold StartGame.
  destruct (Z.of_nat (size (Players g0)) <? 2) eqn:Hlt; [lia|].
  pose proof (rangeOrder_length _ _ Ho1) as Hl1.
  destruct (dealTo_fold o1 (setStatus g0 "playing"))
    as (H1 & H2 & H3 & H4 & H5 & H6 & H7); simpl.
  - by eapply rangeOrder_NoDup.
  - intros j Hj. by apply (rangeOrder_elem _ _ _ Ho1).
  - rewrite Hdeck. lia.
  - by rewrite Hdeck.
  - simpl in *.
    assert (map_Forall (fun _ p => length (Cards p) = 4%nat
                                    ∧ Forall realCard (Cards p))
              (Players (foldl dealTo (setStatus g0 "playing") o1))) as Hall.
    { intros j p Hjp. destruct (decide (j ∈ o1)) as [Hj|Hj].
      - destruct (H6 j Hj) as (p' & Hp' & ? & ?). by simplify_eq.
      - rewrite H7 in Hjp by done.
        exfalso. apply Hj. apply (rangeOrder_elem _ _ _ Ho1). by eexists. }
    split.
    + repeat split; simpl.
      * rewrite H1, Hdeck. by apply Forall_drop.
      * intros j p Hjp. by apply (Hall j p Hjp).
      * rewrite H3, Hdrawn. apply map_Forall_empty.
    + unfold cardTotalAll. simpl.
      rewrite H1, H2, H3, Hdeck, Hpile, Hdrawn, length_drop, map_size_empty.
      rewrite (handTotal_const _ 4).
      * rewrite H5. simpl. lia.
      * intros j p Hjp. destruct (Hall j p Hjp) as [Hl Hr]. simpl.
        by rewrite countNonEmpty_real.
Qed.
End Start.

(* ===================================================================== *)
(** ** C1: conservation of the 52 cards *)
(* ===================================================================== *)

Section C1.

Lemma applyOp_conserves g o :
  realCards g → isStartGame o = false → redraws g o = false →
  realCards (applyOp g o) ∧ cardTotalAll (applyOp g o) = cardTotalAll g.
Proof.
  intros Hreal Hstart Hre. destruct o; simpl; try done.
  - by apply DrawCard_conserves.
  - by apply DiscardDrawnCard_conserves.
  - destruct (SwapCard g playerID cardIndex) as [r|] eqn:Hr; [|done].
    by eapply SwapCard_conserves.
  - destruct (UseSpecialCardFromDiscard g playerID cardRank params)
      as [r|] eqn:Hr; [|done].
    by eapply UseSpecialCard_conserves.
  - by apply SkipSpecialCard_conserves.
  - by apply CallPablo_conserves.
  - by apply EndTurn_conserves.
  - by apply StackCard_conserves.
Qed.

Lemma plainRun_conserves ops : ∀ g,
  realCards g → plainRun g ops = true →
  realCards (runOps g ops) ∧ cardTotalAll (runOps g ops) = cardTotalAll g.
Proof.
  induction ops as [|o ops IH]; intros g Hreal Hplain; [done|].
  simpl in Hplain.
  apply andb_true_iff in Hplain as [Hplain Hrest].
  apply andb_true_iff in Hplain as [Hst Hre].
  apply negb_true_iff in Hst, Hre.
  destruct (applyOp_conserves g o Hreal Hst Hre) as [Hreal1 Htot1].
  destruct (IH (applyOp g o) Hreal1 Hrest) as [Hreal2 Htot2].
  unfold runOps in *. simpl. split; [done|congruence].
Qed.

Lemma sevensDeck_shuffle : sevensDeck ≡ₚ createDeck.
Proof. apply (bool_decide_unpack _). vm_compute. exact I. Qed.

Lemma demoStart_started : started demoStart.
Proof.
  exists "g", createDeck, twoJoins, ["p1"; "p2"], ["p1"; "p2"].
  split; [done|]. split; [vm_compute; lia|].
  split; [by vm_compute|]. split; [by vm_compute|]. done.
Qed.

Lemma sevensStart_started : started sevensStart.
Proof.
  exists "g", sevensDeck, twoJoins, ["p1"; "p2"], ["p1"; "p2"].
  split; [apply sevensDeck_shuffle|]. split; [vm_compute; lia|].
  split; [by vm_compute|]. split; [by vm_compute|]. done.
Qed.
End C1.

(** C1 (as amended). In every state reached from a started match by draw,
    discardDrawn, swapDrawn, useSpecialCard, skip, callPablo, endTurn and
    stack, with no second startGame and no draw by a player who still holds
    a drawn card, the sizes of the deck, of the discard pile, of the
    non-empty hand slots and of the set of pending drawn cards (one per
    player holding one) add up to 52. *)
Theorem C1_conservation_plain_runs (g : Game) (ops : list Op) :
  started g → plainRun g ops = true → cardTotalAll (runOps g ops) = 52%nat.
Proof.
  intros Hst Hplain.
  destruct (started_conserved g Hst) as [Hreal Htot].
  destruct (plainRun_conserves ops g Hreal Hplain) as [_ Heq].
  by rewrite Heq.
Qed.

Lemma C1_conservation_plain_runs_witness :
  started sevensStart ∧ plainRun sevensStart twoDrawnRun = true
  ∧ cardTotalAll (runOps sevensStart twoDrawnRun) = 52%nat.
Proof.
  split; [apply sevensStart_started|].
  split; [by vm_compute|].
  apply (C1_conservation_plain_runs sevensStart twoDrawnRun).
  - apply sevensStart_started.
  - by vm_compute.
Defined.

(** C1 (as stated) fails: a second startGame deals fresh hands over the
    old ones (44 cards remain); without any restart, a deferred special
    right can leave two drawn cards pending (counted as one: 51), and can
    let a player draw over the card already drawn, which is then gone. *)
Lemma C1_conservation_counterexample :
  started demoStart
  ∧ cardTotal (runOps demoStart [OpStartGame ["p1"; "p2"] ["p1"]]) = 44%nat
  ∧ started sevensStart
  ∧ cardTotal (runOps sevensStart twoDrawnRun) = 51%nat
  ∧ cardTotal (runOps sevensStart redrawRun) = 51%nat
  ∧ cardTotalAll (runOps sevensStart redrawRun) = 51%nat.
Proof.
  split; [apply demoStart_started|]. split; [by vm_compute|].
  split; [apply sevensStart_started|]. by vm_compute.
Qed.

(* ===================================================================== *)
(** ** C2: the ended state *)
(* ===================================================================== *)

Section Ended.

Lemma placeOnDiscard_status g p c :
  Status (placeOnDiscard g p c) = Status g
  ∧ PabloCalled (placeOnDiscard g p c) = PabloCalled g.
Proof. unfold placeOnDiscard. by destruct (isSpecialRank (Rank c)). Qed.

Lemma specialEffect_status g p r params g1 evs :
  specialEffect g p r params = Some (g1, evs) →
  Status g1 = Status g ∧ PabloCalled g1 = PabloCalled g.
Proof.
  unfold specialEffect. repeat case_match; intros; by simplify_eq.
Qed.

Lemma advanceQueueAfterUse_status g r :
  Status (advanceQueueAfterUse g r) = Status g
  ∧ PabloCalled (advanceQueueAfterUse g r) = PabloCalled g.
Proof.
  unfold advanceQueueAfterUse. simpl.
  destruct (StackedSpecialCardPlayers g); [done|]. by case_bool_decide.
Qed.

Lemma SwapCard_status g p i r :
  SwapCard g p i = Some r →
  Status r.2 = Status g ∧ PabloCalled r.2 = PabloCalled g.
Proof.
  unfold SwapCard, placeOnDiscard.
  repeat case_match; intros; by simplify_eq.
Qed.

Lemma UseSpecialCard_status g p r params res :
  UseSpecialCardFromDiscard g p r params = Some res →
  Status res.1.2 = Status g ∧ PabloCalled res.1.2 = PabloCalled g.
Proof.
  unfold UseSpecialCardFromDiscard.
  repeat case_match; intros; simplify_eq; try done. simpl.
  match goal with H : specialEffect _ _ _ _ = Some _ |- _ =>
    destruct (specialEffect_status _ _ _ _ _ _ H) as [Hs1 Hs2] end.
  match goal with |- context [advanceQueueAfterUse ?a ?b] =>
    destruct (advanceQueueAfterUse_status a b) as [-> ->] end.
  done.
Qed.

Lemma ended_applyOp g o :
  Status g = "ended" → PabloCalled g = false → isStartGame o = false →
  Status (applyOp g o) = "ended" ∧ PabloCalled (applyOp g o) = false.
Proof.
  intros Hst Hpc Hstart. destruct o; simpl; try done.
  - unfold DrawCard. repeat case_match; simpl; auto.
  - unfold DiscardDrawnCard, placeOnDiscard. repeat case_match; simpl; auto.
  - destruct (SwapCard g playerID cardIndex) as [r|] eqn:Hr; [|done].
    destruct (SwapCard_status _ _ _ _ Hr) as [-> ->]. done.
  - destruct (UseSpecialCardFromDiscard g playerID cardRank params)
      as [r|] eqn:Hr; [|done].
    destruct (UseSpecialCard_status _ _ _ _ _ Hr) as [-> ->]. done.
  - unfold SkipSpecialCard. repeat case_match; simpl; auto.
  - unfold CallPablo. by rewrite Hst.
  - unfold EndTurn. repeat case_match; simpl; auto.
  - unfold StackCard. repeat case_match; simpl; auto.
Qed.

Lemma ended_movesNoCard g o :
  PabloCalled g = false → movesNoCard o = true → sameCards g (applyOp g o).
Proof.
  intros Hpc Hmv. destruct o; try done; simpl.
  - unfold SkipSpecialCard, sameCards. repeat case_match; simpl; auto.
  - unfold CallPablo, sameCards. repeat case_match; simpl; auto.
  - unfold EndTurn, sameCards. repeat case_match; simpl; auto.
    all: simpl in *; by rewrite Hpc in *.
Qed.

Lemma endedDemo_ended :
  Status endedDemo = "ended" ∧ PabloCalled endedDemo = false.
Proof. by vm_compute. Qed.
End Ended.

(** C2 (as amended). Once the status is "ended" it stays "ended" under
    draw, discardDrawn, swapDrawn, stack, useSpecialCard, skip, callPablo
    and endTurn; endTurn, skip and callPablo leave the deck, the discard
    pile and every hand as they are, and so does a draw on an empty deck
    (the round is not ended a second time). No Pablo lap is open in an
    ended state, [EndRound] having closed it. *)
Theorem C2_ended_is_kept (g : Game) (o : Op) :
  Status g = "ended" → PabloCalled g = false → isStartGame o = false →
  Status (applyOp g o) = "ended"
  ∧ PabloCalled (applyOp g o) = false
  ∧ (movesNoCard o = true → sameCards g (applyOp g o))
  ∧ (Deck g = [] → ∀ p, DrawCard g p = (false, g)).
Proof.
  intros Hst Hpc Hstart.
  destruct (ended_applyOp g o Hst Hpc Hstart) as [H1 H2].
  split; [done|]. split; [done|].
  split; [by apply ended_movesNoCard|].
  intros Hdeck p. unfold DrawCard. rewrite Hdeck, Hst.
  by destruct (negb _).
Qed.

Lemma C2_ended_is_kept_witness :
  Status endedDemo = "ended" ∧ PabloCalled endedDemo = false
  ∧ Status (applyOp endedDemo (OpEndTurn "p2" ["p1"; "p2"])) = "ended"
  ∧ sameCards endedDemo (applyOp endedDemo (OpEndTurn "p2" ["p1"; "p2"])).
Proof.
  split; [by vm_compute|]. split; [by vm_compute|].
  destruct (C2_ended_is_kept endedDemo (OpEndTurn "p2" ["p1"; "p2"]))
    as (H1 & _ & H3 & _).
  - by vm_compute.
  - by vm_compute.
  - reflexivity.
  - split; [exact H1|]. apply H3. reflexivity.
Defined.

(** C2 (as stated) fails: in the ended match reached by a completed Pablo
    lap the current player can still draw (the deck loses a card), and any
    player can still attempt a stack (a failed one moves a deck card into
    the hand). *)
Lemma C2_ended_counterexample :
  started demoStart
  ∧ Status endedDemo = "ended"
  ∧ (DrawCard endedDemo "p2").1 = true
  ∧ length (Deck endedDemo) = 42%nat
  ∧ length (Deck (DrawCard endedDemo "p2").2) = 41%nat
  ∧ length <$> (Cards <$> (Players endedDemo !! "p1")) = Some 4%nat
  ∧ length <$> (Cards <$> (Players (StackCard endedDemo "p1" 0).2 !! "p1"))
    = Some 5%nat.
Proof. split; [apply demoStart_started|]. by vm_compute. Qed.

(* ===================================================================== *)
(** ** Stacking: C4, C5, C7 *)
(* ===================================================================== *)

Section Stacking.

Lemma discardTop_Some_len (pile : list Card) top :
  discardTop pile = Some top → (1 ≤ len pile)%Z.
Proof.
  unfold discardTop, len. destruct pile; [done|]. simpl length. lia.
Qed.

(** [StackCard] never touches the status: no path of it ends the round. *)
Lemma StackCard_keeps_status g p i :
  Status (StackCard g p i).2 = Status g.
Proof. unfold StackCard. repeat case_match; simpl; auto. Qed.

(** A successful stack removes position [i] from the hand slice. *)
Lemma StackCard_success_deletes g p i msg g' :
  StackCard g p i = ((true, msg), g') →
  handOf g' p = delete (Z.to_nat i) (handOf g p)
  ∧ (Z.to_nat i < length (handOf g p))%nat.
Proof.
  unfold StackCard, handOf.
  destruct (discardTop (DiscardPile g)) as [top|]; [|done].
  destruct (StackableCardIndex g =? -1); [done|].
  destruct (negb _); [done|].
  destruct (Players g !! p) as [pl|] eqn:Hpl; [|done].
  destruct ((i <? 0) || (i >=? len (Cards pl))) eqn:Hrange; [done|].
  apply orb_false_iff in Hrange as [Hlo Hhi].
  destruct (String.eqb _ ""); [done|].
  destruct (String.eqb (Rank top) ""); [done|].
  destruct (negb _); [done|].
  intros [= _ <-]. simpl. split.
  - assert (∀ g0, Players g0 = <[p:=setCards pl (delete (Z.to_nat i) (Cards pl))]> (Players g)
              → Cards <$> (Players g0 !! p) = Some (delete (Z.to_nat i) (Cards pl))) as Hlk.
    { intros g0 ->. by rewrite lookup_insert_eq. }
    destruct (isSpecialRank (Rank top)); [destruct (existsb _ _)|];
      by rewrite Hlk.
  - unfold len in Hhi. lia.
Qed.
End Stacking.

(** C4 (the code departs from it). No call of [StackCard] changes the
    status of the match. In particular, when [p1], holding a single 3,
    stacks it on the 3 just discarded by [p2], the stack succeeds, [p1]
    holds no card, and the status is still "playing": the round does not
    end. *)
Theorem C4_zero_cards_round_goes_on :
  (∀ g p i, Status (StackCard g p i).2 = Status g)
  ∧ started pairsStart
  ∧ handOf oneCardLeft "p1" = [mkCard "diamonds" "3" false]
  ∧ (StackCard oneCardLeft "p1" 0).1 = (true, "")
  ∧ countNonEmpty (handOf (StackCard oneCardLeft "p1" 0).2 "p1") = 0%nat
  ∧ Status (StackCard oneCardLeft "p1" 0).2 = "playing".
Proof.
  split; [apply StackCard_keeps_status|].
  split; [|by vm_compute].
  exists "g", pairsDeck, twoJoins, ["p1"; "p2"], ["p1"; "p2"].
  split; [apply (bool_decide_unpack _); vm_compute; exact I|].
  split; [vm_compute; lia|].
  split; [by vm_compute|]. split; [by vm_compute|]. done.
Qed.

(** C5 (as amended). A stack attempt rejected for rank mismatch returns
    false with the penalty message and leaves the discard pile, the
    stackable index and every other player's hand as they were. While the
    deck is not empty, its top card is taken off the deck and appended,
    face down, to the acting player's hand, which thereby holds exactly
    one card more; with an empty deck there is no penalty card and the
    match is left exactly as it was. *)
Theorem C5_failed_stack_penalty (g : Game) (p : string) (i : Z)
    (card top : Card) :
  discardTop (DiscardPile g) = Some top →
  StackableCardIndex g = len (DiscardPile g) - 1 →
  0 ≤ i → handOf g p !! Z.to_nat i = Some card →
  Rank card ≠ "" → Rank top ≠ "" → Rank card ≠ Rank top →
  Forall realCard (Deck g) →
  (StackCard g p i).1 = (false, "Card rank does not match. Penalty card added.")
  ∧ DiscardPile (StackCard g p i).2 = DiscardPile g
  ∧ StackableCardIndex (StackCard g p i).2 = StackableCardIndex g
  ∧ (∀ q, q ≠ p → handOf (StackCard g p i).2 q = handOf g q)
  ∧ match Deck g with
    | pen :: rest =>
        handOf (StackCard g p i).2 p
        = handOf g p ++ [mkCard (Suit pen) (Rank pen) false]
        ∧ countNonEmpty (handOf (StackCard g p i).2 p)
          = S (countNonEmpty (handOf g p))
        ∧ Deck (StackCard g p i).2 = rest
    | [] => (StackCard g p i).2 = g
    end.
Proof.
  intros Htop Hstk Hi Hcard Hr1 Hr2 Hne Hreal.
  pose proof (discardTop_Some_len _ _ Htop) as Hlen.
  unfold StackCard, handOf in *. rewrite Htop.
  destruct (Players g !! p) as [pl|] eqn:Hpl; [|done]. simpl in Hcard.
  assert ((StackableCardIndex g =? -1) = false) as -> by lia.
  assert (negb (StackableCardIndex g =? len (DiscardPile g) - 1) = false) as ->.
  { apply negb_false_iff. lia. }
  pose proof (lookup_lt_Some _ _ _ Hcard) as Hlt.
  assert ((i <? 0) || (i >=? len (Cards pl)) = false) as ->.
  { apply orb_false_iff. unfold len. lia. }
  rewrite Hcard. simpl.
  apply String.eqb_neq in Hr1, Hr2, Hne. rewrite Hr1, Hr2, Hne. simpl.
  destruct (Deck g) as [|pen rest]; [done|].
  apply Forall_cons in Hreal as [Hpen _].
  simpl. rewrite lookup_insert_eq. simpl.
  split; [done|]. split; [done|]. split; [done|].
  split; [intros q Hq; by rewrite lookup_insert_ne|].
  split; [done|]. split; [|done].
  rewrite countNonEmpty_app. rewrite (countNonEmpty_real [_]) by (by constructor).
  simpl. lia.
Qed.

Lemma C5_failed_stack_penalty_witness :
  ((StackCard sevenOnTop "p2" 0).1.1 = false
   ∧ handOf (StackCard sevenOnTop "p2" 0).2 "p2"
     = handOf sevenOnTop "p2" ++ [mkCard "hearts" "9" false]
   ∧ countNonEmpty (handOf (StackCard sevenOnTop "p2" 0).2 "p2")
     = S (countNonEmpty (handOf sevenOnTop "p2")))
  ∧ (StackCard drainedDemo "p1" 0).1.1 = false
  ∧ (StackCard drainedDemo "p1" 0).2 = drainedDemo.
Proof.
  split.
  - assert (discardTop (DiscardPile sevenOnTop) = Some (mkCard "hearts" "7" true))
      as Htop by (vm_compute; reflexivity).
    assert (StackableCardIndex sevenOnTop = len (DiscardPile sevenOnTop) - 1)
      as Hstk by (vm_compute; reflexivity).
    assert (handOf sevenOnTop "p2" !! Z.to_nat 0 = Some (mkCard "hearts" "4" false))
      as Hcard by (vm_compute; reflexivity).
    assert (Forall realCard (Deck sevenOnTop)) as Hreal.
    { unfold realCard. apply (bool_decide_unpack _). vm_compute. exact I. }
    assert (∃ rest, Deck sevenOnTop = mkCard "hearts" "9" false :: rest)
      as [rest Hdeck] by (eexists; vm_compute; reflexivity).
    destruct (C5_failed_stack_penalty sevenOnTop "p2" 0
                (mkCard "hearts" "4" false) (mkCard "hearts" "7" true)
                Htop Hstk ltac:(lia) Hcard ltac:(discriminate)
                ltac:(discriminate) ltac:(discriminate) Hreal)
      as (H1 & _ & _ & _ & H5).
    rewrite Hdeck in H5. destruct H5 as (H5 & H6 & _).
    split; [by rewrite H1|]. split; [exact H5 | exact H6].
  - assert (discardTop (DiscardPile drainedDemo) = Some (mkCard "spades" "K" true))
      as Htop by (vm_compute; reflexivity).
    assert (StackableCardIndex drainedDemo = len (DiscardPile drainedDemo) - 1)
      as Hstk by (vm_compute; reflexivity).
    assert (handOf drainedDemo "p1" !! Z.to_nat 0 = Some (mkCard "hearts" "A" false))
      as Hcard by (vm_compute; reflexivity).
    assert (Deck drainedDemo = []) as Hdeck by (vm_compute; reflexivity).
    assert (Forall realCard (Deck drainedDemo)) as Hreal
      by (rewrite Hdeck; constructor).
    destruct (C5_failed_stack_penalty drainedDemo "p1" 0
                (mkCard "hearts" "A" false) (mkCard "spades" "K" true)
                Htop Hstk ltac:(lia) Hcard ltac:(discriminate)
                ltac:(discriminate) ltac:(discriminate) Hreal)
      as (H1 & _ & _ & _ & H5).
    rewrite Hdeck in H5.
    split; [by rewrite H1 | exact H5].
Defined.

(** C5 (as stated) fails: once the deck of [demoStart] is drawn empty, a
    mismatching stack is rejected without any penalty card. *)
Lemma C5_failed_stack_counterexample :
  started demoStart
  ∧ Deck drainedDemo = []
  ∧ discardTop (DiscardPile drainedDemo) = Some (mkCard "spades" "K" true)
  ∧ StackableCardIndex drainedDemo = len (DiscardPile drainedDemo) - 1
  ∧ handOf drainedDemo "p1" !! 0%nat = Some (mkCard "hearts" "A" false)
  ∧ StackCard drainedDemo "p1" 0
    = ((false, "Card rank does not match. Penalty card added."), drainedDemo)
  ∧ countNonEmpty (handOf (StackCard drainedDemo "p1" 0).2 "p1")
    = countNonEmpty (handOf drainedDemo "p1").
Proof. split; [apply demoStart_started|]. by vm_compute. Qed.

(** C7 (the code departs from it). [p1] stacks the 7 of slot 0: the hand
    slice loses that position (four slots become three, the ace moves into
    slot 0), and the self-peek at grid position 3 that the 7 entitles [p1]
    to then indexes past the end of the slice. *)
Theorem C7_stack_deletes_the_slot :
  started sevensStart
  ∧ length (handOf sevenOnTop "p1") = 4%nat
  ∧ (StackCard sevenOnTop "p1" 0).1 = (true, "")
  ∧ handOf (StackCard sevenOnTop "p1" 0).2 "p1"
    = [mkCard "hearts" "A" false; mkCard "hearts" "2" false;
       mkCard "hearts" "3" false]
  ∧ UseSpecialCardFromDiscard (StackCard sevenOnTop "p1" 0).2 "p1" "7"
      {[ "targetIndex" := JNumber 3 ]} = None.
Proof. split; [apply sevensStart_started|]. by vm_compute. Qed.

(* ===================================================================== *)
(** ** Turn rotation: the search loop *)
(* ===================================================================== *)

Section Rotation.

Lemma indexOf_Some id l :
  id ∈ l → ∃ i, indexOf id l = Some i ∧ l !! i = Some id.
Proof.
  induction l as [|x l IH]; intros Hin; [by apply elem_of_nil in Hin|].
  simpl. destruct (String.eqb x id) eqn:Hx.
  - apply String.eqb_eq in Hx as ->. by exists 0%nat.
  - apply String.eqb_neq in Hx. apply elem_of_cons in Hin as [->|Hin]; [done|].
    destruct (IH Hin) as (i & -> & Hi). by exists (S i).
Qed.

End Rotation.

(* ===================================================================== *)
(** ** Special cards and the queue of deferred rights *)
(* ===================================================================== *)

Section SpecialQueue.

Lemma writeCard_is_Some (m : gmap string Player) id idx c q :
  is_Some (writeCard id idx c m !! q) ↔ is_Some (m !! q).
Proof.
  unfold writeCard. rewrite lookup_alter. case_decide; [subst|done].
  by rewrite fmap_is_Some.
Qed.

(** The effect of a special card leaves the turn, the pile, the queue
    and the set of seated players alone. *)
Lemma specialEffect_frame g p r params g1 evs :
  specialEffect g p r params = Some (g1, evs) →
  CurrentPlayer g1 = CurrentPlayer g
  ∧ DiscardPile g1 = DiscardPile g
  ∧ StackedSpecialCardPlayers g1 = StackedSpecialCardPlayers g
  ∧ ∀ q, is_Some (Players g1 !! q) ↔ is_Some (Players g !! q).
Proof.
  unfold specialEffect. repeat case_match; intros; simplify_eq; try done.
  simpl. repeat split; try done; intros Hq.
  - by apply writeCard_is_Some, writeCard_is_Some in Hq.
  - by apply writeCard_is_Some, writeCard_is_Some.
Qed.

(** For a 7 or an 8 the switch changes no state at all. *)
Lemma specialEffect_peek_state g p r params g1 evs :
  r = "7" ∨ r = "8" →
  specialEffect g p r params = Some (g1, evs) → g1 = g.
Proof.
  unfold specialEffect.
  intros [-> | ->]; simpl; repeat case_match; intros; by simplify_eq.
Qed.

Lemma specialEffect_malformed g p r params :
  r = "7" ∨ r = "8" → malformedTarget r params = true →
  specialEffect g p r params = Some (g, []).
Proof.
  unfold specialEffect, malformedTarget, targetIndexBad, targetPlayerBad.
  intros [-> | ->]; simpl; intros Hbad.
  - rewrite orb_false_r in Hbad.
    destruct (params !! "targetIndex") as [[idx| |]|]; try done.
    assert ((idx >=? 0) && (idx <? 4) = false) as -> by lia. done.
  - destruct (params !! "targetPlayerID") as [[|t|]|]; try done.
    destruct (params !! "targetIndex") as [[idx| |]|]; try done.
    rewrite orb_false_r in Hbad.
    assert ((idx >=? 0) && (idx <? 4) = false) as -> by lia.
    by destruct (Players g !! t).
Qed.
End SpecialQueue.

(* ===================================================================== *)
(** ** C9: the per-viewer projection *)
(* ===================================================================== *)

Section Projection.

Lemma reveal_not_ended c : reveal false c = c.
Proof. destruct c as [s r f]. unfold reveal. simpl. by rewrite orb_false_r. Qed.

Lemma reveal_ended c : reveal true c = setFaceUp c true.
Proof. unfold reveal, setFaceUp. by rewrite orb_true_r. Qed.

(** The inner loop of the projection, hand by hand. *)
Lemma projectCards_seen g viewerID id cs :
  String.eqb id viewerID || String.eqb (Status g) "ended" = true →
  flat_map (projectCard g viewerID id) cs
  = map (reveal (String.eqb (Status g) "ended")) (List.filter shownSlot cs).
Proof.
  intros Hsee. induction cs as [|c cs IH]; [done|]. simpl.
  rewrite IH. unfold projectCard at 1. fold (shownSlot c).
  destruct (shownSlot c); [|done].
  assert (String.eqb id viewerID || FaceUp c || String.eqb (Status g) "ended"
          = true) as ->; [|done].
  destruct (String.eqb id viewerID), (String.eqb (Status g) "ended"),
    (FaceUp c); done.
Qed.

Lemma projectCards_other g viewerID id cs :
  String.eqb id viewerID = false → String.eqb (Status g) "ended" = false →
  flat_map (projectCard g viewerID id) cs
  = map conceal (List.filter shownSlot cs).
Proof.
  intros Hid Hst. induction cs as [|c cs IH]; [done|]. simpl.
  rewrite IH. unfold projectCard at 1. fold (shownSlot c).
  rewrite Hid, Hst. destruct (shownSlot c); [|done]. simpl.
  unfold conceal. rewrite orb_false_r.
  destruct c as [s r []]; done.
Qed.

Lemma shownSlot_maskCard c : shownSlot (maskCard c) = shownSlot c.
Proof.
  unfold maskCard. destruct (shownSlot c) eqn:Hshown; simpl; [|done].
  by destruct (FaceUp c).
Qed.

Lemma conceal_maskCard_one c : conceal (maskCard c) = conceal c.
Proof.
  unfold maskCard, conceal.
  destruct (shownSlot c), (FaceUp c) eqn:Hup; simpl; by rewrite ?Hup.
Qed.

Lemma conceal_maskCard cs :
  map conceal (List.filter shownSlot (map maskCard cs))
  = map conceal (List.filter shownSlot cs).
Proof.
  induction cs as [|c cs IH]; [done|]. simpl.
  rewrite shownSlot_maskCard. destruct (shownSlot c); [|done]. simpl.
  by rewrite conceal_maskCard_one, IH.
Qed.

Lemma viewedHand_lookup g viewerID id :
  viewedHand g viewerID id
  = (fun p => flat_map (projectCard g viewerID id) (Cards p))
      <$> (Players g !! id).
Proof.
  unfold viewedHand, getGameStateForPlayer. simpl.
  rewrite map_lookup_imap. by destruct (Players g !! id).
Qed.

(** Masking what [viewerID] may not learn does not change the view. *)
Lemma view_hideOthers g viewerID :
  String.eqb (Status g) "ended" = false →
  getGameStateForPlayer (hideOthers viewerID g) viewerID
  = getGameStateForPlayer g viewerID.
Proof.
  intros Hst. unfold getGameStateForPlayer, hideOthers. simpl. f_equal.
  apply map_eq. intros id. rewrite !map_lookup_imap.
  destruct (Players g !! id) as [pl|]; [|done]. simpl.
  destruct (String.eqb id viewerID) eqn:Hid; [done|].
  unfold projectPlayer. simpl. f_equal. f_equal.
  rewrite !(projectCards_other (setPlayers g _)) by done.
  rewrite (projectCards_other g) by done.
  apply conceal_maskCard.
Qed.
End Projection.

(** C9. While the match is not ended, two states that differ only in the
    rank and suit of face-down cards held by players other than the viewer
    have the same projection for that viewer: each such card is shown as
    the empty marker, so none of its rank and suit is in the projection.
    The viewer's own cards are in it verbatim, and once the match has
    ended every player's cards are, all face up. (Slots with neither rank
    nor suit are left out of every projected hand.) *)
Theorem C9_projection_hides_others (g : Game) (viewerID : string) :
  (∀ g2, String.eqb (Status g) "ended" = false →
         hideOthers viewerID g = hideOthers viewerID g2 →
         getGameStateForPlayer g viewerID = getGameStateForPlayer g2 viewerID)
  ∧ (∀ id, String.eqb (Status g) "ended" = false → id ≠ viewerID →
           viewedHand g viewerID id
           = (fun p => map conceal (List.filter shownSlot (Cards p)))
               <$> (Players g !! id))
  ∧ (String.eqb (Status g) "ended" = false →
     viewedHand g viewerID viewerID
     = (fun p => List.filter shownSlot (Cards p)) <$> (Players g !! viewerID))
  ∧ (∀ id, String.eqb (Status g) "ended" = true →
           viewedHand g viewerID id
           = (fun p => map (fun c => setFaceUp c true)
                         (List.filter shownSlot (Cards p)))
               <$> (Players g !! id)).
Proof.
  repeat split.
  - intros g2 Hst Heq.
    assert (Status g2 = Status g) as Hst2.
    { change (Status (hideOthers viewerID g2) = Status (hideOthers viewerID g)).
      by rewrite Heq. }
    rewrite <- (view_hideOthers g viewerID) by done.
    rewrite <- (view_hideOthers g2 viewerID) by (by rewrite Hst2).
    by rewrite Heq.
  - intros id Hst Hid. rewrite viewedHand_lookup.
    destruct (Players g !! id) as [pl|]; [|done]. simpl. f_equal.
    apply projectCards_other; [|done]. by apply String.eqb_neq.
  - intros Hst. rewrite viewedHand_lookup.
    destruct (Players g !! viewerID) as [pl|]; [|done]. simpl. f_equal.
    rewrite projectCards_seen by (by rewrite String.eqb_refl).
    rewrite Hst. rewrite <- (map_id (List.filter shownSlot (Cards pl))) at 2.
    apply map_ext. intros c. apply reveal_not_ended.
  - intros id Hst. rewrite viewedHand_lookup.
    destruct (Players g !! id) as [pl|]; [|done]. simpl. f_equal.
    rewrite projectCards_seen by (rewrite Hst; apply orb_true_r).
    rewrite Hst. apply map_ext. intros c. apply reveal_ended.
Qed.

Lemma C9_projection_hides_others_witness :
  handOf demoStart "p2" ≠ handOf demoStartOtherCard "p2"
  ∧ getGameStateForPlayer demoStart "p1"
    = getGameStateForPlayer demoStartOtherCard "p1"
  ∧ viewedHand demoStart "p1" "p2" = Some (replicate 4 zeroCard).
Proof.
  destruct (C9_projection_hides_others demoStart "p1") as (H1 & H2 & _).
  split; [vm_compute; discriminate|].
  split.
  - apply H1; vm_compute; reflexivity.
  - rewrite H2; [vm_compute; reflexivity | vm_compute; reflexivity | discriminate].
Defined.

(* ===================================================================== *)
(** ** C3: the give-back obligation *)
(* ===================================================================== *)

Section GiveBackFacts.
Import GiveBack.

Lemma lookup_writeCard_ne (m : gmap string Player) id idx c j :
  id ≠ j → writeCard id idx c m !! j = m !! j.
Proof. intros Hne. unfold writeCard. by rewrite lookup_alter_ne. Qed.

Lemma stackOpponent_sets_obligation m actor target slot m' :
  stackOpponent m actor target slot = (true, m') → target ≠ actor →
  pendingGive m' = Some (mkPendingGive actor target slot).
Proof.
  unfold stackOpponent. intros Hstack Hne.
  apply String.eqb_neq in Hne.
  repeat case_match; simplify_eq; simpl; by rewrite ?Hne.
Qed.

Lemma obliged_only_gives perform m actor a :
  obliged m actor = true → isGiveCard a = false →
  handle perform m actor a = (false, m).
Proof.
  intros Hob Hgive. destruct a; simpl in *; try done; by rewrite Hob.
Qed.
Lemma countNonEmpty_insert (l : list Card) (i : nat) (old c : Card) :
  l !! i = Some old →
  (countNonEmpty (<[i := c]> l) + (if hasRank old then 1 else 0)
   = countNonEmpty l + (if hasRank c then 1 else 0))%nat.
Proof.
  unfold countNonEmpty. revert i.
  induction l as [|x l IH]; intros [|i] Hi; simplify_eq/=.
  - rewrite !filter_cons. destruct (hasRank old), (hasRank c); simpl;
      repeat case_decide; simpl; try done; lia.
  - specialize (IH i Hi). rewrite !filter_cons.
    case_decide; simpl; lia.
Qed.

Lemma handOf_writeCard g (m : gmap string Player) id n c q :
  Players g = writeCard id n c m →
  handOf g q
  = if decide (q = id) then <[n := c]> (default [] (Cards <$> (m !! q)))
    else default [] (Cards <$> (m !! q)).
Proof.
  intros Hg. unfold handOf. rewrite Hg. unfold writeCard.
  rewrite lookup_alter.
  case_decide as Hid; subst.
  - rewrite decide_True by done. by destruct (m !! q).
  - by rewrite decide_False by done.
Qed.

Lemma handOf_EndRound g q :
  handOf (EndRound g) q = map (fun c => setFaceUp c true) (handOf g q).
Proof.
  unfold handOf, EndRound. simpl. rewrite lookup_fmap.
  by destruct (Players g !! q).
Qed.

(** A successful stack from the slot of a seated target leaves the empty
    marker in that slot and the hand at its length. *)
Lemma stackOpponent_vacates m actor target slot m' :
  stackOpponent m actor target slot = (true, m') →
  0 ≤ slot
  ∧ (Z.to_nat slot < length (handOf (game m) target))%nat
  ∧ length (handOf (game m') target) = length (handOf (game m) target)
  ∧ (∃ hole, handOf (game m') target !! Z.to_nat slot = Some hole
             ∧ Rank hole = "" ∧ Suit hole = "")
  ∧ is_Some (Players (game m') !! actor)
  ∧ is_Some (Players (game m') !! target).
Proof.
  unfold stackOpponent. intros Hstack.
  destruct (discardTop (DiscardPile (game m))) as [top|]; [|done].
  destruct (Players (game m) !! actor) as [a|] eqn:Ha; [|done].
  destruct (Players (game m) !! target) as [t|] eqn:Ht; [|done].
  destruct (negb _); [done|].
  destruct ((slot <? 0) || (slot >=? len (Cards t))) eqn:Hr; [done|].
  apply orb_false_iff in Hr as [Hlo Hhi]. unfold len in Hhi.
  destruct (negb (hasRank _)); [done|].
  destruct (negb (String.eqb _ _)); [by destruct (Deck (game m))|].
  injection Hstack as <-.
  set (g4 := setStackableCardIndex _ (-1)).
  assert (Players g4 = writeCard target (Z.to_nat slot) zeroCard
                         (Players (game m))) as HP.
  { subst g4. simpl. by destruct (_ && _). }
  assert (handOf g4 target = <[Z.to_nat slot := zeroCard]> (Cards t)) as Hh.
  { rewrite (handOf_writeCard g4 _ _ _ _ target HP), decide_True by done.
    by rewrite Ht. }
  assert (∀ q, is_Some (Players g4 !! q) ↔ is_Some (Players (game m) !! q))
    as Hseat.
  { intros q. rewrite HP. apply writeCard_is_Some. }
  assert (handOf (game m) target = Cards t) as Hold.
  { unfold handOf. by rewrite Ht. }
  rewrite Hold.
  split; [lia|]. split; [lia|].
  destruct (someoneOut g4); simpl.
  - rewrite handOf_EndRound, Hh. rewrite length_map, length_insert.
    split; [done|]. split.
    + exists (setFaceUp zeroCard true). split; [|done].
      rewrite list_lookup_fmap, list_lookup_insert_eq by lia. done.
    + rewrite !lookup_fmap, !fmap_is_Some. split; apply Hseat; by eexists.
  - rewrite Hh, length_insert. split; [done|]. split.
    + exists zeroCard. split; [|done]. apply list_lookup_insert_eq. lia.
    + split; apply Hseat; by eexists.
Qed.

(** Giving a card: the card leaves slot [s] of the actor and lands, face
    down, in the slot the pending give names, provided that slot exists. *)
Lemma giveCard_moves m pg actor s card hole :
  pendingGive m = Some pg → ActorID pg = actor →
  TargetPlayerID pg ≠ actor →
  0 ≤ s → handOf (game m) actor !! Z.to_nat s = Some card →
  hasRank card = true →
  handOf (game m) (TargetPlayerID pg) !! Z.to_nat (TargetIndex pg) = Some hole →
  ∃ m', giveCard m actor s = (true, m')
    ∧ pendingGive m' = None
    ∧ handOf (game m') actor = <[Z.to_nat s := zeroCard]> (handOf (game m) actor)
    ∧ handOf (game m') (TargetPlayerID pg)
      = <[Z.to_nat (TargetIndex pg) := mkCard (Suit card) (Rank card) false]>
          (handOf (game m) (TargetPlayerID pg))
    ∧ (∀ q, q ≠ actor → q ≠ TargetPlayerID pg →
            handOf (game m') q = handOf (game m) q)
    ∧ Deck (game m') = Deck (game m)
    ∧ DiscardPile (game m') = DiscardPile (game m).
Proof.
  intros Hpg Hactor Htarget Hs Hcard Hrank Hhole.
  unfold giveCard. rewrite Hpg, Hactor, String.eqb_refl. simpl.
  unfold handOf in Hcard, Hhole.
  destruct (Players (game m) !! actor) as [a|] eqn:Ha; [|done].
  destruct (Players (game m) !! TargetPlayerID pg) as [t|] eqn:Ht; [|done].
  simpl in Hcard, Hhole.
  pose proof (lookup_lt_Some _ _ _ Hcard) as Hlt.
  assert ((s <? 0) || (s >=? len (Cards a)) = false) as ->.
  { apply orb_false_iff. unfold len. lia. }
  rewrite Hcard. simpl. rewrite Hrank. simpl.
  eexists. split; [done|]. simpl. split; [done|].
  set (g1 := setPlayers (game m)
               (writeCard actor (Z.to_nat s) zeroCard (Players (game m)))).
  set (g2 := setPlayers (game m) _).
  assert (∀ q, handOf g1 q
               = if decide (q = actor)
                 then <[Z.to_nat s := zeroCard]> (handOf (game m) q)
                 else handOf (game m) q) as H1.
  { intros q. by rewrite (handOf_writeCard g1 (Players (game m)) _ _ _ q eq_refl). }
  assert (∀ q, handOf g2 q
               = if decide (q = TargetPlayerID pg)
                 then <[Z.to_nat (TargetIndex pg) := setFaceUp card false]>
                        (handOf g1 q)
                 else handOf g1 q) as H2.
  { intros q. by rewrite (handOf_writeCard g2 (Players g1) _ _ _ q eq_refl). }
  split; [|split; [|split]].
  - rewrite H2, decide_False by done. by rewrite H1, decide_True.
  - rewrite H2, decide_True by done. by rewrite H1, decide_False.
  - intros q Hq1 Hq2. rewrite H2, decide_False by done.
    by rewrite H1, decide_False.
  - done.
Qed.
End GiveBackFacts.



(* ===================================================================== *)
(** ** Further properties: deck, card values, scoring *)
(* ===================================================================== *)

Section DeckAndScores.

Lemma getCardValue_bounds card : -1 ≤ getCardValue card ≤ 10.
Proof. unfold getCardValue. repeat case_match; lia. Qed.

Lemma handScore_from (cs : list Card) (z : Z) :
  foldl (fun score card =>
           if hasRank card then score + getCardValue card else score) z cs
  = z + handScore cs.
Proof.
  unfold handScore. revert z. induction cs as [|c cs IH]; intros z; simpl.
  - lia.
  - rewrite IH. rewrite (IH (if hasRank c then 0 + getCardValue c else 0)).
    destruct (hasRank c); lia.
Qed.

Lemma handScore_cons c cs :
  handScore (c :: cs)
  = (if hasRank c then getCardValue c else 0) + handScore cs.
Proof.
  unfold handScore at 1. simpl. rewrite handScore_from.
  destruct (hasRank c); lia.
Qed.

Lemma handScore_app cs ds : handScore (cs ++ ds) = handScore cs + handScore ds.
Proof.
  induction cs as [|c cs IH]; simpl; [done|].
  rewrite !handScore_cons, IH. lia.
Qed.

Lemma handScore_setFaceUp cs b :
  handScore (map (fun c => setFaceUp c b) cs) = handScore cs.
Proof.
  induction cs as [|c cs IH]; [done|]. simpl.
  rewrite !handScore_cons, IH. done.
Qed.
End DeckAndScores.

(** X1. [createDeck] builds exactly the 52 cards of the four suits and
    thirteen ranks, each once, all face down. *)
Theorem X1_createDeck_census :
  length createDeck = 52%nat
  ∧ NoDup createDeck
  ∧ ∀ c, c ∈ createDeck
         ↔ Suit c ∈ suits ∧ Rank c ∈ ranks ∧ FaceUp c = false.
Proof.
  split; [done|]. split.
  - apply (bool_decide_unpack _). vm_compute. exact I.
  - intros c. split.
    + intros Hc.
      assert (Forall (fun c => Suit c ∈ suits ∧ Rank c ∈ ranks ∧ FaceUp c = false)
                createDeck) as Hall.
      { apply (bool_decide_unpack _). vm_compute. exact I. }
      by apply (proj1 (Forall_forall _ _) Hall).
    + destruct c as [s r f]. simpl. intros (Hs & Hr & ->).
      unfold suits in Hs. unfold ranks in Hr.
      repeat (apply elem_of_cons in Hs as [->|Hs]);
        try (by apply elem_of_nil in Hs);
        repeat (apply elem_of_cons in Hr as [->|Hr]);
        try (by apply elem_of_nil in Hr);
        apply (bool_decide_unpack _); vm_compute; exact I.
Qed.

(** X2. A card is worth between -1 and 10, whatever its rank and suit
    strings; a hand therefore scores between minus its length and ten
    times its length. *)
Theorem X2_score_bounds (cs : list Card) :
  (∀ card, -1 ≤ getCardValue card ≤ 10)
  ∧ - len cs ≤ handScore cs ≤ 10 * len cs.
Proof.
  split; [apply getCardValue_bounds|].
  unfold len. induction cs as [|c cs IH]; [done|].
  rewrite handScore_cons. simpl length.
  pose proof (getCardValue_bounds c). destruct (hasRank c); lia.
Qed.

(** X3. The score of a hand does not depend on the order of its slots
    nor on which cards are face up, and empty slots count for nothing. *)
Theorem X3_score_order_free (cs ds : list Card) (b : bool) :
  (cs ≡ₚ ds → handScore cs = handScore ds)
  ∧ handScore (map (fun c => setFaceUp c b) cs) = handScore cs
  ∧ handScore (List.filter hasRank cs) = handScore cs.
Proof.
  split; [|split].
  - induction 1 as [|c l l' _ IH|c d l|l l' l'' _ IH1 _ IH2].
    + done.
    + by rewrite !handScore_cons, IH.
    + rewrite !handScore_cons. lia.
    + congruence.
  - apply handScore_setFaceUp.
  - induction cs as [|c cs IH]; [done|]. simpl.
    destruct (hasRank c) eqn:Hc; rewrite ?handScore_cons, ?Hc, IH; lia.
Qed.

Lemma X3_score_order_free_witness :
  handScore [mkCard "hearts" "K" false; mkCard "clubs" "7" false]
  = handScore [mkCard "clubs" "7" false; mkCard "hearts" "K" false].
Proof.
  destruct (X3_score_order_free
              [mkCard "hearts" "K" false; mkCard "clubs" "7" false]
              [mkCard "clubs" "7" false; mkCard "hearts" "K" false] true)
    as [H _].
  apply H. apply perm_swap.
Defined.

(** X4. [getNumericRank] is -1 exactly off the ranks A, 2, ..., 10, lies
    in 1..10 on them, and there agrees with the scoring value of the card,
    whatever the suit. *)
Theorem X4_getNumericRank_agrees (rank suit : string) (faceUp : bool) :
  (getNumericRank rank = -1 ∨ 1 ≤ getNumericRank rank ≤ 10)
  ∧ (getNumericRank rank ≠ -1
     ↔ rank ∈ ["A"; "2"; "3"; "4"; "5"; "6"; "7"; "8"; "9"; "10"])
  ∧ (getNumericRank rank ≠ -1 →
     getCardValue (mkCard suit rank faceUp) = getNumericRank rank).
Proof.
  assert (getNumericRank rank ≠ -1
          ↔ rank ∈ ["A"; "2"; "3"; "4"; "5"; "6"; "7"; "8"; "9"; "10"]) as Hiff.
  { split.
    - unfold getNumericRank. intros Hne.
      repeat case_match; try done;
        match goal with
        | H : String.eqb rank _ = true |- _ =>
            apply String.eqb_eq in H; subst; set_solver
        end.
    - intros Hin.
      repeat (apply elem_of_cons in Hin as [->|Hin]; [done|]).
      by apply elem_of_nil in Hin. }
  split; [|split; [exact Hiff|]].
  - unfold getNumericRank. repeat case_match; lia.
  - intros Hin%Hiff.
    repeat (apply elem_of_cons in Hin as [->|Hin]; [done|]).
    by apply elem_of_nil in Hin.
Qed.

Lemma X4_getNumericRank_agrees_witness :
  getCardValue (mkCard "spades" "10" false) = getNumericRank "10".
Proof.
  destruct (X4_getNumericRank_agrees "10" "spades" false) as (_ & _ & H).
  apply H. vm_compute. discriminate.
Defined.

(* ===================================================================== *)
(** ** Further properties: joining and starting *)
(* ===================================================================== *)

Section JoinAndStart.

Lemma dealTo_other g a id :
  id ≠ a → Players (dealTo g a) !! id = Players g !! id.
Proof.
  intros Hne. unfold dealTo. destruct (Players g !! a); [|done].
  destruct (dealSlots 4 (Deck g)) as [cs d]. simpl.
  by rewrite lookup_insert_ne.
Qed.

Lemma dealTo_fold_other ord : ∀ g id,
  id ∉ ord → Players (foldl dealTo g ord) !! id = Players g !! id.
Proof.
  induction ord as [|a ord IH]; intros g id Hid; [done|].
  apply not_elem_of_cons in Hid as [Hne Hid]. simpl.
  rewrite IH by done. by apply dealTo_other.
Qed.

Lemma dealTo_seated g a p :
  Players g !! a = Some p → (4 ≤ length (Deck g))%nat →
  dealTo g a
  = setDeck (setPlayers g (<[a := setCards p (take 4 (Deck g))]> (Players g)))
      (drop 4 (Deck g)).
Proof.
  intros Hp Hlen. unfold dealTo. by rewrite Hp, dealSlots_enough.
Qed.

(** The dealing loop hands the [k]-th player it visits the [k]-th block
    of four cards from the front of the deck. *)
Lemma dealTo_fold_blocks ord : ∀ g,
  NoDup ord →
  (∀ id, id ∈ ord → is_Some (Players g !! id)) →
  (4 * length ord ≤ length (Deck g))%nat →
  Deck (foldl dealTo g ord) = drop (4 * length ord) (Deck g)
  ∧ DiscardPile (foldl dealTo g ord) = DiscardPile g
  ∧ DrawnCards (foldl dealTo g ord) = DrawnCards g
  ∧ Status (foldl dealTo g ord) = Status g
  ∧ (∀ id, is_Some (Players (foldl dealTo g ord) !! id)
           ↔ is_Some (Players g !! id))
  ∧ ∀ k id, ord !! k = Some id →
            handOf (foldl dealTo g ord) id = take 4 (drop (4 * k) (Deck g)).
Proof.
  induction ord as [|a ord IH]; intros g Hnd Hin Hlen.
  { simpl. rewrite drop_0. repeat split; try done. }
  apply NoDup_cons in Hnd as [Ha Hnd]. simpl in Hlen.
  destruct (Hin a) as [pa Hpa]; [left|]. simpl.
  rewrite (dealTo_seated g a pa) by (done || lia).
  set (g1 := setDeck _ _).
  destruct (IH g1) as (H1 & H2 & H3 & H4 & H5 & H6).
  - done.
  - intros id Hid. subst g1. simpl. rewrite lookup_insert.
    case_decide; [by eexists|]. apply Hin. by right.
  - subst g1. simpl. rewrite length_drop. lia.
  - rewrite H1, H2, H3, H4. subst g1. simpl. rewrite drop_drop.
    split; [f_equal; lia|]. repeat split; try done.
    + intros Hs. apply H5 in Hs. simpl in Hs. rewrite lookup_insert in Hs.
      case_decide; [subst; by eexists|done].
    + intros Hs. apply H5. simpl. rewrite lookup_insert.
      case_decide; [by eexists|done].
    + intros [|k] id Hk; simpl in Hk.
      * injection Hk as <-. unfold handOf.
        rewrite dealTo_fold_other by done. simpl.
        rewrite lookup_insert_eq. simpl. by rewrite drop_0.
      * rewrite (H6 k id Hk). simpl. rewrite drop_drop. do 2 f_equal. lia.
Qed.
End JoinAndStart.

(** X5. [AddPlayer] accepts a join exactly while fewer than six players
    are seated and otherwise changes nothing; it never looks at the status
    and never touches deck or discard pile; so a match never seats more
    than six players. *)
Theorem X5_AddPlayer_capacity (g : Game) (id name : string) (conn : bool)
    (gid : string) (shuffled : list Card) (joins : list (string * string * bool)) :
  ((AddPlayer g id name conn).1 = true ↔ (size (Players g) < 6)%nat)
  ∧ ((AddPlayer g id name conn).1 = false → (AddPlayer g id name conn).2 = g)
  ∧ Status (AddPlayer g id name conn).2 = Status g
  ∧ Deck (AddPlayer g id name conn).2 = Deck g
  ∧ (size (Players (joinAll (NewGame gid shuffled) joins)) ≤ 6)%nat.
Proof.
  unfold AddPlayer.
  destruct (Z.of_nat (size (Players g)) >=? 6) eqn:Hfull; simpl.
  - repeat split; try done; try lia.
    apply joinAll_fields. simpl. rewrite map_size_empty. lia.
  - repeat split; try done; try lia.
    apply joinAll_fields. simpl. rewrite map_size_empty. lia.
Qed.

Lemma X5_AddPlayer_capacity_witness :
  (AddPlayer demoStart "p1" "Alice" true).1 = true.
Proof.
  destruct (X5_AddPlayer_capacity demoStart "p1" "Alice" true "g" [] [])
    as [H _].
  apply H. vm_compute. lia.
Defined.

(** X6. An accepted join stores a fresh player under the id: four empty
    slots, score 0. Every other player is untouched, and when the id was
    already seated the number of players stays the same: the old hand of
    that player is replaced by the empty one. *)
Theorem X6_AddPlayer_fresh_seat (g : Game) (id name : string) (conn : bool) :
  (size (Players g) < 6)%nat →
  Players (AddPlayer g id name conn).2 !! id
  = Some (mkPlayer id name (replicate 4 zeroCard) conn false 0)
  ∧ (∀ j, j ≠ id →
          Players (AddPlayer g id name conn).2 !! j = Players g !! j)
  ∧ (is_Some (Players g !! id) →
     size (Players (AddPlayer g id name conn).2) = size (Players g))
  ∧ (Players g !! id = None →
     size (Players (AddPlayer g id name conn).2) = S (size (Players g))).
Proof.
  intros Hsz. unfold AddPlayer.
  assert ((Z.of_nat (size (Players g)) >=? 6) = false) as -> by lia. simpl.
  split; [apply lookup_insert_eq|]. split.
  - intros j Hj. by rewrite lookup_insert_ne.
  - split; intros H.
    + by apply map_size_insert_Some.
    + by apply map_size_insert_None.
Qed.

Lemma X6_AddPlayer_fresh_seat_witness :
  handOf demoStart "p1" ≠ replicate 4 zeroCard
  ∧ handOf (AddPlayer demoStart "p1" "Alice" true).2 "p1"
    = replicate 4 zeroCard.
Proof.
  split; [vm_compute; discriminate|].
  destruct (X6_AddPlayer_fresh_seat demoStart "p1" "Alice" true) as [H _].
  - vm_compute. lia.
  - unfold handOf. by rewrite H.
Defined.

(** X7. [StartGame] with at least two players and a deck of at least four
    cards per player sets the status to "playing" and deals from the
    front of the deck: the [k]-th player visited by the dealing loop gets
    the cards at deck positions 4k .. 4k+3, in that order, and the deck
    keeps what follows the last block. Discard pile and drawn cards are
    untouched, and the current player is the first key of the second
    range, a seated player. *)
Theorem X7_StartGame_deals_blocks (g : Game) (dealOrd firstOrd : list string) :
  (2 ≤ size (Players g))%nat →
  (4 * size (Players g) ≤ length (Deck g))%nat →
  rangeOrder (Players g) dealOrd →
  rangeOrder (Players g) firstOrd →
  Status (StartGame g dealOrd firstOrd) = "playing"
  ∧ Deck (StartGame g dealOrd firstOrd)
    = drop (4 * size (Players g)) (Deck g)
  ∧ (∀ k id, dealOrd !! k = Some id →
             handOf (StartGame g dealOrd firstOrd) id
             = take 4 (drop (4 * k) (Deck g)))
  ∧ DiscardPile (StartGame g dealOrd firstOrd) = DiscardPile g
  ∧ DrawnCards (StartGame g dealOrd firstOrd) = DrawnCards g
  ∧ head firstOrd = Some (CurrentPlayer (StartGame g dealOrd firstOrd))
  ∧ is_Some (Players (StartGame g dealOrd firstOrd)
               !! CurrentPlayer (StartGame g dealOrd firstOrd)).
Proof.
  intros Hsz Hdeck Ho1 Ho2. unfold StartGame.
  assert ((Z.of_nat (size (Players g)) <? 2) = false) as -> by lia.
  pose proof (rangeOrder_length _ _ Ho1) as Hl1.
  pose proof (rangeOrder_length _ _ Ho2) as Hl2.
  destruct (dealTo_fold_blocks dealOrd (setStatus g "playing"))
    as (H1 & H2 & H3 & H4 & H5 & H6).
  - by eapply rangeOrder_NoDup.
  - intros id Hid. simpl. by apply (rangeOrder_elem _ _ _ Ho1).
  - simpl. lia.
  - simpl in *. rewrite H1, Hl1.
    destruct firstOrd as [|f rest]; [simpl in Hl2; lia|].
    repeat split; try done. simpl. apply H5. simpl.
    apply (rangeOrder_elem _ _ _ Ho2). left.
Qed.

Lemma X7_StartGame_deals_blocks_witness :
  handOf (StartGame (joinAll (NewGame "g" createDeck) twoJoins)
            ["p1"; "p2"] ["p1"; "p2"]) "p2"
  = [mkCard "hearts" "5" false; mkCard "hearts" "6" false;
     mkCard "hearts" "7" false; mkCard "hearts" "8" false].
Proof.
  destruct (X7_StartGame_deals_blocks
              (joinAll (NewGame "g" createDeck) twoJoins)
              ["p1"; "p2"] ["p1"; "p2"]) as (_ & _ & H & _).
  - vm_compute. lia.
  - vm_compute. lia.
  - unfold rangeOrder. apply (bool_decide_unpack _). vm_compute. exact I.
  - unfold rangeOrder. apply (bool_decide_unpack _). vm_compute. exact I.
  - rewrite (H 1%nat "p2" eq_refl). vm_compute. reflexivity.
Defined.

(* ===================================================================== *)
(** ** Further properties: end of round, Pablo, drawing *)
(* ===================================================================== *)

Section RoundAndDraw.

Lemma revealAndScore_idem p : revealAndScore (revealAndScore p) = revealAndScore p.
Proof.
  unfold revealAndScore. destruct p as [i n cs c r s]. simpl.
  unfold setScore, setCards. simpl.
  assert (map (fun c => setFaceUp c true) (map (fun c => setFaceUp c true) cs)
          = map (fun c => setFaceUp c true) cs) as ->.
  { rewrite map_map. by apply map_ext. }
  done.
Qed.

Lemma default_false_true (o : option bool) :
  default false o = true ↔ o = Some true.
Proof. destruct o as [[]|]; simpl; split; congruence. Qed.
End RoundAndDraw.

(** X8. [EndRound] sets the status to "ended", clears the Pablo call,
    leaves deck, discard pile and drawn cards alone, turns every card of
    every hand face up without moving or changing it, and sets each score
    to the value of that player's hand. Running it again changes
    nothing. *)
Theorem X8_EndRound_reveals_and_scores (g : Game) :
  EndRound (EndRound g) = EndRound g
  ∧ Status (EndRound g) = "ended"
  ∧ PabloCalled (EndRound g) = false ∧ PabloCaller (EndRound g) = ""
  ∧ Deck (EndRound g) = Deck g
  ∧ DiscardPile (EndRound g) = DiscardPile g
  ∧ DrawnCards (EndRound g) = DrawnCards g
  ∧ ∀ id, Players (EndRound g) !! id
          = (fun p => mkPlayer (ID p) (Name p)
                        (map (fun c => mkCard (Suit c) (Rank c) true) (Cards p))
                        (Conn p) (Ready p) (handScore (Cards p)))
              <$> (Players g !! id).
Proof.
  split.
  - unfold EndRound. simpl. f_equal.
    rewrite <- map_fmap_compose. apply map_fmap_ext.
    intros i p _. apply revealAndScore_idem.
  - repeat split. intros id. unfold EndRound. simpl. rewrite lookup_fmap.
    destruct (Players g !! id) as [p|]; [|done]. simpl. f_equal.
    unfold revealAndScore, setScore, setCards. simpl.
    by rewrite handScore_setFaceUp.
Qed.

(** X9. The first Pablo call of a playing match wins: it records the
    caller, and every later call, by anyone, changes nothing. Outside a
    playing match a call changes nothing either. *)
Theorem X9_CallPablo_first_caller_wins (g : Game) (p q : string) :
  CallPablo (CallPablo g p) q = CallPablo g p
  ∧ (Status g = "playing" → PabloCalled g = false →
     PabloCalled (CallPablo g p) = true ∧ PabloCaller (CallPablo g p) = p)
  ∧ (Status g ≠ "playing" ∨ PabloCalled g = true → CallPablo g p = g).
Proof.
  unfold CallPablo. split; [|split].
  - destruct (negb (String.eqb (Status g) "playing") || PabloCalled g) eqn:H.
    + by rewrite H.
    + simpl. apply orb_false_iff in H as [-> _]. simpl. done.
  - intros -> ->. done.
  - intros [H| ->].
    + apply String.eqb_neq in H. by rewrite H.
    + by rewrite orb_true_r.
Qed.

Lemma X9_CallPablo_first_caller_wins_witness :
  PabloCaller (CallPablo (CallPablo demoStart "p2") "p1") = "p2".
Proof.
  destruct (X9_CallPablo_first_caller_wins demoStart "p2" "p1")
    as (H1 & H2 & _).
  rewrite H1. apply H2; vm_compute; reflexivity.
Defined.

Lemma DrawCard_outcomes (g : Game) (p : string) :
  ((DrawCard g p).1 = true
   ↔ CurrentPlayer g = p ∧ Deck g ≠ [] ∧ HasDrawnThisTurn g !! p ≠ Some true)
  ∧ ((DrawCard g p).1 = true →
     ∃ card rest,
       Deck g = card :: rest
       ∧ Deck (DrawCard g p).2 = rest
       ∧ DrawnCards (DrawCard g p).2 = <[p := setFaceUp card true]> (DrawnCards g)
       ∧ HasDrawnThisTurn (DrawCard g p).2 !! p = Some true
       ∧ Players (DrawCard g p).2 = Players g
       ∧ DiscardPile (DrawCard g p).2 = DiscardPile g
       ∧ CurrentPlayer (DrawCard g p).2 = p
       ∧ Status (DrawCard g p).2 = Status g)
  ∧ (CurrentPlayer g = p → Deck g = [] → Status g = "playing" →
     DrawCard g p = (false, EndRound g))
  ∧ ((DrawCard g p).1 = false →
     CurrentPlayer g ≠ p ∨ Deck g ≠ [] ∨ Status g ≠ "playing" →
     (DrawCard g p).2 = g).
Proof.
  unfold DrawCard.
  destruct (String.eqb_spec (CurrentPlayer g) p) as [Hcur|Hcur]; simpl.
  2: { repeat split; try done. by intros (? & _). }
  destruct (Deck g) as [|card rest] eqn:Hdeck.
  { repeat split; try done.
    - by intros (_ & ? & _).
    - intros _ _ ->. done.
    - intros _ [?|[?|Hst]]; try done.
      apply String.eqb_neq in Hst. by rewrite Hst. }
  destruct (default false (HasDrawnThisTurn g !! p)) eqn:Hdrawn; simpl.
  - apply default_false_true in Hdrawn.
    repeat split; try done. by intros (_ & _ & ?).
  - assert (HasDrawnThisTurn g !! p ≠ Some true) as Hne.
    { intros H%default_false_true. congruence. }
    repeat split; try done.
    intros _. exists card, rest. repeat split; try done.
    apply lookup_insert_eq.
Qed.


(** X10. [DrawCard] succeeds exactly for the current player, on a
    non-empty deck, who has not drawn this turn. It then moves the front
    card of the deck, face up, into that player's drawn-card entry and
    marks the player as having drawn; hands, discard pile, turn and the
    other players' drawn cards are untouched. Against an empty deck the
    current player's draw fails and, in a playing match, ends the round.
    Every other failed draw changes nothing. *)
Theorem X10_DrawCard_succeeds_iff (g : Game) (p : string) :
  ((DrawCard g p).1 = true
   ↔ CurrentPlayer g = p ∧ Deck g ≠ [] ∧ HasDrawnThisTurn g !! p ≠ Some true)
  ∧ ((DrawCard g p).1 = true →
     ∃ card rest,
       Deck g = card :: rest
       ∧ Deck (DrawCard g p).2 = rest
       ∧ DrawnCards (DrawCard g p).2 = <[p := setFaceUp card true]> (DrawnCards g)
       ∧ HasDrawnThisTurn (DrawCard g p).2 !! p = Some true
       ∧ Players (DrawCard g p).2 = Players g
       ∧ DiscardPile (DrawCard g p).2 = DiscardPile g
       ∧ CurrentPlayer (DrawCard g p).2 = p
       ∧ Status (DrawCard g p).2 = Status g)
  ∧ (CurrentPlayer g = p → Deck g = [] → Status g = "playing" →
     DrawCard g p = (false, EndRound g))
  ∧ ((DrawCard g p).1 = false →
     CurrentPlayer g ≠ p ∨ Deck g ≠ [] ∨ Status g ≠ "playing" →
     (DrawCard g p).2 = g).
Proof. apply DrawCard_outcomes. Qed.

Lemma X10_DrawCard_succeeds_iff_witness :
  (DrawCard demoStart "p1").1 = true
  ∧ Deck (DrawCard demoStart "p1").2 = tail (Deck demoStart).
Proof.
  destruct (X10_DrawCard_succeeds_iff demoStart "p1") as (Hiff & Heff & _).
  assert ((DrawCard demoStart "p1").1 = true) as Hok.
  { apply Hiff. split; [vm_compute; reflexivity|].
    split; vm_compute; discriminate. }
  split; [exact Hok|].
  destruct (Heff Hok) as (card & rest & Hd & Hd' & _).
  by rewrite Hd', Hd.
Defined.

(** X11. One draw per turn: after a successful draw a second draw by the
    same player is refused and, while cards remain in the deck, changes
    nothing. *)
Theorem X11_DrawCard_once_per_turn (g : Game) (p : string) :
  (DrawCard g p).1 = true →
  (DrawCard (DrawCard g p).2 p).1 = false
  ∧ (Deck (DrawCard g p).2 ≠ [] →
     DrawCard (DrawCard g p).2 p = (false, (DrawCard g p).2)).
Proof.
  intros Hok.
  destruct (DrawCard_outcomes g p) as (_ & Heff & _).
  destruct (Heff Hok) as (card & rest & _ & Hd & _ & Hdrawn & _ & _ & Hcur & _).
  set (g1 := (DrawCard g p).2) in *.
  unfold DrawCard. rewrite Hcur, String.eqb_refl. simpl.
  destruct (Deck g1); [done|]. rewrite Hdrawn. simpl. done.
Qed.

Lemma X11_DrawCard_once_per_turn_witness :
  (DrawCard (DrawCard demoStart "p1").2 "p1").1 = false.
Proof.
  apply (X11_DrawCard_once_per_turn demoStart "p1"). vm_compute. reflexivity.
Defined.

(* ===================================================================== *)
(** ** Further properties: resolving the drawn card *)
(* ===================================================================== *)

Section Resolve.

Lemma placeOnDiscard_fields g p card :
  DiscardPile (placeOnDiscard g p card) = DiscardPile g ++ [card]
  ∧ DrawnCards (placeOnDiscard g p card) = delete p (DrawnCards g)
  ∧ StackableCardIndex (placeOnDiscard g p card) = len (DiscardPile g)
  ∧ PendingSpecialCard (placeOnDiscard g p card)
    = (if isSpecialRank (Rank card) then Rank card else "")
  ∧ Deck (placeOnDiscard g p card) = Deck g
  ∧ Players (placeOnDiscard g p card) = Players g
  ∧ CurrentPlayer (placeOnDiscard g p card) = CurrentPlayer g
  ∧ HasDrawnThisTurn (placeOnDiscard g p card) = HasDrawnThisTurn g
  ∧ StackedSpecialCardPlayers (placeOnDiscard g p card)
    = StackedSpecialCardPlayers g.
Proof.
  unfold placeOnDiscard.
  assert (len (DiscardPile g ++ [card]) - 1 = len (DiscardPile g)) as Hlen.
  { unfold len. rewrite length_app. simpl. lia. }
  destruct (isSpecialRank (Rank card)); simpl; rewrite Hlen; done.
Qed.

Lemma discardTop_snoc pile c : discardTop (pile ++ [c]) = Some c.
Proof. unfold discardTop. apply last_snoc. Qed.
End Resolve.

(** X12. Discarding the drawn card: the current player's drawn card goes
    face up on top of the discard pile and becomes the stackable card,
    the drawn-card entry is removed, and its rank is pending when it is 7,
    8 or 9 (otherwise nothing is pending, whatever was before); deck,
    hands and turn are untouched. Without a drawn card, or for another
    player, the discard is refused and changes nothing. *)
Theorem X12_DiscardDrawnCard_outcomes (g : Game) (p : string) :
  ((DiscardDrawnCard g p).1 = true
   ↔ CurrentPlayer g = p ∧ is_Some (DrawnCards g !! p))
  ∧ ((DiscardDrawnCard g p).1 = false → (DiscardDrawnCard g p).2 = g)
  ∧ (∀ card, CurrentPlayer g = p → DrawnCards g !! p = Some card →
       DiscardPile (DiscardDrawnCard g p).2
       = DiscardPile g ++ [setFaceUp card true]
       ∧ getDiscardTop (DiscardPile (DiscardDrawnCard g p).2)
         = Some (setFaceUp card true)
       ∧ StackableCardIndex (DiscardDrawnCard g p).2
         = len (DiscardPile (DiscardDrawnCard g p).2) - 1
       ∧ DrawnCards (DiscardDrawnCard g p).2 = delete p (DrawnCards g)
       ∧ PendingSpecialCard (DiscardDrawnCard g p).2
         = (if isSpecialRank (Rank card) then Rank card else "")
       ∧ Deck (DiscardDrawnCard g p).2 = Deck g
       ∧ Players (DiscardDrawnCard g p).2 = Players g
       ∧ CurrentPlayer (DiscardDrawnCard g p).2 = p).
Proof.
  unfold DiscardDrawnCard.
  destruct (String.eqb_spec (CurrentPlayer g) p) as [Hcur|Hcur]; simpl.
  2: { repeat split; try done. by intros (? & _). }
  destruct (DrawnCards g !! p) as [c|] eqn:Hc; simpl.
  - split; [by split; [|eexists]|]. split; [done|].
    intros card _ [= <-].
    destruct (placeOnDiscard_fields g p (setFaceUp c true))
      as (H1 & H2 & H3 & H4 & H5 & H6 & H7 & _).
    rewrite H1, H2, H3, H4, H5, H6, H7. simpl.
    repeat split; try done.
    + apply discardTop_snoc.
    + unfold len. rewrite length_app. simpl. lia.
  - repeat split; try done. by intros (_ & [? ?]).
Qed.

Lemma X12_DiscardDrawnCard_outcomes_witness :
  PendingSpecialCard (DiscardDrawnCard (DrawCard sevensStart "p1").2 "p1").2
  = "7".
Proof.
  destruct (X12_DiscardDrawnCard_outcomes (DrawCard sevensStart "p1").2 "p1")
    as (_ & _ & H).
  destruct (H (mkCard "hearts" "7" true)) as (_ & _ & _ & _ & Hp & _).
  - vm_compute. reflexivity.
  - vm_compute. reflexivity.
  - rewrite Hp. reflexivity.
Defined.

(** X13. Swapping the drawn card into a slot: for the current, seated
    player holding a drawn card, an index outside the hand is refused
    with no change; an index inside puts the drawn card face down into
    that slot (the hand keeps its length and its other slots), sends the
    card that was there face up onto the discard pile as the stackable
    top, removes the drawn-card entry and arms or clears the pending rank
    by the rank of the card sent to the pile. The call never panics for a
    seated player. *)
Theorem X13_SwapCard_outcomes (g : Game) (p : string) (i : Z)
    (drawn : Card) (pl : Player) :
  CurrentPlayer g = p → DrawnCards g !! p = Some drawn →
  Players g !! p = Some pl →
  (i < 0 ∨ len (Cards pl) ≤ i → SwapCard g p i = Some (false, g))
  ∧ (∀ old, 0 ≤ i → Cards pl !! Z.to_nat i = Some old →
       ∃ g', SwapCard g p i = Some (true, g')
             ∧ handOf g' p = <[Z.to_nat i := setFaceUp drawn false]> (Cards pl)
             ∧ (∀ q, q ≠ p → Players g' !! q = Players g !! q)
             ∧ DiscardPile g' = DiscardPile g ++ [setFaceUp old true]
             ∧ StackableCardIndex g' = len (DiscardPile g)
             ∧ DrawnCards g' = delete p (DrawnCards g)
             ∧ PendingSpecialCard g'
               = (if isSpecialRank (Rank old) then Rank old else "")
             ∧ Deck g' = Deck g).
Proof.
  intros Hcur Hdrawn Hpl. unfold SwapCard.
  rewrite Hcur, String.eqb_refl, Hdrawn, Hpl. simpl. split.
  - intros Hout.
    assert ((i <? 0) || (i >=? len (Cards pl)) = true) as -> by lia. done.
  - intros old Hi Hold.
    pose proof (lookup_lt_Some _ _ _ Hold) as Hlt.
    assert ((i <? 0) || (i >=? len (Cards pl)) = false) as ->.
    { unfold len. lia. }
    rewrite Hold. eexists. split; [done|].
    match goal with |- context [placeOnDiscard ?a ?b ?c] =>
      destruct (placeOnDiscard_fields a b c)
        as (H1 & H2 & H3 & H4 & H5 & H6 & _) end.
    rewrite H1, H2, H3, H4, H5. unfold handOf. rewrite H6. simpl.
    rewrite lookup_insert_eq. simpl. repeat split; try done.
    intros q Hq. by rewrite lookup_insert_ne.
Qed.

Lemma X13_SwapCard_outcomes_witness :
  SwapCard (DrawCard demoStart "p1").2 "p1" 7
  = Some (false, (DrawCard demoStart "p1").2).
Proof.
  destruct (X13_SwapCard_outcomes (DrawCard demoStart "p1").2 "p1" 7
              (mkCard "hearts" "9" true)
              (mkPlayer "p1" "Alice"
                 [mkCard "hearts" "A" false; mkCard "hearts" "2" false;
                  mkCard "hearts" "3" false; mkCard "hearts" "4" false]
                 true false 0)) as [H _].
  - vm_compute. reflexivity.
  - vm_compute. reflexivity.
  - vm_compute. reflexivity.
  - apply H. right. vm_compute. discriminate.
Defined.

(* ===================================================================== *)
(** ** Further properties: ending the turn *)
(* ===================================================================== *)

Section TurnEnd.

Lemma isSpecialRank_nonempty r : isSpecialRank r = true → r ≠ "".
Proof. intros H ->. done. Qed.

(** The state [EndTurn] returns when it passes the turn on. *)
Lemma EndTurn_passes g p ord :
  CurrentPlayer g = p → DrawnCards g !! p = None →
  PendingSpecialCard g = "" → p ∈ ord →
  ∃ i next,
    ord !! i = Some p
    ∧ ord !! ((i + 1) `mod` length ord)%nat = Some next
    ∧ EndTurn g p ord
      = if PabloCalled g && String.eqb next (PabloCaller g)
        then EndRound (setHasDrawnThisTurn g (delete p (HasDrawnThisTurn g)))
        else setHasDrawnThisTurn (setCurrentPlayer g next)
               (delete next (delete p (HasDrawnThisTurn g))).
Proof.
  intros Hcur Hdrawn Hpend Hin.
  destruct (indexOf_Some p ord Hin) as (i & Hidx & Hi).
  assert ((i + 1) `mod` length ord < length ord)%nat as Hlt.
  { apply Nat.mod_upper_bound. apply lookup_lt_Some in Hi. lia. }
  apply lookup_lt_is_Some in Hlt as [next Hnext].
  exists i, next. split; [done|]. split; [done|].
  unfold EndTurn. rewrite Hcur, String.eqb_refl. simpl.
  rewrite Hdrawn, Hpend. rewrite bool_decide_eq_false_2 by (by intros [? ?]).
  assert (match discardTop (DiscardPile g) with
          | Some topCard => isSpecialRank (Rank topCard) && negb (String.eqb "" "")
          | None => false
          end = false) as ->.
  { destruct (discardTop _); [|done]. simpl. apply andb_false_r. }
  rewrite Hidx, Hnext. simpl.
  rewrite (delete_id (DrawnCards g) p Hdrawn).
  destruct (PabloCalled g && String.eqb next (PabloCaller g)); by destruct g.
Qed.
End TurnEnd.

(** X14. The turn cannot be passed on out of order: [EndTurn] by anyone
    but the current player changes nothing; right after a successful draw
    it changes nothing (the drawn card must be discarded or swapped
    first); and right after the discard of a drawn 7, 8 or 9 it changes
    nothing (the special card must be used or skipped first). *)
Theorem X14_EndTurn_refused_out_of_order (g : Game) (p : string)
    (ord : list string) :
  (CurrentPlayer g ≠ p → EndTurn g p ord = g)
  ∧ ((DrawCard g p).1 = true →
     EndTurn (DrawCard g p).2 p ord = (DrawCard g p).2)
  ∧ (∀ card, CurrentPlayer g = p → DrawnCards g !! p = Some card →
             isSpecialRank (Rank card) = true →
             EndTurn (DiscardDrawnCard g p).2 p ord
             = (DiscardDrawnCard g p).2).
Proof.
  split; [|split].
  - intros Hne. unfold EndTurn. apply String.eqb_neq in Hne. by rewrite Hne.
  - intros Hok. destruct (DrawCard_outcomes g p) as (_ & Heff & _).
    destruct (Heff Hok) as (card & rest & _ & _ & Hd & _ & _ & _ & Hcur & _).
    unfold EndTurn. rewrite Hcur, String.eqb_refl. simpl.
    rewrite Hd, lookup_insert_eq.
    by rewrite bool_decide_eq_true_2 by (by eexists).
  - intros card Hcur Hcard Hsp.
    unfold DiscardDrawnCard. rewrite Hcur, String.eqb_refl, Hcard. simpl.
    destruct (placeOnDiscard_fields g p (setFaceUp card true))
      as (H1 & H2 & _ & H4 & _ & _ & H7 & _).
    unfold EndTurn. rewrite H7, Hcur, String.eqb_refl, H2, H1, H4. simpl.
    rewrite lookup_delete_eq.
    rewrite bool_decide_eq_false_2 by (by intros [? ?]).
    rewrite discardTop_snoc. simpl. rewrite Hsp. simpl.
    apply isSpecialRank_nonempty, String.eqb_neq in Hsp. by rewrite Hsp.
Qed.

Lemma X14_EndTurn_refused_out_of_order_witness :
  EndTurn (DrawCard demoStart "p1").2 "p1" ["p1"; "p2"]
  = (DrawCard demoStart "p1").2.
Proof.
  destruct (X14_EndTurn_refused_out_of_order demoStart "p1" ["p1"; "p2"])
    as (_ & H & _).
  apply H. vm_compute. reflexivity.
Defined.

(** X15. When the current player, with no drawn card and nothing pending,
    ends the turn and no Pablo lap closes, the turn goes to the key after
    the player's (cyclically) in the order of that call's range; the
    "has drawn" marks of both players are cleared, so the new current
    player can draw as soon as the deck is not empty. Cards are not
    moved. *)
Theorem X15_EndTurn_hands_over_a_fresh_turn (g : Game) (p : string)
    (ord : list string) :
  CurrentPlayer g = p → DrawnCards g !! p = None →
  PendingSpecialCard g = "" → PabloCalled g = false → p ∈ ord →
  ∃ i next,
    ord !! i = Some p
    ∧ ord !! ((i + 1) `mod` length ord)%nat = Some next
    ∧ CurrentPlayer (EndTurn g p ord) = next
    ∧ HasDrawnThisTurn (EndTurn g p ord) !! next = None
    ∧ (Deck g ≠ [] → (DrawCard (EndTurn g p ord) next).1 = true)
    ∧ sameCards g (EndTurn g p ord)
    ∧ Status (EndTurn g p ord) = Status g.
Proof.
  intros Hcur Hdrawn Hpend Hpablo Hin.
  destruct (EndTurn_passes g p ord Hcur Hdrawn Hpend Hin)
    as (i & next & Hi & Hnext & ->).
  exists i, next. rewrite Hpablo. simpl.
  repeat split; try done.
  - apply lookup_delete_eq.
  - intros Hdeck. apply DrawCard_outcomes. simpl.
    by rewrite lookup_delete_eq.
Qed.

Lemma X15_EndTurn_hands_over_a_fresh_turn_witness :
  ∃ next, CurrentPlayer (EndTurn demoStart "p1" ["p1"; "p2"]) = next
          ∧ (DrawCard (EndTurn demoStart "p1" ["p1"; "p2"]) next).1 = true.
Proof.
  destruct (X15_EndTurn_hands_over_a_fresh_turn demoStart "p1" ["p1"; "p2"])
    as (i & next & _ & _ & Hc & _ & Hd & _).
  - vm_compute. reflexivity.
  - vm_compute. reflexivity.
  - vm_compute. reflexivity.
  - vm_compute. reflexivity.
  - set_solver.
  - exists next. split; [exact Hc|]. apply Hd. vm_compute. discriminate.
Defined.

(** X16. In a match of two players the range order does not matter: when
    the current player (no drawn card, nothing pending) ends the turn, the
    turn goes to the other player, unless that player has called Pablo,
    in which case the round ends at once. *)
Theorem X16_two_players_alternate (g : Game) (a b : string)
    (ord : list string) :
  a ≠ b → ord ≡ₚ [a; b] →
  CurrentPlayer g = b → DrawnCards g !! b = None →
  PendingSpecialCard g = "" →
  (PabloCalled g = true ∧ PabloCaller g = a →
   Status (EndTurn g b ord) = "ended" ∧ PabloCalled (EndTurn g b ord) = false)
  ∧ (PabloCalled g = false ∨ PabloCaller g ≠ a →
     CurrentPlayer (EndTurn g b ord) = a ∧ Status (EndTurn g b ord) = Status g).
Proof.
  intros Hab Hperm Hcur Hdrawn Hpend.
  assert (b ∈ ord) as Hin by (rewrite Hperm; set_solver).
  destruct (EndTurn_passes g b ord Hcur Hdrawn Hpend Hin)
    as (i & next & Hi & Hnext & ->).
  assert (next = a) as ->.
  { symmetry in Hperm. apply Permutation_length_2_inv in Hperm as [-> | ->].
    - destruct i as [|[|i]]; simpl in *; simplify_eq. done.
    - destruct i as [|[|i]]; simpl in *; simplify_eq. done. }
  split.
  - intros [-> ->]. by rewrite String.eqb_refl.
  - intros [-> | Hne]; [done|].
    apply String.eqb_neq in Hne. rewrite String.eqb_sym in Hne.
    rewrite Hne, andb_false_r. done.
Qed.

Lemma X16_two_players_alternate_witness :
  CurrentPlayer (EndTurn demoStart "p1" ["p2"; "p1"]) = "p2".
Proof.
  destruct (X16_two_players_alternate demoStart "p2" "p1" ["p2"; "p1"])
    as (_ & H).
  - discriminate.
  - reflexivity.
  - vm_compute. reflexivity.
  - vm_compute. reflexivity.
  - vm_compute. reflexivity.
  - apply H. left. vm_compute. reflexivity.
Defined.

(* ===================================================================== *)
(** ** Further properties: stacking *)
(* ===================================================================== *)

Section StackOutcomes.

Lemma StackCard_success g p i msg g' :
  StackCard g p i = ((true, msg), g') →
  ∃ top pl card,
    discardTop (DiscardPile g) = Some top
    ∧ StackableCardIndex g = len (DiscardPile g) - 1
    ∧ Players g !! p = Some pl
    ∧ 0 ≤ i ∧ Cards pl !! Z.to_nat i = Some card
    ∧ Rank card ≠ "" ∧ Rank card = Rank top
    ∧ DiscardPile g' = DiscardPile g ++ [setFaceUp card true]
    ∧ StackableCardIndex g' = -1
    ∧ Players g' = <[p := setCards pl (delete (Z.to_nat i) (Cards pl))]> (Players g)
    ∧ Deck g' = Deck g ∧ DrawnCards g' = DrawnCards g
    ∧ PendingSpecialCard g' = PendingSpecialCard g
    ∧ CurrentPlayer g' = CurrentPlayer g ∧ Status g' = Status g
    ∧ StackedSpecialCardPlayers g'
      = if isSpecialRank (Rank top)
           && negb (existsb (fun q => String.eqb q p)
                      (StackedSpecialCardPlayers g))
        then StackedSpecialCardPlayers g ++ [p]
        else StackedSpecialCardPlayers g.
Proof.
  unfold StackCard.
  destruct (discardTop (DiscardPile g)) as [top|] eqn:Htop; [|done].
  destruct (StackableCardIndex g =? -1) eqn:H1; [done|].
  destruct (StackableCardIndex g =? len (DiscardPile g) - 1) eqn:H2; [|done].
  simpl. destruct (Players g !! p) as [pl|] eqn:Hpl; [|done].
  destruct ((i <? 0) || (i >=? len (Cards pl))) eqn:Hrange; [done|].
  apply orb_false_iff in Hrange as [Hlo Hhi].
  assert (is_Some (Cards pl !! Z.to_nat i)) as [c Hc].
  { apply lookup_lt_is_Some. unfold len in Hhi. lia. }
  rewrite Hc. simpl.
  destruct (String.eqb_spec (Rank c) "") as [|Hr]; [done|].
  destruct (String.eqb_spec (Rank top) "") as [|Hr2]; [done|].
  destruct (String.eqb_spec (Rank c) (Rank top)) as [Heq|]; [|done]. simpl.
  intros [= _ <-]. exists top, pl, c.
  split; [done|]. split; [lia|]. split; [done|]. split; [lia|].
  split; [done|]. split; [done|]. split; [done|].
  destruct (isSpecialRank (Rank top)); simpl; [|done].
  by destruct (existsb _ _).
Qed.

Lemma StackCard_failure g p i msg g' :
  StackCard g p i = ((false, msg), g') →
  DiscardPile g' = DiscardPile g
  ∧ StackableCardIndex g' = StackableCardIndex g
  ∧ PendingSpecialCard g' = PendingSpecialCard g
  ∧ StackedSpecialCardPlayers g' = StackedSpecialCardPlayers g
  ∧ CurrentPlayer g' = CurrentPlayer g ∧ Status g' = Status g
  ∧ DrawnCards g' = DrawnCards g
  ∧ (msg ≠ penaltyMessage → g' = g)
  ∧ (g' = g
     ∨ ∃ pl pen rest,
         Players g !! p = Some pl ∧ Deck g = pen :: rest
         ∧ Deck g' = rest
         ∧ Players g'
           = <[p := setCards pl (Cards pl ++ [setFaceUp pen false])]>
               (Players g)).
Proof.
  unfold StackCard, penaltyMessage.
  repeat case_match; intros; simplify_eq; simpl;
    repeat split; try done; try (by left).
  right. by eexists _, _, _.
Qed.
End StackOutcomes.

(** X17. At most one stack per discard: once a stack has succeeded, every
    further stack attempt, by any player and from any slot, is refused
    and changes nothing (until a card is discarded again). So of several
    attempts racing for the same card exactly the first match wins and
    the pile grows by one card. *)
Theorem X17_stack_at_most_once (g : Game) (p : string) (i : Z) :
  (StackCard g p i).1.1 = true →
  length (DiscardPile (StackCard g p i).2) = S (length (DiscardPile g))
  ∧ ∀ q j, (StackCard (StackCard g p i).2 q j).1.1 = false
           ∧ (StackCard (StackCard g p i).2 q j).2 = (StackCard g p i).2.
Proof.
  intros Hok. destruct (StackCard g p i) as [[ok msg] g'] eqn:Hst.
  simpl in *. subst ok.
  destruct (StackCard_success _ _ _ _ _ Hst)
    as (top & pl & card & _ & _ & _ & _ & _ & _ & _ & Hpile & Hidx & _).
  split; [rewrite Hpile, length_app; simpl; lia|].
  intros q j. unfold StackCard.
  rewrite Hpile, discardTop_snoc, Hidx. done.
Qed.

Lemma X17_stack_at_most_once_witness :
  (StackCard (StackCard sevenOnTop "p1" 0).2 "p2" 0).1.1 = false.
Proof.
  destruct (X17_stack_at_most_once sevenOnTop "p1" 0) as [_ H].
  - vm_compute. reflexivity.
  - apply H.
Defined.

(** X18. What a stack attempt can do. A success puts the stacked card,
    face up and of the same rank as the card below it, on top of the pile
    and unsets the stackable index; it moves no other card and leaves the
    turn, the status and the pending rank alone. A refusal never touches
    the pile, the stackable index, the queue or the turn, and unless its
    message is the rank-mismatch one it changes nothing at all. *)
Theorem X18_StackCard_outcomes (g : Game) (p : string) (i : Z) :
  ((StackCard g p i).1.1 = true →
   ∃ top card,
     discardTop (DiscardPile g) = Some top
     ∧ handOf g p !! Z.to_nat i = Some card
     ∧ Rank card = Rank top
     ∧ DiscardPile (StackCard g p i).2
       = DiscardPile g ++ [setFaceUp card true]
     ∧ StackableCardIndex (StackCard g p i).2 = -1
     ∧ Deck (StackCard g p i).2 = Deck g
     ∧ (∀ q, q ≠ p → Players (StackCard g p i).2 !! q = Players g !! q)
     ∧ CurrentPlayer (StackCard g p i).2 = CurrentPlayer g
     ∧ Status (StackCard g p i).2 = Status g
     ∧ PendingSpecialCard (StackCard g p i).2 = PendingSpecialCard g)
  ∧ ((StackCard g p i).1.1 = false →
     DiscardPile (StackCard g p i).2 = DiscardPile g
     ∧ StackableCardIndex (StackCard g p i).2 = StackableCardIndex g
     ∧ StackedSpecialCardPlayers (StackCard g p i).2
       = StackedSpecialCardPlayers g
     ∧ CurrentPlayer (StackCard g p i).2 = CurrentPlayer g
     ∧ ((StackCard g p i).1.2 ≠ penaltyMessage → (StackCard g p i).2 = g)).
Proof.
  destruct (StackCard g p i) as [[ok msg] g'] eqn:Hst. simpl. split.
  - intros ->.
    destruct (StackCard_success _ _ _ _ _ Hst)
      as (top & pl & card & Htop & _ & Hpl & _ & Hcard & _ & Hrank & Hpile
          & Hidx & Hplayers & Hdeck & _ & Hpend & Hcur & Hstat & _).
    exists top, card. unfold handOf. rewrite Hpl, Hplayers. simpl.
    repeat split; try done.
    intros q Hq. by rewrite lookup_insert_ne.
  - intros ->.
    destruct (StackCard_failure _ _ _ _ _ Hst)
      as (H1 & H2 & _ & H4 & H5 & _ & _ & H8 & _).
    done.
Qed.

Lemma X18_StackCard_outcomes_witness :
  (StackCard demoStart "p1" 0).2 = demoStart.
Proof.
  destruct (X18_StackCard_outcomes demoStart "p1" 0) as [_ H].
  destruct H as (_ & _ & _ & _ & H).
  - vm_compute. reflexivity.
  - apply H. vm_compute. discriminate.
Defined.

(* ===================================================================== *)
(** ** Further properties: what every operation keeps *)
(* ===================================================================== *)

Section Kept.

Lemma sameSeats_eq g g' : Players g' = Players g → sameSeats g g'.
Proof. intros H id. by rewrite H. Qed.

Lemma sameSeats_trans g1 g2 g3 :
  sameSeats g1 g2 → sameSeats g2 g3 → sameSeats g1 g3.
Proof. intros H12 H23 id. etrans; [apply H23|apply H12]. Qed.

Lemma sameSeats_fmap g g' (f : Player → Player) :
  Players g' = f <$> Players g → sameSeats g g'.
Proof. intros H id. by rewrite H, lookup_fmap, fmap_is_Some. Qed.

Lemma sameSeats_insert g g' p pl x :
  Players g !! p = Some pl → Players g' = <[p := x]> (Players g) →
  sameSeats g g'.
Proof.
  intros Hp H id. rewrite H, lookup_insert.
  case_decide; [subst|done]. rewrite Hp. split; by eexists.
Qed.

Lemma sameSeats_EndRound g : sameSeats g (EndRound g).
Proof. by apply (sameSeats_fmap _ _ revealAndScore). Qed.

Lemma dealTo_frame g a :
  sameSeats g (dealTo g a)
  ∧ DiscardPile (dealTo g a) = DiscardPile g
  ∧ StackableCardIndex (dealTo g a) = StackableCardIndex g
  ∧ PendingSpecialCard (dealTo g a) = PendingSpecialCard g
  ∧ StackedSpecialCardPlayers (dealTo g a) = StackedSpecialCardPlayers g.
Proof.
  unfold dealTo. destruct (Players g !! a) as [pl|] eqn:Hpl.
  - destruct (dealSlots 4 (Deck g)) as [cs d]. simpl.
    split; [by eapply sameSeats_insert|done].
  - split; [by apply sameSeats_eq|done].
Qed.

Lemma dealTo_fold_frame ord : ∀ g,
  sameSeats g (foldl dealTo g ord)
  ∧ DiscardPile (foldl dealTo g ord) = DiscardPile g
  ∧ StackableCardIndex (foldl dealTo g ord) = StackableCardIndex g
  ∧ PendingSpecialCard (foldl dealTo g ord) = PendingSpecialCard g
  ∧ StackedSpecialCardPlayers (foldl dealTo g ord)
    = StackedSpecialCardPlayers g.
Proof.
  induction ord as [|a ord IH]; intros g; simpl.
  - split; [by apply sameSeats_eq|done].
  - destruct (IH (dealTo g a)) as (H0 & H1 & H2 & H3 & H4).
    destruct (dealTo_frame g a) as (K0 & K1 & K2 & K3 & K4).
    split; [by eapply sameSeats_trans|]. by rewrite H1, H2, H3, H4.
Qed.

Lemma specialEffect_frame_index g p r params g1 evs :
  specialEffect g p r params = Some (g1, evs) →
  StackableCardIndex g1 = StackableCardIndex g
  ∧ PendingSpecialCard g1 = PendingSpecialCard g
  ∧ Deck g1 = Deck g ∧ DrawnCards g1 = DrawnCards g.
Proof.
  unfold specialEffect. repeat case_match; intros; by simplify_eq.
Qed.

(** No operation seats or unseats a player. *)
Lemma applyOp_sameSeats g o : sameSeats g (applyOp g o).
Proof.
  destruct o; simpl.
  - unfold DrawCard. repeat case_match; simpl;
      try (by apply sameSeats_eq); apply sameSeats_EndRound.
  - unfold DiscardDrawnCard. repeat case_match; simpl;
      try (by apply sameSeats_eq).
    apply sameSeats_eq. apply placeOnDiscard_fields.
  - destruct (SwapCard g playerID cardIndex) as [[ok g']|] eqn:Hsw;
      [|by apply sameSeats_eq].
    unfold SwapCard in Hsw. repeat case_match; simplify_eq; simpl;
      try (by apply sameSeats_eq).
    eapply sameSeats_insert; [eassumption|].
    match goal with |- context [placeOnDiscard ?a ?b ?c] =>
      destruct (placeOnDiscard_fields a b c) as (_ & _ & _ & _ & _ & -> & _)
    end. done.
  - destruct (UseSpecialCardFromDiscard g playerID cardRank params)
      as [[[ok g'] evs]|] eqn:Huse; [|by apply sameSeats_eq].
    unfold UseSpecialCardFromDiscard in Huse.
    repeat case_match; simplify_eq; simpl; try (by apply sameSeats_eq).
    match goal with H : specialEffect _ _ _ _ = Some _ |- _ =>
      destruct (specialEffect_frame _ _ _ _ _ _ H) as (_ & _ & _ & Hs) end.
    eapply sameSeats_trans; [exact Hs|]. apply sameSeats_eq.
    unfold advanceQueueAfterUse. simpl. by repeat case_match.
  - unfold SkipSpecialCard. repeat case_match; by apply sameSeats_eq.
  - unfold CallPablo. repeat case_match; by apply sameSeats_eq.
  - unfold EndTurn. repeat case_match; simpl;
      try (by apply sameSeats_eq).
    all: by apply (sameSeats_fmap _ _ revealAndScore).
  - destruct (StackCard g playerID cardIndex) as [[[] msg] g'] eqn:Hst; simpl.
    + destruct (StackCard_success _ _ _ _ _ Hst)
        as (top & pl & card & _ & _ & Hpl & _ & _ & _ & _ & _ & _ & Hp & _).
      by eapply sameSeats_insert.
    + destruct (StackCard_failure _ _ _ _ _ Hst)
        as (_ & _ & _ & _ & _ & _ & _ & _ & [->|(pl & pen & rest & Hpl & _ & _ & Hp)]).
      * by apply sameSeats_eq.
      * by eapply sameSeats_insert.
  - unfold StartGame. case_match; [by apply sameSeats_eq|]. simpl.
    apply (dealTo_fold_frame dealOrd (setStatus g "playing")).
Qed.
End Kept.

Section Tidy.

Lemma existsb_eqb_elem (p : string) (l : list string) :
  existsb (fun q => String.eqb q p) l = true ↔ p ∈ l.
Proof.
  induction l as [|x l IH]; simpl.
  - split; [done|]. by intros ?%elem_of_nil.
  - rewrite orb_true_iff, IH, elem_of_cons.
    split; intros [H|H]; try (by right); left.
    + by apply String.eqb_eq in H.
    + subst. apply String.eqb_refl.
Qed.

Lemma queueTidy_same g g' :
  sameSeats g g' →
  StackedSpecialCardPlayers g' = StackedSpecialCardPlayers g →
  queueTidy g → queueTidy g'.
Proof.
  intros Hseats Hq [Hnd Hall]. unfold queueTidy. rewrite Hq. split; [done|].
  eapply Forall_impl; [exact Hall|]. intros q Hs. by apply Hseats.
Qed.

Lemma queueTidy_tail g g' :
  sameSeats g g' →
  StackedSpecialCardPlayers g' = tail (StackedSpecialCardPlayers g) →
  queueTidy g → queueTidy g'.
Proof.
  intros Hseats Hq [Hnd Hall]. unfold queueTidy. rewrite Hq.
  destruct (StackedSpecialCardPlayers g) as [|q rest]; simpl.
  - split; [done|constructor].
  - apply NoDup_cons in Hnd as [_ Hnd]. apply Forall_cons in Hall as [_ Hall].
    split; [done|]. eapply Forall_impl; [exact Hall|].
    intros x Hs. by apply Hseats.
Qed.

Lemma queueTidy_snoc g g' p :
  sameSeats g g' → is_Some (Players g !! p) →
  p ∉ StackedSpecialCardPlayers g →
  StackedSpecialCardPlayers g' = StackedSpecialCardPlayers g ++ [p] →
  queueTidy g → queueTidy g'.
Proof.
  intros Hseats Hp Hnotin Hq [Hnd Hall]. unfold queueTidy. rewrite Hq. split.
  - apply NoDup_app. split; [done|]. split; [|apply NoDup_singleton].
    intros x Hx ->%list_elem_of_singleton. done.
  - apply Forall_app. split.
    + eapply Forall_impl; [exact Hall|]. intros x Hs. by apply Hseats.
    + constructor; [by apply Hseats|constructor].
Qed.

(** An operation that leaves pile, index, pending rank and queue alone
    keeps the three facts. *)
Lemma tidy_frame g g' :
  DiscardPile g' = DiscardPile g →
  StackableCardIndex g' = StackableCardIndex g →
  PendingSpecialCard g' = PendingSpecialCard g →
  StackedSpecialCardPlayers g' = StackedSpecialCardPlayers g →
  sameSeats g g' →
  stackableTidy g → pendingTidy g → queueTidy g →
  stackableTidy g' ∧ pendingTidy g' ∧ queueTidy g'.
Proof.
  intros H1 H2 H3 H4 Hseats Hs Hp Hq.
  unfold stackableTidy, pendingTidy. rewrite H1, H2, H3.
  split; [done|]. split; [done|]. by eapply queueTidy_same.
Qed.

Lemma placeOnDiscard_tidy g p card :
  stackableTidy (placeOnDiscard g p card)
  ∧ pendingTidy (placeOnDiscard g p card).
Proof.
  destruct (placeOnDiscard_fields g p card) as (H1 & _ & H3 & H4 & _).
  unfold stackableTidy, pendingTidy. rewrite H1, H3, H4. split.
  - right. unfold len. rewrite length_app. simpl. lia.
  - rewrite discardTop_snoc. simpl.
    by destruct (isSpecialRank (Rank card)) eqn:Hsp.
Qed.

Lemma applyOp_tidy g o :
  stackableTidy g → pendingTidy g → queueTidy g →
  stackableTidy (applyOp g o) ∧ pendingTidy (applyOp g o)
  ∧ queueTidy (applyOp g o).
Proof.
  intros Hs Hp Hq. pose proof (applyOp_sameSeats g o) as Hseats.
  destruct o; simpl in *.
  - apply (tidy_frame g); try done;
      unfold DrawCard; by repeat case_match.
  - unfold DiscardDrawnCard in *. repeat case_match; simpl in *; try done.
    match goal with |- context [placeOnDiscard ?a ?b ?c] =>
      destruct (placeOnDiscard_tidy a b c) as [K1 K2];
      destruct (placeOnDiscard_fields a b c)
        as (_ & _ & _ & _ & _ & _ & _ & _ & K3) end.
    split; [done|]. split; [done|]. by eapply queueTidy_same.
  - destruct (SwapCard g playerID cardIndex) as [[ok g']|] eqn:Hsw; [|done].
    unfold SwapCard in Hsw. repeat case_match; simplify_eq; simpl in *;
      try done.
    match goal with |- context [placeOnDiscard ?a ?b ?c] =>
      destruct (placeOnDiscard_tidy a b c) as [K1 K2];
      destruct (placeOnDiscard_fields a b c)
        as (_ & _ & _ & _ & _ & _ & _ & _ & K3) end.
    split; [done|]. split; [done|]. by eapply queueTidy_same.
  - destruct (UseSpecialCardFromDiscard g playerID cardRank params)
      as [[[ok g'] evs]|] eqn:Huse; [|done].
    unfold UseSpecialCardFromDiscard in Huse.
    destruct (negb (String.eqb (CurrentPlayer g) playerID));
      [by simplify_eq|].
    destruct (discardTop (DiscardPile g)) as [top|] eqn:Htop;
      [|by simplify_eq].
    destruct (String.eqb_spec (Rank top) cardRank) as [Hrank|];
      [|simpl in Huse; by simplify_eq].
    destruct (String.eqb_spec (PendingSpecialCard g) cardRank) as [Hpend|];
      [|simpl in Huse; by simplify_eq].
    simpl in Huse.
    destruct (specialEffect g playerID cardRank params) as [[g1 evs1]|] eqn:Heff;
      [|done].
    injection Huse as <- <- <-. simpl in *.
    destruct (specialEffect_frame _ _ _ _ _ _ Heff) as (_ & F1 & F2 & _).
    destruct (specialEffect_frame_index _ _ _ _ _ _ Heff) as (F3 & F4 & _).
    unfold advanceQueueAfterUse in *. simpl in *.
    assert (stackableTidy g → ∀ g2, DiscardPile g2 = DiscardPile g1 →
              StackableCardIndex g2 = StackableCardIndex g1 →
              stackableTidy g2) as Kst.
    { intros K g2 E1 E2. unfold stackableTidy. by rewrite E1, E2, F1, F3. }
    destruct (StackedSpecialCardPlayers g1) as [|q rest] eqn:Hqueue.
    + split; [by apply Kst|]. split; [by intros ?|].
      eapply queueTidy_same; [exact Hseats| |exact Hq]. simpl. congruence.
    + case_bool_decide.
      * split; [by apply Kst|]. split.
        -- unfold pendingTidy. simpl. intros Hne. rewrite F1, Htop. simpl.
           split; [|by rewrite Hrank].
           unfold pendingTidy in Hp. rewrite Hpend in Hp.
           by destruct (Hp Hne).
        -- eapply queueTidy_tail; [exact Hseats| |exact Hq].
           simpl. by rewrite <- F2.
      * split; [by apply Kst|]. split; [by intros ?|].
        eapply queueTidy_tail; [exact Hseats| |exact Hq].
        simpl. by rewrite <- F2.
  - unfold SkipSpecialCard in *.
    destruct (negb (String.eqb (CurrentPlayer g) playerID)); [done|].
    simpl in *.
    destruct (StackedSpecialCardPlayers g) as [|q rest] eqn:Hqueue.
    + split; [done|]. split; [by intros ?|].
      eapply queueTidy_same; [exact Hseats|done|exact Hq].
    + assert (∀ g2, StackedSpecialCardPlayers g2 = rest → sameSeats g g2 →
                queueTidy g2) as Kq.
      { intros g2 E Hse. eapply queueTidy_tail; [exact Hse| |exact Hq].
        by rewrite Hqueue. }
      case_bool_decide; simpl in *.
      * destruct (discardTop (DiscardPile g)) as [top|] eqn:Htop.
        -- destruct (isSpecialRank (Rank top)) eqn:Hsp; simpl.
           ++ split; [done|]. split; [|by apply Kq].
              unfold pendingTidy. simpl. by rewrite Htop.
           ++ split; [done|]. split; [by intros ?|by apply Kq].
        -- split; [done|]. split; [by intros ?|by apply Kq].
      * split; [done|]. split; [by intros ?|by apply Kq].
  - apply (tidy_frame g); try done; unfold CallPablo; by repeat case_match.
  - apply (tidy_frame g); try done; unfold EndTurn; by repeat case_match.
  - destruct (StackCard g playerID cardIndex) as [[[] msg] g'] eqn:Hst;
      simpl in *.
    + destruct (StackCard_success _ _ _ _ _ Hst)
        as (top & pl & card & Htop & _ & Hpl & _ & _ & _ & Hrank & Hpile
            & Hidx & _ & _ & _ & Hpend & _ & _ & Hqueue).
      split; [by left|]. split.
      * unfold pendingTidy. rewrite Hpend, Hpile, discardTop_snoc. simpl.
        intros Hne. destruct (Hp Hne) as [K1 K2]. split; [done|].
        rewrite Htop in K2. simpl in K2. congruence.
      * destruct (isSpecialRank (Rank top)
                  && negb (existsb (fun q => String.eqb q playerID)
                             (StackedSpecialCardPlayers g))) eqn:Hadd.
        -- apply andb_true_iff in Hadd as [_ Hnot].
           apply negb_true_iff in Hnot.
           eapply (queueTidy_snoc g g' playerID); try done.
           intros Hin%existsb_eqb_elem. congruence.
        -- by eapply queueTidy_same.
    + destruct (StackCard_failure _ _ _ _ _ Hst) as (H1 & H2 & H3 & H4 & _).
      by apply (tidy_frame g).
  - destruct (dealTo_fold_frame dealOrd (setStatus g "playing"))
      as (_ & H1 & H2 & H3 & H4).
    apply (tidy_frame g); try done; unfold StartGame; by case_match.
Qed.

Lemma runOps_tidy ops : ∀ g,
  stackableTidy g → pendingTidy g → queueTidy g →
  stackableTidy (runOps g ops) ∧ pendingTidy (runOps g ops)
  ∧ queueTidy (runOps g ops).
Proof.
  induction ops as [|o ops IH]; intros g Hs Hp Hq; [done|].
  destruct (applyOp_tidy g o Hs Hp Hq) as (Hs1 & Hp1 & Hq1).
  apply (IH (applyOp g o) Hs1 Hp1 Hq1).
Qed.

Lemma joinAll_tidy joins : ∀ g,
  stackableTidy g → pendingTidy g → StackedSpecialCardPlayers g = [] →
  stackableTidy (joinAll g joins) ∧ pendingTidy (joinAll g joins)
  ∧ queueTidy (joinAll g joins).
Proof.
  induction joins as [|[[id name] conn] joins IH]; intros g Hs Hp Hq.
  - split; [done|]. split; [done|]. unfold queueTidy, joinAll. simpl.
    rewrite Hq. split; constructor.
  - unfold joinAll. simpl. fold (joinAll (AddPlayer g id name conn).2 joins).
    apply IH; unfold AddPlayer; by case_match.
Qed.
End Tidy.

(** X19. Whatever messages a match has handled since it was created, the
    stackable index is either unset (-1) or the index of the card on top
    of the discard pile: a card below the top is never stackable. *)
Theorem X19_stackable_is_top_or_unset (gid : string) (shuffled : list Card)
    (joins : list (string * string * bool)) (ops : list Op) :
  stackableTidy (runOps (joinAll (NewGame gid shuffled) joins) ops).
Proof.
  destruct (joinAll_tidy joins (NewGame gid shuffled)) as (Hs & Hp & Hq);
    [by left|by intros ?|done|].
  by apply runOps_tidy.
Qed.

(** X20. Whatever messages a match has handled since it was created, a
    pending special rank is 7, 8 or 9 and is the rank of the card on top
    of the discard pile (which is therefore not empty). *)
Theorem X20_pending_rank_is_on_top (gid : string) (shuffled : list Card)
    (joins : list (string * string * bool)) (ops : list Op) :
  pendingTidy (runOps (joinAll (NewGame gid shuffled) joins) ops).
Proof.
  destruct (joinAll_tidy joins (NewGame gid shuffled)) as (Hs & Hp & Hq);
    [by left|by intros ?|done|].
  by apply runOps_tidy.
Qed.

(** X21. Whatever messages a match has handled since it was created, the
    queue of deferred special rights holds no player twice and only
    seated players. *)
Theorem X21_queue_has_no_duplicates (gid : string) (shuffled : list Card)
    (joins : list (string * string * bool)) (ops : list Op) :
  queueTidy (runOps (joinAll (NewGame gid shuffled) joins) ops).
Proof.
  destruct (joinAll_tidy joins (NewGame gid shuffled)) as (Hs & Hp & Hq);
    [by left|by intros ?|done|].
  by apply runOps_tidy.
Qed.

(** X22. No game operation seats or unseats anyone: after any sequence
    of draw, discard, swap, special-card, skip, Pablo, end-turn, stack and
    start messages the seated ids are exactly those seated before. *)
Theorem X22_operations_keep_the_seats (g : Game) (ops : list Op) :
  sameSeats g (runOps g ops).
Proof.
  revert g. induction ops as [|o ops IH]; intros g.
  - by apply sameSeats_eq.
  - eapply sameSeats_trans; [apply (applyOp_sameSeats g o)|apply IH].
Qed.

Section SeatedCurrent.

(** After an operation the current player is who it was, or a player
    seated before the operation. *)
Lemma applyOp_current g o :
  ordersValid g o →
  CurrentPlayer (applyOp g o) = CurrentPlayer g
  ∨ is_Some (Players g !! CurrentPlayer (applyOp g o)).
Proof.
  intros Hvalid. destruct o; simpl in *.
  - left. unfold DrawCard. by repeat case_match.
  - left. unfold DiscardDrawnCard. repeat case_match; try done.
    simpl. apply placeOnDiscard_fields.
  - left. destruct (SwapCard g playerID cardIndex) as [[ok g']|] eqn:Hsw;
      [|done].
    unfold SwapCard in Hsw. repeat case_match; simplify_eq; try done. simpl.
    match goal with |- context [placeOnDiscard ?a ?b ?c] =>
      destruct (placeOnDiscard_fields a b c)
        as (_ & _ & _ & _ & _ & _ & -> & _) end. done.
  - destruct (UseSpecialCardFromDiscard g playerID cardRank params)
      as [[[ok g'] evs]|] eqn:Huse; [|by left].
    unfold UseSpecialCardFromDiscard in Huse.
    repeat case_match; simplify_eq; simpl; try (by left).
    match goal with H : specialEffect _ _ _ _ = Some _ |- _ =>
      destruct (specialEffect_frame _ _ _ _ _ _ H) as (Hc & _ & _ & Hs) end.
    unfold advanceQueueAfterUse. simpl.
    destruct (StackedSpecialCardPlayers _) as [|q rest]; [by left|].
    case_bool_decide; simpl; [|by left]. right. by apply Hs.
  - unfold SkipSpecialCard.
    destruct (negb _); [by left|]. simpl.
    destruct (StackedSpecialCardPlayers g) as [|q rest]; [by left|].
    case_bool_decide; simpl; [|by left]. right.
    by repeat case_match.
  - left. unfold CallPablo. by repeat case_match.
  - unfold EndTurn. repeat case_match; simpl; try (by left).
    all: right.
    all: match goal with
         | Hidx : indexOf _ ?ids = Some ?n, Hv : rangeOrder _ ?ids
           |- context [?ids !! ?k] =>
             destruct (ids !! k) as [next|] eqn:Hnext; simpl;
             [ apply (rangeOrder_elem _ _ _ Hv);
               by eapply list_elem_of_lookup_2
             | exfalso; apply lookup_ge_None in Hnext;
               assert (length ids ≠ 0)%nat as Hlen
                 by (destruct ids;
                     [simpl in Hidx; discriminate Hidx|simpl; lia]);
               pose proof (Nat.mod_upper_bound
                             (n + 1)%nat (length ids) Hlen); lia ]
         end.
  - left.
    destruct (StackCard g playerID cardIndex) as [[[] msg] g'] eqn:Hst; simpl.
    + by destruct (StackCard_success _ _ _ _ _ Hst)
        as (? & ? & ? & _ & _ & _ & _ & _ & _ & _ & _ & _ & _ & _ & _ & _ & ? & _).
    + by destruct (StackCard_failure _ _ _ _ _ Hst) as (_ & _ & _ & _ & ? & _).
  - destruct Hvalid as [Hdeal Hfirst]. unfold StartGame.
    destruct (Z.of_nat (size (Players g)) <? 2) eqn:Hsz; [by left|].
    right. simpl.
    pose proof (rangeOrder_length _ _ Hfirst) as Hl.
    destruct firstOrd as [|f rest]; [simpl in Hl; lia|].
    apply (rangeOrder_elem _ _ _ Hfirst). left.
Qed.

Lemma validRun_current_seated ops : ∀ g,
  validRun g ops → is_Some (Players g !! CurrentPlayer g) →
  is_Some (Players (runOps g ops) !! CurrentPlayer (runOps g ops)).
Proof.
  induction ops as [|o ops IH]; intros g Hvalid Hseated; [done|].
  destruct Hvalid as [Ho Hrest]. apply (IH (applyOp g o) Hrest).
  apply (applyOp_sameSeats g o).
  destruct (applyOp_current g o Ho) as [-> | H]; done.
Qed.

Lemma started_current_seated g :
  started g → is_Some (Players g !! CurrentPlayer g).
Proof.
  intros (id & sh & joins & o1 & o2 & _ & Hsz & Ho1 & Ho2 & ->).
  set (g0 := joinAll (NewGame id sh) joins) in *.
  apply (applyOp_sameSeats g0 (OpStartGame o1 o2)).
  destruct (applyOp_current g0 (OpStartGame o1 o2)) as [Heq|H]; [done| |done].
  simpl in Heq. unfold StartGame in *.
  destruct (Z.of_nat (size (Players g0)) <? 2) eqn:Hlt; [lia|].
  simpl in *. pose proof (rangeOrder_length _ _ Ho2) as Hl.
  destruct o2 as [|f rest]; [simpl in Hl; lia|].
  apply (rangeOrder_elem _ _ _ Ho2). left.
Qed.
End SeatedCurrent.

(** X23. In a started match, after any messages whose range orders are
    orders of the players map, the current player is a seated player;
    so [SwapCard], which dereferences the current player's entry without
    a check, never panics there. *)
Theorem X23_current_player_is_seated (g : Game) (ops : list Op) :
  started g → validRun g ops →
  is_Some (Players (runOps g ops) !! CurrentPlayer (runOps g ops))
  ∧ ∀ p i, is_Some (SwapCard (runOps g ops) p i).
Proof.
  intros Hst Hvalid.
  pose proof (validRun_current_seated ops g Hvalid
                (started_current_seated g Hst)) as Hseated.
  split; [done|]. intros p i. unfold SwapCard.
  destruct (String.eqb_spec (CurrentPlayer (runOps g ops)) p) as [<-|];
    simpl; [|by eexists].
  destruct (DrawnCards _ !! _); [|by eexists].
  destruct Hseated as [pl ->].
  destruct ((i <? 0) || (i >=? len (Cards pl))) eqn:Hrange; [by eexists|].
  apply orb_false_iff in Hrange as [Hlo Hhi].
  assert (is_Some (Cards pl !! Z.to_nat i)) as [old ->]; [|by eexists].
  apply lookup_lt_is_Some. unfold len in Hhi. lia.
Qed.

Lemma X23_current_player_is_seated_witness :
  is_Some (SwapCard (runOps sevensStart deferredRightRun) "p1" 9).
Proof.
  destruct (X23_current_player_is_seated sevensStart deferredRightRun)
    as [_ H].
  - apply sevensStart_started.
  - unfold deferredRightRun. cbn [validRun ordersValid].
    repeat split.
    unfold rangeOrder. apply (bool_decide_unpack _). vm_compute. exact I.
  - apply H.
Defined.

(* ===================================================================== *)
(** ** Further properties: projection, special cards, registry *)
(* ===================================================================== *)

(** X24. Besides the hands, the projection for a viewer holds: the
    viewer's own drawn card and nobody else's; the size of the deck and
    the top of the discard pile; an entry for every seated player; and
    the flag [stackingEnabled], which is set exactly when the pile is not
    empty and its top is the stackable card. When the flag is unset every
    stack attempt is refused and changes nothing. *)
Theorem X24_view_bookkeeping (g : Game) (viewerID : string) :
  (∀ id, vDrawnCards (getGameStateForPlayer g viewerID) !! id
         = if decide (id = viewerID) then DrawnCards g !! viewerID else None)
  ∧ vDeckSize (getGameStateForPlayer g viewerID) = len (Deck g)
  ∧ vDiscardTop (getGameStateForPlayer g viewerID)
    = discardTop (DiscardPile g)
  ∧ (∀ id, is_Some (vPlayers (getGameStateForPlayer g viewerID) !! id)
           ↔ is_Some (Players g !! id))
  ∧ (vStackingEnabled (getGameStateForPlayer g viewerID) = true
     ↔ DiscardPile g ≠ []
       ∧ StackableCardIndex g = len (DiscardPile g) - 1)
  ∧ (vStackingEnabled (getGameStateForPlayer g viewerID) = false →
     ∀ p i, (StackCard g p i).1.1 = false ∧ (StackCard g p i).2 = g).
Proof.
  unfold getGameStateForPlayer. simpl. split; [|split; [done|split; [done|]]].
  - intros id. destruct (DrawnCards g !! viewerID) as [c|] eqn:Hc.
    + rewrite lookup_singleton. repeat case_decide; congruence.
    + rewrite lookup_empty. by case_decide.
  - split; [|split].
    + intros id. rewrite map_lookup_imap.
      destruct (Players g !! id); simpl; [|done].
      split; intros _; by eexists.
    + destruct (DiscardPile g) as [|c pile].
      * split; [done|]. by intros [? _].
      * split.
        -- intros H. split; [done|]. by apply Z.eqb_eq.
        -- intros [_ H]. by apply Z.eqb_eq.
    + intros Hoff p i. unfold StackCard.
      destruct (DiscardPile g) as [|c pile] eqn:Hpile; [done|].
      rewrite <- Hpile in *.
      destruct (discardTop (DiscardPile g)); [|done].
      destruct (StackableCardIndex g =? -1); [done|].
      by rewrite Hoff.
Qed.

Lemma X24_view_bookkeeping_witness :
  (StackCard demoStart "p1" 0).1.1 = false.
Proof.
  destruct (X24_view_bookkeeping demoStart "p2") as (_ & _ & _ & _ & _ & H).
  apply H. vm_compute. reflexivity.
Defined.

(** X25. The registry returns the game stored under an id, creating and
    storing a new one (status "waiting", no players) on the first request
    only: a second request for the same id returns the same game and
    leaves the registry as it is, and games under other ids are never
    touched. *)
Theorem X25_GetOrCreateGame_get_or_create (gm : GameManager)
    (gameID : string) (shuffled : list Card) :
  games (GetOrCreateGame gm gameID shuffled).2 !! gameID
  = Some (GetOrCreateGame gm gameID shuffled).1
  ∧ (∀ shuffled',
       GetOrCreateGame (GetOrCreateGame gm gameID shuffled).2 gameID shuffled'
       = GetOrCreateGame gm gameID shuffled)
  ∧ (∀ other, other ≠ gameID →
       games (GetOrCreateGame gm gameID shuffled).2 !! other
       = games gm !! other)
  ∧ (games gm !! gameID = None →
     (GetOrCreateGame gm gameID shuffled).1 = NewGame gameID shuffled
     ∧ Status (GetOrCreateGame gm gameID shuffled).1 = "waiting"
     ∧ Players (GetOrCreateGame gm gameID shuffled).1 = ∅)
  ∧ (∀ game, games gm !! gameID = Some game →
       GetOrCreateGame gm gameID shuffled = (game, gm)).
Proof.
  unfold GetOrCreateGame.
  destruct (games gm !! gameID) as [game|] eqn:Hg; simpl.
  - rewrite Hg. repeat split; try done. by intros ? [= ->].
  - rewrite lookup_insert_eq. repeat split; try done.
    intros other Hne. by rewrite lookup_insert_ne.
Qed.

Lemma X25_GetOrCreateGame_get_or_create_witness :
  (GetOrCreateGame (mkGameManager ∅) "g" createDeck).1
  = NewGame "g" createDeck.
Proof.
  destruct (X25_GetOrCreateGame_get_or_create (mkGameManager ∅) "g" createDeck)
    as (_ & _ & _ & H & _).
  apply H. reflexivity.
Defined.

(** X26. A 7 or an 8 that is used reveals at most one card, and only to
    the player using it: each message sent is addressed to that player
    and carries the card really held at the named grid position 0..3, of
    the player's own hand for a 7 and of the named seated player for an
    8. The match state is changed by nothing but the clearing of the
    pending rank and the advance of the queue. *)
Theorem X26_peek_is_private_and_exact (g : Game) (p r : string)
    (params : gmap string JSONValue) (g' : Game) (evs : list Event) :
  r = "7" ∨ r = "8" →
  UseSpecialCardFromDiscard g p r params = Some (true, g', evs) →
  g' = advanceQueueAfterUse g r
  ∧ (length evs ≤ 1)%nat
  ∧ ∀ e, e ∈ evs →
         ∃ ofPlayer idx card,
           e = CardRevealed p ofPlayer idx card
           ∧ 0 ≤ idx < 4
           ∧ (r = "7" → ofPlayer = None)
           ∧ (r = "8" → is_Some ofPlayer)
           ∧ handOf g (default p ofPlayer) !! Z.to_nat idx = Some card.
Proof.
  intros Hr. unfold UseSpecialCardFromDiscard.
  destruct (negb _); [done|].
  destruct (discardTop _); [|done].
  destruct (negb _); [done|]. destruct (negb _); [done|].
  destruct (specialEffect g p r params) as [[g1 evs1]|] eqn:Heff; [|done].
  intros [= <- <-].
  rewrite (specialEffect_peek_state _ _ _ _ _ _ Hr Heff). split; [done|].
  unfold specialEffect, sendToPlayer, handOf in *.
  destruct Hr as [-> | ->]; simpl in Heff.
  - repeat case_match; simplify_eq; simpl; (split; [lia|]);
      intros e He; try (by apply elem_of_nil in He).
    all: apply list_elem_of_singleton in He as ->.
    all: eexists None, _, _; split; [done|]; split; [lia|].
    all: split; [done|]; split; [done|]; simpl.
    all: match goal with
         | H : Players _ !! _ = Some ?pl, H' : Cards ?pl !! _ = Some _ |- _ =>
             rewrite H; exact H'
         end.
  - repeat case_match; simplify_eq; simpl; (split; [lia|]);
      intros e He; try (by apply elem_of_nil in He).
    all: apply list_elem_of_singleton in He as ->.
    all: eexists (Some _), _, _; split; [done|]; split; [lia|].
    all: split; [done|]; split; [by eexists|]; simpl.
    all: match goal with
         | H : Players _ !! _ = Some ?pl, H' : Cards ?pl !! _ = Some _ |- _ =>
             rewrite H; exact H'
         end.
Qed.

Lemma X26_peek_is_private_and_exact_witness :
  UseSpecialCardFromDiscard sevenOnTop "p1" "7" {[ "targetIndex" := JNumber 1 ]}
  = Some (true, advanceQueueAfterUse sevenOnTop "7",
          [CardRevealed "p1" None 1 (mkCard "hearts" "A" false)])
  ∧ handOf sevenOnTop "p1" !! 1%nat = Some (mkCard "hearts" "A" false).
Proof.
  assert (UseSpecialCardFromDiscard sevenOnTop "p1" "7"
            {[ "targetIndex" := JNumber 1 ]}
          = Some (true, advanceQueueAfterUse sevenOnTop "7",
                  [CardRevealed "p1" None 1 (mkCard "hearts" "A" false)]))
    as Huse by (vm_compute; reflexivity).
  split; [exact Huse|].
  destruct (X26_peek_is_private_and_exact sevenOnTop "p1" "7" _ _ _
              (or_introl eq_refl) Huse) as (_ & _ & Hev).
  destruct (Hev (CardRevealed "p1" None 1 (mkCard "hearts" "A" false)))
    as (ofPlayer & idx & card & Heq & _ & _ & _ & Hcard).
  - apply list_elem_of_singleton. reflexivity.
  - injection Heq as <- <- <-. exact Hcard.
Defined.

Section SwapNine.

(** The hands after the two writes of a swap, slot by slot. *)
Lemma swap_slots g g' p1 n1 c1 p2 n2 c2 :
  Players g' = writeCard p2 n2 c1 (writeCard p1 n1 c2 (Players g)) →
  slotOf g p1 n1 = Some c1 → slotOf g p2 n2 = Some c2 →
  slotOf g' p2 n2 = Some c1
  ∧ ((p1, n1) ≠ (p2, n2) → slotOf g' p1 n1 = Some c2)
  ∧ (∀ q j, (q, j) ≠ (p1, n1) → (q, j) ≠ (p2, n2) →
            slotOf g' q j = slotOf g q j)
  ∧ ∀ q, length (handOf g' q) = length (handOf g q).
Proof.
  intros Hp H1 H2. unfold slotOf in *.
  set (g1 := setPlayers g (writeCard p1 n1 c2 (Players g))).
  assert (∀ q, handOf g' q
               = if decide (q = p2) then <[n2 := c1]> (handOf g1 q)
                 else handOf g1 q) as Hg'.
  { intros q. by rewrite (handOf_writeCard g' _ _ _ _ q Hp). }
  assert (∀ q, handOf g1 q
               = if decide (q = p1) then <[n1 := c2]> (handOf g q)
                 else handOf g q) as Hg1.
  { intros q. by rewrite (handOf_writeCard g1 (Players g) p1 n1 c2 q eq_refl). }
  assert (∀ q, length (handOf g1 q) = length (handOf g q)) as Hl1.
  { intros q. rewrite Hg1. case_decide; by rewrite ?length_insert. }
  pose proof (lookup_lt_Some _ _ _ H1) as Hlt1.
  pose proof (lookup_lt_Some _ _ _ H2) as Hlt2.
  split; [|split; [|split]].
  - rewrite Hg', decide_True by done.
    apply list_lookup_insert_eq. by rewrite Hl1.
  - intros Hne. rewrite Hg'. case_decide as Hq.
    + subst p2. rewrite list_lookup_insert_ne by congruence.
      rewrite Hg1, decide_True by done. by apply list_lookup_insert_eq.
    + rewrite Hg1, decide_True by done. by apply list_lookup_insert_eq.
  - intros q j Hn1 Hn2. rewrite Hg'.
    assert (handOf g1 q !! j = handOf g q !! j) as Hsame.
    { rewrite Hg1. case_decide; [subst|done].
      rewrite list_lookup_insert_ne by congruence. done. }
    case_decide; [subst|done].
    rewrite list_lookup_insert_ne by congruence. done.
  - intros q. rewrite Hg'. case_decide; by rewrite ?length_insert, Hl1.
Qed.
(** The swap broadcast: one write per connected seated player. *)
Lemma broadcast_recipients g p1 i1 c1 p2 i2 c2 e :
  e ∈ broadcastSwapEventWithCards g p1 i1 c1 p2 i2 c2
  ↔ ∃ q pl, Players g !! q = Some pl ∧ Conn pl = true
            ∧ e = SwapEvent q p1 i1 c1 p2 i2 c2.
Proof.
  unfold broadcastSwapEventWithCards. rewrite list_elem_of_fmap. split.
  - intros ([q pl] & -> & Hin). apply list_elem_of_filter in Hin as [Hc Hin].
    apply elem_of_map_to_list in Hin. by exists q, pl.
  - intros (q & pl & Hq & Hc & ->). exists (q, pl). split; [done|].
    apply list_elem_of_filter. split; [done|]. by apply elem_of_map_to_list.
Qed.

Lemma broadcast_NoDup g p1 i1 c1 p2 i2 c2 :
  NoDup (broadcastSwapEventWithCards g p1 i1 c1 p2 i2 c2).
Proof.
  unfold broadcastSwapEventWithCards. apply NoDup_fmap_2_strong.
  - intros [q pl] [q' pl'] Hin Hin' [= ->].
    apply list_elem_of_filter in Hin as [_ Hin].
    apply list_elem_of_filter in Hin' as [_ Hin'].
    apply elem_of_map_to_list in Hin, Hin'. congruence.
  - apply NoDup_filter, NoDup_map_to_list.
Qed.
End SwapNine.

(** X27. A 9 used with two valid targets exchanges exactly the two named
    cards: slot [i2] of [p2] receives the card of slot [i1] of [p1] and
    vice versa (also when both slots are in the same hand), every other
    slot of every hand keeps its card, no hand changes its length, and
    deck and discard pile are untouched. The swap message is written once
    to each seated player who has a connection and to nobody else, and it
    carries the two cards as they were before the exchange. *)
Theorem X27_nine_swaps_two_slots (g : Game) (p p1 p2 : string) (i1 i2 : Z)
    (c1 c2 top : Card) :
  CurrentPlayer g = p →
  discardTop (DiscardPile g) = Some top → Rank top = "9" →
  PendingSpecialCard g = "9" →
  0 ≤ i1 → 0 ≤ i2 →
  slotOf g p1 (Z.to_nat i1) = Some c1 →
  slotOf g p2 (Z.to_nat i2) = Some c2 →
  ∃ g' evs,
    UseSpecialCardFromDiscard g p "9" (swapParams p1 i1 p2 i2)
    = Some (true, g', evs)
    ∧ NoDup evs
    ∧ (∀ e, e ∈ evs
            ↔ ∃ q pl, Players g !! q = Some pl ∧ Conn pl = true
                      ∧ e = SwapEvent q p1 i1 c1 p2 i2 c2)
    ∧ slotOf g' p2 (Z.to_nat i2) = Some c1
    ∧ ((p1, Z.to_nat i1) ≠ (p2, Z.to_nat i2) →
       slotOf g' p1 (Z.to_nat i1) = Some c2)
    ∧ (∀ q j, (q, j) ≠ (p1, Z.to_nat i1) → (q, j) ≠ (p2, Z.to_nat i2) →
              slotOf g' q j = slotOf g q j)
    ∧ (∀ q, length (handOf g' q) = length (handOf g q))
    ∧ Deck g' = Deck g ∧ DiscardPile g' = DiscardPile g.
Proof.
  intros Hcur Htop Hrank Hpend Hi1 Hi2 H1 H2.
  assert (∃ pl1, Players g !! p1 = Some pl1
                 ∧ Cards pl1 !! Z.to_nat i1 = Some c1) as (pl1 & Hp1 & Hc1).
  { unfold slotOf, handOf in H1. destruct (Players g !! p1) as [pl|]; [|done].
    by exists pl. }
  assert (∃ pl2, Players g !! p2 = Some pl2
                 ∧ Cards pl2 !! Z.to_nat i2 = Some c2) as (pl2 & Hp2 & Hc2).
  { unfold slotOf, handOf in H2. destruct (Players g !! p2) as [pl|]; [|done].
    by exists pl. }
  pose proof (lookup_lt_Some _ _ _ Hc1) as Hlt1.
  pose proof (lookup_lt_Some _ _ _ Hc2) as Hlt2.
  assert (specialEffect g p "9" (swapParams p1 i1 p2 i2)
          = Some (setPlayers g
                    (writeCard p2 (Z.to_nat i2) c1
                       (writeCard p1 (Z.to_nat i1) c2 (Players g))),
                  broadcastSwapEventWithCards g p1 i1 c1 p2 i2 c2)) as Heff.
  { unfold specialEffect, swapParams. simpl.
    rewrite lookup_insert_eq.
    rewrite (lookup_insert_ne _ "player1ID" "card1Index") by done.
    rewrite lookup_insert_eq.
    rewrite (lookup_insert_ne _ "player1ID" "player2ID") by done.
    rewrite (lookup_insert_ne _ "card1Index" "player2ID") by done.
    rewrite lookup_insert_eq.
    rewrite (lookup_insert_ne _ "player1ID" "card2Index") by done.
    rewrite (lookup_insert_ne _ "card1Index" "card2Index") by done.
    rewrite (lookup_insert_ne _ "player2ID" "card2Index") by done.
    rewrite lookup_singleton_eq.
    rewrite Hp1, Hp2, Hc1, Hc2.
    assert ((i1 >=? 0) && (i1 <? len (Cards pl1)) = true) as ->
      by (unfold len; lia).
    assert ((i2 >=? 0) && (i2 <? len (Cards pl2)) = true) as ->
      by (unfold len; lia).
    done. }
  eexists _, _. split; [|split; [|split]].
  - unfold UseSpecialCardFromDiscard.
    rewrite Hcur, String.eqb_refl, Htop, Hrank, Hpend. simpl.
    rewrite Heff. done.
  - apply broadcast_NoDup.
  - apply broadcast_recipients.
  - set (g1 := setPlayers g _).
    assert (Players (advanceQueueAfterUse g1 "9") = Players g1
            ∧ Deck (advanceQueueAfterUse g1 "9") = Deck g
            ∧ DiscardPile (advanceQueueAfterUse g1 "9") = DiscardPile g)
      as (HP & HD & HDP).
    { unfold advanceQueueAfterUse. simpl.
      destruct (StackedSpecialCardPlayers g); [done|]. by case_bool_decide. }
    destruct (swap_slots g (advanceQueueAfterUse g1 "9")
                p1 (Z.to_nat i1) c1 p2 (Z.to_nat i2) c2)
      as (K1 & K2 & K3 & K4); try done.
Qed.

Lemma X27_nine_swaps_two_slots_witness :
  ∃ g' evs,
    UseSpecialCardFromDiscard nineOnTop "p1" "9" (swapParams "p1" 0 "p2" 3)
    = Some (true, g', evs)
    ∧ SwapEvent "p1" "p1" 0 (mkCard "hearts" "A" false)
        "p2" 3 (mkCard "hearts" "8" false) ∈ evs
    ∧ SwapEvent "p2" "p1" 0 (mkCard "hearts" "A" false)
        "p2" 3 (mkCard "hearts" "8" false) ∈ evs
    ∧ slotOf g' "p2" 3 = Some (mkCard "hearts" "A" false).
Proof.
  assert (Conn <$> (Players nineOnTop !! "p1") = Some true) as Hp1
    by (vm_compute; reflexivity).
  assert (Conn <$> (Players nineOnTop !! "p2") = Some true) as Hp2
    by (vm_compute; reflexivity).
  assert (CurrentPlayer nineOnTop = "p1") as Hcur by (vm_compute; reflexivity).
  assert (discardTop (DiscardPile nineOnTop) = Some (mkCard "hearts" "9" true))
    as Htop by (vm_compute; reflexivity).
  assert (PendingSpecialCard nineOnTop = "9") as Hpend
    by (vm_compute; reflexivity).
  assert (slotOf nineOnTop "p1" (Z.to_nat 0) = Some (mkCard "hearts" "A" false))
    as H1 by (vm_compute; reflexivity).
  assert (slotOf nineOnTop "p2" (Z.to_nat 3) = Some (mkCard "hearts" "8" false))
    as H2 by (vm_compute; reflexivity).
  destruct (X27_nine_swaps_two_slots nineOnTop "p1" "p1" "p2" 0 3
              (mkCard "hearts" "A" false) (mkCard "hearts" "8" false)
              (mkCard "hearts" "9" true) Hcur Htop eq_refl Hpend
              ltac:(lia) ltac:(lia) H1 H2)
    as (g' & evs & Huse & _ & Hev & Hslot & _).
  exists g', evs. split; [exact Huse|].
  split; [|split; [|exact Hslot]]; apply Hev.
  - destruct (Players nineOnTop !! "p1") as [pl|] eqn:Hq; [|discriminate Hp1].
    exists "p1", pl. split; [exact Hq|]. split; [|reflexivity].
    injection Hp1 as Hp1. exact Hp1.
  - destruct (Players nineOnTop !! "p2") as [pl|] eqn:Hq; [|discriminate Hp2].
    exists "p2", pl. split; [exact Hq|]. split; [|reflexivity].
    injection Hp2 as Hp2. exact Hp2.
Defined.

(* ===================================================================== *)
(** ** Turn rotation over the join order *)
(* ===================================================================== *)

Section Seating.

Lemma runOps_sameSeats ops : ∀ g, sameSeats g (runOps g ops).
Proof.
  induction ops as [|o ops IH]; intros g.
  - by apply sameSeats_eq.
  - eapply sameSeats_trans; [apply (applyOp_sameSeats g o)|apply IH].
Qed.

Lemma joinAll_seats joins : ∀ g id,
  (size (Players g) + length joins ≤ 6)%nat →
  is_Some (Players (joinAll g joins) !! id)
  ↔ is_Some (Players g !! id) ∨ id ∈ seatingOf joins.
Proof.
  induction joins as [|[[a name] conn] joins IH]; intros g id Hsz.
  - unfold seatingOf. simpl. rewrite elem_of_nil. tauto.
  - unfold joinAll. simpl. fold (joinAll (AddPlayer g a name conn).2 joins).
    simpl in Hsz. unfold AddPlayer.
    assert ((Z.of_nat (size (Players g)) >=? 6) = false) as -> by lia.
    simpl. rewrite IH.
    + simpl. unfold seatingOf. simpl. rewrite elem_of_cons.
      destruct (decide (id = a)) as [->|Hne].
      * rewrite lookup_insert_eq. split; [intros _; right; by left|].
        intros _. left. by eexists.
      * rewrite lookup_insert_ne by done. split; intros [?|?]; auto.
        destruct H as [?|?]; [done|auto].
    + simpl. rewrite map_size_insert. destruct (Players g !! a); simpl; lia.
Qed.

(** The seated players of a match are those who joined it. *)
Lemma reached_seats gid shuffled joins ops :
  NoDup (seatingOf joins) → (length joins ≤ 6)%nat →
  rangeOrder (Players (runOps (joinAll (NewGame gid shuffled) joins) ops))
    (seatingOf joins).
Proof.
  intros Hnd Hlen. unfold rangeOrder.
  apply NoDup_Permutation; [done|apply NoDup_fst_map_to_list|].
  intros id.
  set (g := runOps (joinAll (NewGame gid shuffled) joins) ops).
  assert (id ∈ (map_to_list (Players g)).*1 ↔ is_Some (Players g !! id)) as ->.
  { apply rangeOrder_elem. unfold rangeOrder. reflexivity. }
  subst g.
  rewrite (runOps_sameSeats ops (joinAll (NewGame gid shuffled) joins) id).
  rewrite joinAll_seats by (simpl; rewrite map_size_empty; lia).
  simpl. rewrite lookup_empty. split; [auto|]. intros [[? ?]|?]; done.
Qed.

Lemma rotationOf_perm seating ord : rotationOf seating ord → ord ≡ₚ seating.
Proof.
  intros [k ->]. unfold rotate.
  rewrite Permutation_app_comm. by rewrite take_drop.
Qed.

(** Entering the seating list at another offset does not change who sits
    after whom. *)
Lemma nextSeat_rotate seating k p :
  NoDup seating → p ∈ seating →
  nextSeat (rotate k seating) p = nextSeat seating p.
Proof.
  intros Hnd Hin. unfold nextSeat.
  assert (p ∈ rotate k seating) as Hin' by (by apply elem_of_rotate).
  destruct (indexOf_Some p _ Hin) as (j & -> & Hj).
  destruct (indexOf_Some p _ Hin') as (i & -> & Hi).
  rewrite length_rotate.
  pose proof (lookup_lt_Some _ _ _ Hj) as Hjn.
  pose proof (lookup_lt_Some _ _ _ Hi) as Hin2. rewrite length_rotate in Hin2.
  set (n := length seating) in *.
  rewrite lookup_rotate_r in Hi by done. fold n in Hi.
  pose proof (NoDup_lookup _ _ _ _ Hnd Hi Hj) as Hij.
  rewrite lookup_rotate_r by (apply Nat.mod_upper_bound; lia). fold n.
  f_equal. rewrite <- Hij.
  rewrite <- (rotate_nat_add_add k i n 1) by lia.
  unfold rotate_nat_add.
  rewrite Nat2Z.inj_mod. by rewrite Zplus_mod_idemp_r.
Qed.
End Seating.

Section NextSeat.
Lemma EndTurn_nextSeat g p ord :
  NoDup ord → CurrentPlayer g = p → DrawnCards g !! p = None →
  PendingSpecialCard g = "" → p ∈ ord →
  ∃ next,
    nextSeat ord p = Some next ∧ next ∈ ord
    ∧ EndTurn g p ord
      = if PabloCalled g && String.eqb next (PabloCaller g)
        then EndRound (setHasDrawnThisTurn g (delete p (HasDrawnThisTurn g)))
        else setHasDrawnThisTurn (setCurrentPlayer g next)
               (delete next (delete p (HasDrawnThisTurn g))).
Proof.
  intros Hnd Hcur Hdrawn Hpend Hin.
  destruct (EndTurn_passes g p ord Hcur Hdrawn Hpend Hin)
    as (i & next & Hi & Hnext & Hend).
  exists next. split; [|split; [by eapply list_elem_of_lookup_2|done]].
  unfold nextSeat. destruct (indexOf_Some p ord Hin) as (j & -> & Hj).
  by rewrite (NoDup_lookup _ _ _ _ Hnd Hj Hi).
Qed.
End NextSeat.



(* ===================================================================== *)
(** ** The queue of deferred rights in reached states *)
(* ===================================================================== *)

Section QueueAdvance.

Lemma reached_tidy gid shuffled joins ops :
  let g := runOps (joinAll (NewGame gid shuffled) joins) ops in
  stackableTidy g ∧ pendingTidy g ∧ queueTidy g.
Proof.
  destruct (joinAll_tidy joins (NewGame gid shuffled)) as (Hs & Hp & Hq);
    [by left|by intros ?|done|].
  by apply runOps_tidy.
Qed.

(** What the tail of [UseSpecialCardFromDiscard] leaves when the queued
    players are seated. *)
Lemma advanceQueueAfterUse_fields g r :
  Forall (fun q => is_Some (Players g !! q)) (StackedSpecialCardPlayers g) →
  Players (advanceQueueAfterUse g r) = Players g
  ∧ Deck (advanceQueueAfterUse g r) = Deck g
  ∧ DiscardPile (advanceQueueAfterUse g r) = DiscardPile g
  ∧ DrawnCards (advanceQueueAfterUse g r) = DrawnCards g
  ∧ match StackedSpecialCardPlayers g with
    | [] =>
        PendingSpecialCard (advanceQueueAfterUse g r) = ""
        ∧ CurrentPlayer (advanceQueueAfterUse g r) = CurrentPlayer g
        ∧ StackedSpecialCardPlayers (advanceQueueAfterUse g r) = []
    | q :: rest =>
        StackedSpecialCardPlayers (advanceQueueAfterUse g r) = rest
        ∧ CurrentPlayer (advanceQueueAfterUse g r) = q
        ∧ PendingSpecialCard (advanceQueueAfterUse g r) = r
    end.
Proof.
  intros Hseated. unfold advanceQueueAfterUse. simpl.
  destruct (StackedSpecialCardPlayers g) as [|q rest] eqn:Hqueue.
  - simpl. rewrite Hqueue. auto 10.
  - apply Forall_cons in Hseated as [Hq _]. simpl.
    rewrite bool_decide_eq_true_2 by done. simpl. rewrite ?Hqueue. auto 10.
Qed.
End QueueAdvance.

(** C8. In any state a match has reached, with a special rank pending
    for the current player (the rank is then 7, 8 or 9 and is the rank on
    top of the discard pile): a skip by the current player, and likewise
    every use of a special card by the current player that goes through
    (it is then a use of the pending rank), clears the pending rank;
    then, when the queue of deferred rights is not empty, its head is
    removed from the queue, that player becomes the current player and
    the same rank is pending again; with an empty queue nothing is
    pending and the current player stays. A use with no parameters at
    all goes through. *)
Theorem C8_deferred_rights_queue (gid : string) (shuffled : list Card)
    (joins : list (string * string * bool)) (ops : list Op) (g : Game)
    (p r : string) :
  g = runOps (joinAll (NewGame gid shuffled) joins) ops →
  CurrentPlayer g = p → PendingSpecialCard g = r → r ≠ "" →
  (r = "7" ∨ r = "8" ∨ r = "9")
  ∧ Rank <$> discardTop (DiscardPile g) = Some r
  ∧ match StackedSpecialCardPlayers g with
    | [] =>
        PendingSpecialCard (SkipSpecialCard g p) = ""
        ∧ CurrentPlayer (SkipSpecialCard g p) = p
        ∧ StackedSpecialCardPlayers (SkipSpecialCard g p) = []
    | q :: rest =>
        StackedSpecialCardPlayers (SkipSpecialCard g p) = rest
        ∧ CurrentPlayer (SkipSpecialCard g p) = q
        ∧ PendingSpecialCard (SkipSpecialCard g p) = r
    end
  ∧ (∀ r' params g' evs,
       UseSpecialCardFromDiscard g p r' params = Some (true, g', evs) →
       r' = r
       ∧ match StackedSpecialCardPlayers g with
         | [] =>
             PendingSpecialCard g' = "" ∧ CurrentPlayer g' = p
             ∧ StackedSpecialCardPlayers g' = []
         | q :: rest =>
             StackedSpecialCardPlayers g' = rest ∧ CurrentPlayer g' = q
             ∧ PendingSpecialCard g' = r
         end)
  ∧ ∃ g', UseSpecialCardFromDiscard g p r ∅ = Some (true, g', []).
Proof.
  intros Hg Hcur Hpend Hr.
  destruct (reached_tidy gid shuffled joins ops) as (_ & Hp & Hnd & Hseated).
  rewrite <- Hg in Hp, Hnd, Hseated. clear Hg.
  unfold pendingTidy in Hp. rewrite Hpend in Hp.
  destruct (Hp Hr) as [Hspecial Htop].
  assert (r = "7" ∨ r = "8" ∨ r = "9") as Hrank.
  { unfold isSpecialRank in Hspecial.
    apply orb_true_iff in Hspecial as [Hspecial|H9].
    - apply orb_true_iff in Hspecial as [H7|H8].
      + left. by apply String.eqb_eq.
      + right. left. by apply String.eqb_eq.
    - right. right. by apply String.eqb_eq. }
  destruct (discardTop (DiscardPile g)) as [top|] eqn:Htopc; [|done].
  injection Htop as Htop.
  split; [done|]. split; [simpl; by rewrite Htop|]. split; [|split].
  - unfold SkipSpecialCard. rewrite Hcur, String.eqb_refl. simpl.
    destruct (StackedSpecialCardPlayers g) as [|q rest] eqn:Hqueue.
    + simpl. by rewrite Hqueue.
    + apply Forall_cons in Hseated as [Hq _]. simpl.
      rewrite bool_decide_eq_true_2 by done. simpl.
      rewrite Htopc, Htop, Hspecial. simpl. auto.
  - intros r' params g' evs. unfold UseSpecialCardFromDiscard.
    rewrite Hcur, String.eqb_refl, Htopc, Htop, Hpend. simpl.
    destruct (String.eqb r r') eqn:Hrr; [|done]. simpl.
    apply String.eqb_eq in Hrr as <-.
    destruct (specialEffect g p r params) as [[g1 evs1]|] eqn:Heff; [|done].
    intros [= <- <-]. split; [done|].
    destruct (specialEffect_frame _ _ _ _ _ _ Heff) as (Hc & _ & Hq & Hdom).
    destruct (advanceQueueAfterUse_fields g1 r) as (_ & _ & _ & _ & Hadv).
    { rewrite Hq. eapply Forall_impl; [exact Hseated|].
      intros q Hseat. by apply Hdom. }
    rewrite Hq, Hc, Hcur in Hadv. exact Hadv.
  - unfold UseSpecialCardFromDiscard.
    rewrite Hcur, String.eqb_refl, Htopc, Htop, Hpend, String.eqb_refl. simpl.
    assert (specialEffect g p r ∅ = Some (g, [])) as ->; [|by eexists].
    unfold specialEffect. rewrite !lookup_empty.
    by repeat case_match.
Qed.

Lemma C8_deferred_rights_queue_witness :
  StackedSpecialCardPlayers rivalQueued = ["p2"]
  ∧ (StackedSpecialCardPlayers (SkipSpecialCard rivalQueued "p1") = []
     ∧ CurrentPlayer (SkipSpecialCard rivalQueued "p1") = "p2"
     ∧ PendingSpecialCard (SkipSpecialCard rivalQueued "p1") = "7")
  ∧ ∃ g', UseSpecialCardFromDiscard rivalQueued "p1" "7" ∅
          = Some (true, g', [])
          ∧ StackedSpecialCardPlayers g' = []
          ∧ CurrentPlayer g' = "p2"
          ∧ PendingSpecialCard g' = "7".
Proof.
  assert (CurrentPlayer rivalQueued = "p1") as Hcur by (vm_compute; reflexivity).
  assert (PendingSpecialCard rivalQueued = "7") as Hpend
    by (vm_compute; reflexivity).
  assert (StackedSpecialCardPlayers rivalQueued = ["p2"]) as Hqueue
    by (vm_compute; reflexivity).
  destruct (C8_deferred_rights_queue "g" rivalSevensDeck twoJoins
              rivalQueuedOps rivalQueued "p1" "7" eq_refl Hcur Hpend
              ltac:(discriminate))
    as (_ & _ & Hskip & Huse & g' & Hgo).
  rewrite Hqueue in Hskip.
  split; [exact Hqueue|]. split; [exact Hskip|].
  exists g'. split; [exact Hgo|].
  destruct (Huse "7" ∅ g' [] Hgo) as [_ Hout].
  rewrite Hqueue in Hout. exact Hout.
Defined.

(* ===================================================================== *)
(** ** Peeks with a bad target *)
(* ===================================================================== *)

(** C10 (the code departs from it). The current player uses a pending 7
    on an own slot, or a pending 8 on a slot of a seated player, with a
    target index below 4 that lies past the end of the target hand: a
    hand is shorter than four slots once a card was stacked from it. The
    index is out of range, yet the call neither succeeds silently nor is
    it rejected: the index expression panics and the call returns
    nothing. *)
Theorem C10_peek_past_the_hand_panics (g : Game) (p r target : string)
    (params : gmap string JSONValue) (top : Card) (pl : Player) (idx : Z) :
  CurrentPlayer g = p →
  discardTop (DiscardPile g) = Some top → Rank top = r →
  PendingSpecialCard g = r →
  (r = "7" ∧ target = p)
  ∨ (r = "8" ∧ params !! "targetPlayerID" = Some (JString target)) →
  Players g !! target = Some pl →
  params !! "targetIndex" = Some (JNumber idx) →
  len (Cards pl) ≤ idx < 4 →
  UseSpecialCardFromDiscard g p r params = None.
Proof.
  intros Hcur Htop Hrank Hpend Hcase Hpl Hidx Hrange.
  unfold UseSpecialCardFromDiscard.
  rewrite Hcur, String.eqb_refl, Htop, Hrank, Hpend, String.eqb_refl. simpl.
  assert (Cards pl !! Z.to_nat idx = None) as Hnone.
  { apply lookup_ge_None. unfold len in Hrange. lia. }
  assert ((idx >=? 0) && (idx <? 4) = true) as Hin.
  { unfold len in Hrange. lia. }
  assert (specialEffect g p r params = None) as ->; [|done].
  unfold specialEffect.
  destruct Hcase as [[-> ->] | [-> Htarget]]; simpl.
  - by rewrite Hidx, Hin, Hpl, Hnone.
  - by rewrite Htarget, Hidx, Hpl, Hin, Hnone.
Qed.

Lemma C10_peek_past_the_hand_panics_witness :
  started sevensStart
  ∧ shortHand = runOps sevensStart
                  [OpDrawCard "p1"; OpDiscardDrawnCard "p1"; OpStackCard "p1" 0]
  ∧ length (handOf shortHand "p1") = 3%nat
  ∧ UseSpecialCardFromDiscard shortHand "p1" "7" {[ "targetIndex" := JNumber 3 ]}
    = None
  ∧ ∃ g', UseSpecialCardFromDiscard shortHand "p1" "7"
            {[ "targetIndex" := JNumber 4 ]} = Some (true, g', []).
Proof.
  split; [apply sevensStart_started|].
  split; [vm_compute; reflexivity|].
  split; [vm_compute; reflexivity|].
  split; [|eexists; vm_compute; reflexivity].
  assert (CurrentPlayer shortHand = "p1") as Hcur by (vm_compute; reflexivity).
  assert (discardTop (DiscardPile shortHand) = Some (mkCard "diamonds" "7" true))
    as Htop by (vm_compute; reflexivity).
  assert (PendingSpecialCard shortHand = "7") as Hpend
    by (vm_compute; reflexivity).
  assert (Players shortHand !! "p1"
          = Some (mkPlayer "p1" "Alice"
                    [mkCard "hearts" "A" false; mkCard "hearts" "2" false;
                     mkCard "hearts" "3" false] true false 0)) as Hpl
    by (vm_compute; reflexivity).
  apply (C10_peek_past_the_hand_panics shortHand "p1" "7" "p1" _ _ _ 3
           Hcur Htop eq_refl Hpend (or_introl (conj eq_refl eq_refl)) Hpl).
  - reflexivity.
  - unfold len. simpl. lia.
Defined.

(** X28. For the current player with the rank 7 or 8 pending and on top
    of the pile, a use whose target index is missing, not a number or
    outside 0..3 (or, for an 8, whose target player is missing or not a
    string) returns true and sends no message. It changes no hand, nor
    the deck, the pile or the drawn cards; it clears the pending rank
    and takes the head off the queue of deferred rights: a seated head
    becomes the current player with the same rank pending again, with an
    empty queue nothing is pending and the current player stays. Every
    use of that rank that goes through, a well-formed one included, ends
    in that same state. *)
Theorem X28_malformed_peek_succeeds_silently (g : Game) (p r : string)
    (params : gmap string JSONValue) (top : Card) :
  CurrentPlayer g = p →
  discardTop (DiscardPile g) = Some top → Rank top = r →
  PendingSpecialCard g = r →
  r = "7" ∨ r = "8" →
  malformedTarget r params = true →
  Forall (fun q => is_Some (Players g !! q)) (StackedSpecialCardPlayers g) →
  ∃ g',
    UseSpecialCardFromDiscard g p r params = Some (true, g', [])
    ∧ Players g' = Players g ∧ Deck g' = Deck g
    ∧ DiscardPile g' = DiscardPile g ∧ DrawnCards g' = DrawnCards g
    ∧ match StackedSpecialCardPlayers g with
      | [] =>
          PendingSpecialCard g' = "" ∧ CurrentPlayer g' = p
          ∧ StackedSpecialCardPlayers g' = []
      | q :: rest =>
          StackedSpecialCardPlayers g' = rest ∧ CurrentPlayer g' = q
          ∧ PendingSpecialCard g' = r
      end
    ∧ ∀ params' g'' evs,
        UseSpecialCardFromDiscard g p r params' = Some (true, g'', evs) →
        g'' = g'.
Proof.
  intros Hcur Htop Hrank Hpend Hr Hbad Hseated.
  exists (advanceQueueAfterUse g r).
  destruct (advanceQueueAfterUse_fields g r Hseated)
    as (H1 & H2 & H3 & H4 & H5).
  split; [|split; [done|split; [done|split; [done|split; [done|split]]]]].
  - unfold UseSpecialCardFromDiscard.
    rewrite Hcur, String.eqb_refl, Htop, Hrank, Hpend, String.eqb_refl. simpl.
    by rewrite specialEffect_malformed.
  - by rewrite Hcur in H5.
  - intros params' g'' evs. unfold UseSpecialCardFromDiscard.
    rewrite Hcur, String.eqb_refl, Htop, Hrank, Hpend, String.eqb_refl. simpl.
    destruct (specialEffect g p r params') as [[g1 evs1]|] eqn:Heff; [|done].
    intros [= <- <-]. by rewrite (specialEffect_peek_state _ _ _ _ _ _ Hr Heff).
Qed.

Lemma X28_malformed_peek_succeeds_silently_witness :
  ∃ g',
    UseSpecialCardFromDiscard rivalQueued "p1" "7"
      {[ "targetIndex" := JNumber 9 ]} = Some (true, g', [])
    ∧ StackedSpecialCardPlayers g' = []
    ∧ CurrentPlayer g' = "p2"
    ∧ PendingSpecialCard g' = "7".
Proof.
  assert (CurrentPlayer rivalQueued = "p1") as Hcur by (vm_compute; reflexivity).
  assert (discardTop (DiscardPile rivalQueued) = Some (mkCard "clubs" "7" true))
    as Htop by (vm_compute; reflexivity).
  assert (PendingSpecialCard rivalQueued = "7") as Hpend
    by (vm_compute; reflexivity).
  assert (StackedSpecialCardPlayers rivalQueued = ["p2"]) as Hqueue
    by (vm_compute; reflexivity).
  assert (Forall (fun q => is_Some (Players rivalQueued !! q))
            (StackedSpecialCardPlayers rivalQueued)) as Hseated.
  { apply (bool_decide_unpack _). vm_compute. exact I. }
  assert (malformedTarget "7" {[ "targetIndex" := JNumber 9 ]} = true) as Hbad
    by (vm_compute; reflexivity).
  destruct (X28_malformed_peek_succeeds_silently rivalQueued "p1" "7"
              {[ "targetIndex" := JNumber 9 ]} _ Hcur Htop eq_refl Hpend
              (or_introl eq_refl) Hbad Hseated)
    as (g' & Huse & _ & _ & _ & _ & Hadv & _).
  rewrite Hqueue in Hadv.
  exists g'. split; [exact Huse | exact Hadv].
Defined.
